(** * IMOBOT chat widget: a shallow embedding of [static/js/script.js]

    The widget is one JavaScript class, [IMOBOTChat].  This development
    embeds the parts of it that carry behaviour (HTML escaping and message
    formatting, the session identifier, the send/receive exchange and the
    response renderer) as Rocq functions over explicit state, and proves
    the properties the specification states about them.

    Conventions of the embedding:
    - a JavaScript string is its sequence of UTF-16 code units ([list N]);
    - a JavaScript Number is an IEEE-754 value ([spec_float]);
    - a value obtained from [JSON.parse] is a [JsValue];
    - a call that may raise returns a [completion];
    - the [async] method [sendMessage] is cut at its [await]s into
      run-to-completion segments over a [Widget] state. *)

From Stdlib Require Import ZArith NArith QArith Qpower Qround Qabs Lqa.
From Stdlib Require Import List String Ascii Lia.
From Stdlib Require Import Floats.SpecFloat.
From stdpp Require Import base list gmap pretty.

Set Warnings "-register-all".

Local Open Scope N_scope.

(* ===================================================================== *)
(** ** Strings as sequences of UTF-16 code units *)
(* ===================================================================== *)

Abbreviation jsstring := (list N).

(** An ASCII literal of the source, as code units. *)
Definition lit (s : string) : jsstring :=
  map N_of_ascii (list_ascii_of_string s).

(** The double-quote character, U+0022. *)
Definition dq : jsstring := [34].

Definition quoted (s : jsstring) : jsstring := dq ++ s ++ dq.

(** Code units the source names in its patterns. *)
Module Chr.
Definition amp : N := 38.      (* ampersand *)
Definition lt : N := 60.       (* less-than sign *)
Definition gt : N := 62.       (* greater-than sign *)
Definition quot : N := 34.     (* double quote *)
Definition apos : N := 39.     (* single quote *)
Definition star : N := 42.     (* asterisk *)
Definition lf : N := 10.       (* line feed *)
End Chr.

(** ECMAScript [LineTerminator]: LF, CR, LS, PS.  The regular-expression
    atom [.] (without the [s] flag) matches every code unit but these. *)
Definition isLineTerminator (c : N) : bool :=
  (c =? 10) || (c =? 13) || (c =? 8232) || (c =? 8233).

(** ECMAScript [WhiteSpace]: TAB, VT, FF, ZWNBSP and the Unicode space
    separators. *)
Definition isWhiteSpace (c : N) : bool :=
  (c =? 9) || (c =? 11) || (c =? 12) || (c =? 32) || (c =? 160)
  || (c =? 5760) || ((8192 <=? c) && (c <=? 8202))
  || (c =? 8239) || (c =? 8287) || (c =? 12288) || (c =? 65279).

(** The regular-expression class [\s], also the set [String.prototype.trim]
    strips: white space and line terminators. *)
Definition isSpace (c : N) : bool := isWhiteSpace c || isLineTerminator c.

(** [s.replace(/c/g, rep)] for a single code unit [c] and a replacement
    text without [$] patterns. *)
Definition replace_char (c : N) (rep : jsstring) (s : jsstring) : jsstring :=
  flat_map (fun x => if x =? c then rep else [x]) s.

(** [strip_prefix p s = Some r] when [s = p ++ r]. *)
Fixpoint strip_prefix (p s : jsstring) : option jsstring :=
  match p, s with
  | [], _ => Some s
  | _ :: _, [] => None
  | a :: p', b :: s' => if a =? b then strip_prefix p' s' else None
  end.

(** [s.replace(re, rep)] for a global pattern [re] that matches no empty
    text, given by its matcher anchored at the head of the text (the
    captured text and what follows the match) and by the replacement as a
    function of the captured text.  Matches are taken left to right and do
    not overlap.  [fuel] bounds the number of positions visited;
    [length s] always suffices. *)
Fixpoint replace_matches_fuel (fuel : nat)
    (matcher : jsstring → option (jsstring * jsstring))
    (rep : jsstring → jsstring) (s : jsstring) : jsstring :=
  match fuel with
  | O => s
  | S fuel' =>
      match s with
      | [] => []
      | c :: s' =>
          match matcher s with
          | Some (g, r) => rep g ++ replace_matches_fuel fuel' matcher rep r
          | None => c :: replace_matches_fuel fuel' matcher rep s'
          end
      end
  end.

Definition replace_matches (matcher : jsstring → option (jsstring * jsstring))
    (rep : jsstring → jsstring) (s : jsstring) : jsstring :=
  replace_matches_fuel (length s) matcher rep s.

(** A matcher that matches no empty text leaves less than it was given. *)
Definition consuming (matcher : jsstring → option (jsstring * jsstring)) : Prop :=
  ∀ s g r, matcher s = Some (g, r) → (length r < length s)%nat.

(** The matcher of a literal, non-empty pattern. *)
Definition match_lit (pat s : jsstring) : option (jsstring * jsstring) :=
  match pat with
  | [] => None
  | _ :: _ => r ← strip_prefix pat s; Some (pat, r)
  end.

(** [s.replace(/pat/g, rep)] for a literal pattern. *)
Definition replace_lit (pat rep s : jsstring) : jsstring :=
  replace_matches (match_lit pat) (fun _ => rep) s.

(* ===================================================================== *)
(** ** [_escapeHtml] *)
(* ===================================================================== *)

(** The body of [_escapeHtml] once its argument is a string: five global
    replacements, in the order of the source. *)
Definition escape_replacements (s : jsstring) : jsstring :=
  replace_char Chr.apos (lit "&#039;")
    (replace_char Chr.quot (lit "&quot;")
      (replace_char Chr.gt (lit "&gt;")
        (replace_char Chr.lt (lit "&lt;")
          (replace_char Chr.amp (lit "&amp;") s)))).

(** The entity one source character ends up as. *)
Definition escape_char (c : N) : jsstring :=
  if c =? Chr.amp then lit "&amp;"
  else if c =? Chr.lt then lit "&lt;"
  else if c =? Chr.gt then lit "&gt;"
  else if c =? Chr.quot then lit "&quot;"
  else if c =? Chr.apos then lit "&#039;"
  else [c].

Definition isHtmlSpecial (c : N) : bool :=
  (c =? Chr.lt) || (c =? Chr.gt) || (c =? Chr.quot) || (c =? Chr.apos).

(** What may follow an ampersand in escaped text. *)
Definition entity_tails : list jsstring :=
  [lit "amp;"; lit "lt;"; lit "gt;"; lit "quot;"; lit "#039;"].

Definition starts_with (p s : jsstring) : bool :=
  match strip_prefix p s with Some _ => true | None => false end.

(** Escaped text: no [<], [>], double or single quote, and every [&]
    opens one of the five entities. *)
Fixpoint well_escaped (s : jsstring) : bool :=
  match s with
  | [] => true
  | c :: r =>
      (if c =? Chr.amp then existsb (fun t => starts_with t r) entity_tails
       else negb (isHtmlSpecial c))
      && well_escaped r
  end.

(* ===================================================================== *)
(** ** [_formatMessage] *)
(* ===================================================================== *)

(** The lazy group of [/\*\*(.+?)\*\*/] after its first character: extend
    the group one non-line-terminator at a time until two asterisks
    follow.  Returns the rest of the group and the text after the closing
    asterisks. *)
Fixpoint find_close (s : jsstring) : option (jsstring * jsstring) :=
  match s with
  | [] => None
  | c :: s' =>
      match strip_prefix [Chr.star; Chr.star] s with
      | Some r => Some ([], r)
      | None =>
          if isLineTerminator c then None
          else match find_close s' with
               | Some (g, r) => Some (c :: g, r)
               | None => None
               end
      end
  end.

(** A match of [/\*\*(.+?)\*\*/] anchored at the head of [s]: the captured
    group and the text after the match. *)
Definition match_bold (s : jsstring) : option (jsstring * jsstring) :=
  match strip_prefix [Chr.star; Chr.star] s with
  | Some (c :: s') =>
      if isLineTerminator c then None
      else match find_close s' with
           | Some (g, r) => Some (c :: g, r)
           | None => None
           end
  | _ => None
  end.

(** [safe.replace(/\*\*(.+?)\*\*/g, '<strong>$1</strong>')]. *)
Definition replace_bold (s : jsstring) : jsstring :=
  replace_matches match_bold
    (fun g => lit "<strong>" ++ g ++ lit "</strong>") s.

(** The greedy class repetition [[^\s<]+] of the link pattern: the longest
    run of characters that are neither space nor [<], and what follows. *)
Fixpoint span_url (s : jsstring) : jsstring * jsstring :=
  match s with
  | [] => ([], [])
  | c :: s' =>
      if isSpace c || (c =? Chr.lt) then ([], s)
      else let '(u, r) := span_url s' in (c :: u, r)
  end.

(** A match of [/(https?:\/\/[^\s<]+)/] anchored at the head of [s]: the
    matched URL and the text after it. *)
Definition match_url (s : jsstring) : option (jsstring * jsstring) :=
  let scheme :=
    match strip_prefix (lit "https://") s with
    | Some r => Some (lit "https://", r)
    | None =>
        match strip_prefix (lit "http://") s with
        | Some r => Some (lit "http://", r)
        | None => None
        end
    end in
  match scheme with
  | Some (p, r) =>
      match span_url r with
      | ([], _) => None
      | (u, r') => Some (p ++ u, r')
      end
  | None => None
  end.

Definition anchor (url : jsstring) : jsstring :=
  lit "<a href=" ++ quoted url ++ lit " target=" ++ quoted (lit "_blank")
  ++ lit " rel=" ++ quoted (lit "noopener noreferrer") ++ lit ">"
  ++ url ++ lit "</a>".

(** [safe.replace(/(https?:\/\/[^\s<]+)/g, '<a href=... >$1</a>')]. *)
Definition replace_links (s : jsstring) : jsstring :=
  replace_matches match_url anchor s.

(** The glyphs wrapped for sizing, as UTF-16 code units, in source order:
    U+1F697, U+1F699, U+1F527, U+1F4CB, U+1F4E6, U+2705, U+274C,
    U+26A0 U+FE0F, U+1F4B0, U+1F4CA, U+1F4F1, U+1F4E7, U+1F389, U+2728. *)
Definition emojis : list jsstring :=
  [ [55357; 56983]; [55357; 56985]; [55357; 56615]; [55357; 56523];
    [55357; 56550]; [9989]; [10060]; [9888; 65039]; [55357; 56496];
    [55357; 56522]; [55357; 56561]; [55357; 56551]; [55356; 57225];
    [10024] ].

Definition emoji_span (e : jsstring) : jsstring :=
  lit "<span style=" ++ quoted (lit "font-size: 1.2em;") ++ lit ">"
  ++ e ++ lit "</span>".

(** The fourteen emoji replacements, applied one after the other. *)
Definition replace_emojis (s : jsstring) : jsstring :=
  fold_left (fun acc e => replace_lit e (emoji_span e) acc) emojis s.

(** The body of [_formatMessage] after the call to [_escapeHtml]: bold,
    line breaks, links, emoji, each applied to the result of the one
    before. *)
Definition format_replacements (safe : jsstring) : jsstring :=
  let safe := replace_bold safe in
  let safe := replace_char Chr.lf (lit "<br>") safe in
  let safe := replace_links safe in
  let safe := replace_emojis safe in
  safe.

(* ===================================================================== *)
(** ** Completions *)
(* ===================================================================== *)

Inductive JsError := TypeError | SyntaxError | NetworkError | DOMException.

(** The outcome of evaluating an expression or a call: a value, or an
    exception on its way to the nearest [catch]. *)
Inductive completion (A : Type) :=
| Normal (a : A)
| Throw (e : JsError).
Arguments Normal {A} a.
Arguments Throw {A} e.

#[global] Instance completion_ret : MRet completion := fun A a => Normal a.
#[global] Instance completion_bind : MBind completion := fun A B k c =>
  match c with
  | Normal a => k a
  | Throw e => Throw e
  end.
#[global] Instance completion_fmap : FMap completion := fun A B f c =>
  match c with
  | Normal a => Normal (f a)
  | Throw e => Throw e
  end.

Definition throws {A} (c : completion A) : bool :=
  match c with Normal _ => false | Throw _ => true end.

(** [xs.map(f)] for an [f] that may throw: elements are visited in order
    and the first exception ends the traversal. *)
Fixpoint mapC {A B} (f : A → completion B) (l : list A) : completion (list B) :=
  match l with
  | [] => Normal []
  | a :: l' => b ← f a; bs ← mapC f l'; Normal (b :: bs)
  end.

(* ===================================================================== *)
(** ** Values produced by [JSON.parse] *)
(* ===================================================================== *)

(** A property of an object is looked up by its first binding; [JUndefined]
    is what reading a missing property yields. *)
Inductive JsValue :=
| JUndefined
| JNull
| JBool (b : bool)
| JNum (x : spec_float)
| JStr (s : jsstring)
| JArr (elems : list JsValue)
| JObj (props : list (jsstring * JsValue)).

Fixpoint own_property (props : list (jsstring * JsValue)) (k : jsstring)
  : option JsValue :=
  match props with
  | [] => None
  | (k', v) :: rest => if bool_decide (k' = k) then Some v else own_property rest k
  end.

(** [v.k] for a property name [k] that no built-in prototype defines (all
    the names the renderer reads are such): reading from [null] or
    [undefined] throws, an object yields its own property or [undefined],
    every other value yields [undefined]. *)
Definition get (v : JsValue) (k : string) : completion JsValue :=
  match v with
  | JUndefined | JNull => Throw TypeError
  | JObj props => Normal (default JUndefined (own_property props (lit k)))
  | _ => Normal JUndefined
  end.

Definition isArray (v : JsValue) : bool :=
  match v with JArr _ => true | _ => false end.

(* ===================================================================== *)
(** ** Numbers *)
(* ===================================================================== *)

(** The parts of the runtime that are taken as given.  Of ECMAScript: the
    shortest round-trip decimal rendering of a Number, its rendering in
    radix 36 ([x.toString(36)]), the parsing of a string as a numeric
    literal, and Unicode lower-casing.  Of the browser: the HTML parser,
    as far as [document.getElementById] needs it.  For markup that was
    assigned to the [innerHTML] of an element, [removeElementById markup
    id] is [None] when the parsed content holds no element with that id,
    and otherwise the markup of the content once the first such element,
    in tree order, is removed. *)
Class Engine := {
  NumberToString : spec_float → jsstring;
  NumberToString36 : spec_float → jsstring;
  StringToNumber : jsstring → spec_float;
  toLowerCase : jsstring → jsstring;
  removeElementById : jsstring → jsstring → option jsstring;
}.

(** The real number a finite Number denotes.  Nothing below relies on the
    mantissa being normalised. *)
Definition SF2Q (x : spec_float) : option Q :=
  match x with
  | S754_zero _ => Some 0%Q
  | S754_finite s m e =>
      Some ((if s then -1 else 1) * inject_Z (Zpos m) * Qpower 2 e)%Q
  | _ => None
  end.

(** The integer a Number denotes, if it denotes one. *)
Definition SF2Z (x : spec_float) : option Z :=
  match x with
  | S754_zero _ => Some 0%Z
  | S754_finite s m e =>
      let sign := (if s then -1 else 1)%Z in
      if (0 <=? e)%Z then Some (sign * Zpos m * 2 ^ e)%Z
      else if (Zpos m mod 2 ^ (- e) =? 0)%Z
           then Some (sign * (Zpos m / 2 ^ (- e)))%Z
           else None
  | _ => None
  end.

(** A Number literal of the source with an integer value. *)
Definition Number_of_Z (z : Z) : spec_float :=
  match z with
  | Z0 => S754_zero false
  | Zpos p => S754_finite false p 0
  | Zneg p => S754_finite true p 0
  end.

(** Numbers on the extended real line, for comparisons. *)
Inductive extended := MinusInfinity | Finite (q : Q) | PlusInfinity.

Definition Number_ext (x : spec_float) : option extended :=
  match x with
  | S754_nan => None
  | S754_infinity true => Some MinusInfinity
  | S754_infinity false => Some PlusInfinity
  | _ => Finite <$> SF2Q x
  end.

(** [Number::lessThan]; the undefined result for NaN counts as false, as
    it does in a condition. *)
Definition Number_lessThan (x y : spec_float) : bool :=
  match Number_ext x, Number_ext y with
  | Some MinusInfinity, Some MinusInfinity => false
  | Some MinusInfinity, Some _ => true
  | Some (Finite p), Some (Finite q) => negb (Qle_bool q p)
  | Some (Finite _), Some PlusInfinity => true
  | _, _ => false
  end.

(** [Number::equal]. *)
Definition Number_equal (x y : spec_float) : bool :=
  match Number_ext x, Number_ext y with
  | Some MinusInfinity, Some MinusInfinity => true
  | Some PlusInfinity, Some PlusInfinity => true
  | Some (Finite p), Some (Finite q) => Qeq_bool p q
  | _, _ => false
  end.

(** [Number::toString(x, 10)].  An integer of magnitude at most 2^53 is
    its decimal digits; other finite values are left to the engine. *)
Definition Number_toString `{Engine} (x : spec_float) : jsstring :=
  match x with
  | S754_nan => lit "NaN"
  | S754_zero _ => lit "0"
  | S754_infinity false => lit "Infinity"
  | S754_infinity true => lit "-Infinity"
  | S754_finite _ _ _ =>
      match SF2Z x with
      | Some z => if (Z.abs z <=? 2 ^ 53)%Z then lit (pretty z) else NumberToString x
      | None => NumberToString x
      end
  end.

(** The digits of [Number.prototype.toFixed(2)] for the non-negative
    integer [n] of hundredths: at least three digits, a point before the
    last two. *)
Definition fixed2_digits (n : Z) : jsstring :=
  let m := lit (pretty n) in
  let m := replicate (3 - length m) 48 ++ m in
  let k := length m in
  take (k - 2) m ++ lit "." ++ drop (k - 2) m.

(** [x.toFixed(2)]. *)
Definition toFixed2 `{Engine} (x : spec_float) : jsstring :=
  match SF2Q x with
  | None => Number_toString x
  | Some q =>
      let s := if negb (Qle_bool 0 q) then lit "-" else [] in
      let a := Qabs q in
      if Qle_bool (inject_Z (10 ^ 21)) a
      then s ++ Number_toString (SFabs x)
      else s ++ fixed2_digits (Qfloor (a * 100 + (1 # 2)))
  end.

(* ===================================================================== *)
(** ** Conversions and operators on values *)
(* ===================================================================== *)

(** [ToBoolean]. *)
Definition truthy (v : JsValue) : bool :=
  match v with
  | JUndefined | JNull => false
  | JBool b => b
  | JNum (S754_zero _) | JNum S754_nan => false
  | JNum _ => true
  | JStr [] => false
  | JStr _ => true
  | JArr _ | JObj _ => true
  end.

(** [a || b]. *)
Definition or_else (a b : JsValue) : JsValue := if truthy a then a else b.

(** A parameter default, [f(x = d)]: only [undefined] is replaced. *)
Definition default_arg (v d : JsValue) : JsValue :=
  match v with JUndefined => d | _ => v end.

Definition has_own (props : list (jsstring * JsValue)) (k : string) : bool :=
  bool_decide (is_Some (own_property props (lit k))).

(** [ToString], as [String(v)] and template literals apply it.  An array
    joins its elements with commas, [null] and [undefined] elements
    contributing nothing.  An object has no callable method of its own, so
    an own [toString] property hides [Object.prototype.toString] and the
    conversion fails; otherwise the inherited method answers. *)
Fixpoint ToString `{Engine} (v : JsValue) : completion jsstring :=
  match v with
  | JUndefined => Normal (lit "undefined")
  | JNull => Normal (lit "null")
  | JBool true => Normal (lit "true")
  | JBool false => Normal (lit "false")
  | JNum x => Normal (Number_toString x)
  | JStr s => Normal s
  | JArr elems =>
      let element (e : JsValue) : completion jsstring :=
        match e with
        | JUndefined | JNull => Normal []
        | _ => ToString e
        end in
      (fix join (l : list JsValue) : completion jsstring :=
         match l with
         | [] => Normal []
         | [e] => element e
         | e :: l' => s ← element e; r ← join l'; Normal (s ++ lit "," ++ r)
         end) elems
  | JObj props =>
      if has_own props "toString" then Throw TypeError
      else Normal (lit "[object Object]")
  end.

(** [ToNumber], as [Number(v)] and the relational operators apply it. *)
Definition ToNumber `{Engine} (v : JsValue) : completion spec_float :=
  match v with
  | JUndefined => Normal S754_nan
  | JNull => Normal (S754_zero false)
  | JBool true => Normal (Number_of_Z 1)
  | JBool false => Normal (S754_zero false)
  | JNum x => Normal x
  | JStr s => Normal (StringToNumber s)
  | JArr _ | JObj _ => s ← ToString v; Normal (StringToNumber s)
  end.

(** [v === n] for a Number [n]. *)
Definition strict_equal_number (v : JsValue) (n : spec_float) : bool :=
  match v with
  | JNum x => Number_equal x n
  | _ => false
  end.

(** [v < n] for a Number [n]. *)
Definition less_than_number `{Engine} (v : JsValue) (n : spec_float)
  : completion bool :=
  x ← ToNumber v; Normal (Number_lessThan x n).

(** [v === s] for a string [s]. *)
Definition strict_equal_string (v : JsValue) (s : jsstring) : bool :=
  match v with
  | JStr t => bool_decide (t = s)
  | _ => false
  end.

(** [s.includes(sub)]. *)
Fixpoint includes (s sub : jsstring) : bool :=
  starts_with sub s ||
  match s with
  | [] => false
  | _ :: s' => includes s' sub
  end.

Fixpoint drop_while {A} (f : A → bool) (l : list A) : list A :=
  match l with
  | [] => []
  | a :: l' => if f a then drop_while f l' else l
  end.

(** [s.trim()]. *)
Definition trim (s : jsstring) : jsstring :=
  rev (drop_while isSpace (rev (drop_while isSpace s))).

(* ===================================================================== *)
(** ** [_escapeHtml] and [_formatMessage] *)
(* ===================================================================== *)

(** [_escapeHtml(s = '')]: [String(s)], then the replacements. *)
Definition _escapeHtml `{Engine} (s : JsValue) : completion jsstring :=
  str ← ToString (default_arg s (JStr [])); Normal (escape_replacements str).

(** [_formatMessage(content = '')]. *)
Definition _formatMessage `{Engine} (content : JsValue) : completion jsstring :=
  safe ← _escapeHtml (default_arg content (JStr []));
  let safe := replace_bold safe in
  let safe := replace_char Chr.lf (lit "<br>") safe in
  let safe := replace_links safe in
  let safe := replace_emojis safe in
  Normal safe.

(* ===================================================================== *)
(** ** Part cards *)
(* ===================================================================== *)

(** The interpolated pieces of one card of [_displayParts]. *)
Record CardView := {
  cv_price : jsstring;
  cv_stockClass : jsstring;
  cv_stockText : jsstring;
  cv_partName : jsstring;
  cv_reference : jsstring;
  cv_description : jsstring;
}.

(** [p.sales_price ? `${Number(p.sales_price).toFixed(2)} DZD`
                   : 'Price on request'] *)
Definition part_price `{Engine} (p : JsValue) : completion jsstring :=
  sales_price ← get p "sales_price";
  if truthy sales_price
  then x ← ToNumber sales_price; Normal (toFixed2 x ++ lit " DZD")
  else Normal (lit "Price on request").

(** [p.quantity_on_hand || 0] *)
Definition part_stock (p : JsValue) : completion JsValue :=
  q ← get p "quantity_on_hand"; Normal (or_else q (JNum (Number_of_Z 0))).

(** [stock === 0 ? 'out' : (stock < 5 ? 'low' : '')] *)
Definition stockClass_of `{Engine} (stock : JsValue) : completion jsstring :=
  if strict_equal_number stock (Number_of_Z 0) then Normal (lit "out")
  else low ← less_than_number stock (Number_of_Z 5);
       Normal (if low : bool then lit "low" else []).

(** [stock === 0 ? 'Out of stock' : `${stock} units available`] *)
Definition stockText_of `{Engine} (stock : JsValue) : completion jsstring :=
  if strict_equal_number stock (Number_of_Z 0) then Normal (lit "Out of stock")
  else s ← ToString stock; Normal (s ++ lit " units available").



(** A price string as the specification words it: the integer [n] of
    hundredths written as a decimal with two places, then the currency. *)
Definition decimal2 (n : Z) : jsstring :=
  lit (pretty (n / 100)%Z) ++ lit "."
  ++ [Z.to_N (48 + n / 10 mod 10); Z.to_N (48 + n mod 10)].

(** [n] hundredths is [q] rounded to two decimal places, halves upwards. *)
Definition rounds_to_hundredths (q : Q) (n : Z) : Prop :=
  (inject_Z n - (1 # 2) <= q * 100 ∧ q * 100 < inject_Z n + (1 # 2))%Q.

(** The body of the [forEach] callback of [_displayParts] up to the
    template, in the order of the source. *)
Definition part_view `{Engine} (p : JsValue) : completion CardView :=
  price ← part_price p;
  stock ← part_stock p;
  stockClass ← stockClass_of stock;
  stockText ← stockText_of stock;
  product_name ← get p "product_name";
  partName ← _escapeHtml (or_else product_name (JStr (lit "Spare Part")));
  internal_reference ← get p "internal_reference";
  reference ← _escapeHtml (or_else internal_reference (JStr []));
  product_description ← get p "product_description";
  description ← _escapeHtml (or_else product_description (JStr []));
  Normal {| cv_price := price; cv_stockClass := stockClass;
            cv_stockText := stockText; cv_partName := partName;
            cv_reference := reference; cv_description := description |}.

Definition nl : jsstring := [10].
Definition spaces (n : nat) : jsstring := replicate n 32.

Definition icon (cls : jsstring) : jsstring :=
  lit "<i class=" ++ quoted cls ++ lit "></i>".

(** The template assigned to [card.innerHTML]. *)
Definition card_innerHTML (c : CardView) : jsstring :=
  nl ++ spaces 16 ++ lit "<div class=" ++ quoted (lit "part-name") ++ lit ">"
     ++ cv_partName c ++ lit "</div>"
  ++ nl ++ spaces 16 ++ lit "<div class=" ++ quoted (lit "part-details") ++ lit ">"
  ++ nl ++ spaces 20
     ++ (match cv_reference c with
         | [] => []
         | _ => lit "<div>" ++ icon (lit "fas fa-barcode") ++ lit " "
                ++ cv_reference c ++ lit "</div>"
         end)
  ++ nl ++ spaces 20
     ++ (match cv_description c with
         | [] => []
         | _ => lit "<div style=" ++ quoted (lit "grid-column: 1/-1;") ++ lit ">"
                ++ icon (lit "fas fa-info-circle") ++ lit " "
                ++ cv_description c ++ lit "</div>"
         end)
  ++ nl ++ spaces 20 ++ lit "<div class=" ++ quoted (lit "part-price") ++ lit ">"
     ++ icon (lit "fas fa-money-bill") ++ lit " " ++ cv_price c ++ lit "</div>"
  ++ nl ++ spaces 20 ++ lit "<div class="
     ++ quoted (lit "part-stock " ++ cv_stockClass c) ++ lit ">"
     ++ icon (lit "fas fa-boxes") ++ lit " " ++ cv_stockText c ++ lit "</div>"
  ++ nl ++ spaces 16 ++ lit "</div>"
  ++ nl ++ spaces 12.

(** The text assigned to [more.innerHTML] for an array of [n] parts. *)
Definition more_innerHTML (n : nat) : jsstring :=
  icon (lit "fas fa-plus-circle") ++ lit " " ++ lit (pretty (n - 3)%nat)
  ++ lit " more results available".

(* ===================================================================== *)
(** ** Suggestion chips *)
(* ===================================================================== *)

(** The keyword chain of [_renderSuggestions]: first match wins. *)
Definition icon_keywords : list (string * string) :=
  [ ("search", "fas fa-search"); ("track", "fas fa-truck");
    ("report", "fas fa-chart-line"); ("yes", "fas fa-check");
    ("no", "fas fa-times"); ("skip", "fas fa-forward");
    ("order", "fas fa-shopping-cart"); ("continue", "fas fa-arrow-right");
    ("reference", "fas fa-barcode"); ("part", "fas fa-cog") ]%string.

Fixpoint first_icon (lower : jsstring) (table : list (string * string)) : string :=
  match table with
  | [] => "fas fa-lightbulb"%string
  | (keyword, cls) :: rest =>
      if includes lower (lit keyword) then cls else first_icon lower rest
  end.

(** [label.toLowerCase()]: a method call on the element, which is a
    [TypeError] on everything that is not a string. *)
Definition label_toLowerCase `{Engine} (label : JsValue) : completion jsstring :=
  match label with
  | JStr s => Normal (toLowerCase s)
  | _ => Throw TypeError
  end.

(** A chip: the markup assigned to [btn.innerHTML] and the label its click
    handler captures. *)
Record SuggestionBtn := {
  btn_innerHTML : jsstring;
  btn_label : jsstring;
}.

(** The body of the [forEach] callback of [_renderSuggestions]. *)
Definition suggestion_button `{Engine} (label : JsValue) : completion SuggestionBtn :=
  lower ← label_toLowerCase label;
  let cls := first_icon lower icon_keywords in
  text ← ToString label;
  Normal {| btn_innerHTML := icon (lit cls) ++ lit " " ++ text;
            btn_label := text |}.

(* ===================================================================== *)
(** ** The page: message log, notifications, network *)
(* ===================================================================== *)

Inductive Role := user | bot.

Inductive PartsChild :=
| PartCard (innerHTML : jsstring)
| MoreResults (innerHTML : jsstring).

(** The children of [#messages], each with the markup assigned to it. *)
Inductive Node :=
| Message (role : Role) (innerHTML : jsstring)
| TypingIndicator
| PartsList (children : list PartsChild)
| Suggestions (buttons : list SuggestionBtn)
| WelcomeMessage.

Record Toast := { toast_type : jsstring; toast_text : jsstring }.

Record Request := {
  req_url : jsstring;
  req_method : jsstring;
  req_headers : list (jsstring * jsstring);
  req_body : jsstring;
}.

Inductive LogEntry :=
| LogServerError (status : N) (errorText : jsstring)
| LogNetworkError (err : JsError)
| LogUnhandledRejection (err : JsError).

(** A continuation waiting for a promise or a timer: an invocation of
    [sendMessage] at one of its [await]s, or [_showWelcomeMessage] at one
    of its delays. *)
Inductive Suspended :=
| AwaitFetch
| AwaitText (status : N)
| AwaitJson
| AwaitWelcome
| AwaitGreeting
| AwaitChips.

(** The instance fields the exchange uses, the controls it reads and
    writes, and what it has sent and shown so far. *)
Record Widget := {
  hostname : jsstring;
  sessionId : jsstring;
  messageCount : N;
  isTyping : bool;
  sendBtn_disabled : bool;
  messageInput_value : jsstring;
  messages : list Node;
  toasts : list Toast;
  console : list LogEntry;
  requests : list Request;
  suspended : list Suspended;
}.

Definition set_isTyping (b : bool) (w : Widget) : Widget :=
  {| hostname := hostname w; sessionId := sessionId w;
     messageCount := messageCount w; isTyping := b;
     sendBtn_disabled := sendBtn_disabled w;
     messageInput_value := messageInput_value w; messages := messages w;
     toasts := toasts w; console := console w; requests := requests w;
     suspended := suspended w |}.

Definition set_sendBtn_disabled (b : bool) (w : Widget) : Widget :=
  {| hostname := hostname w; sessionId := sessionId w;
     messageCount := messageCount w; isTyping := isTyping w;
     sendBtn_disabled := b;
     messageInput_value := messageInput_value w; messages := messages w;
     toasts := toasts w; console := console w; requests := requests w;
     suspended := suspended w |}.

Definition set_messageInput_value (s : jsstring) (w : Widget) : Widget :=
  {| hostname := hostname w; sessionId := sessionId w;
     messageCount := messageCount w; isTyping := isTyping w;
     sendBtn_disabled := sendBtn_disabled w;
     messageInput_value := s; messages := messages w;
     toasts := toasts w; console := console w; requests := requests w;
     suspended := suspended w |}.

Definition set_messages (l : list Node) (w : Widget) : Widget :=
  {| hostname := hostname w; sessionId := sessionId w;
     messageCount := messageCount w; isTyping := isTyping w;
     sendBtn_disabled := sendBtn_disabled w;
     messageInput_value := messageInput_value w; messages := l;
     toasts := toasts w; console := console w; requests := requests w;
     suspended := suspended w |}.

Definition set_suspended (l : list Suspended) (w : Widget) : Widget :=
  {| hostname := hostname w; sessionId := sessionId w;
     messageCount := messageCount w; isTyping := isTyping w;
     sendBtn_disabled := sendBtn_disabled w;
     messageInput_value := messageInput_value w; messages := messages w;
     toasts := toasts w; console := console w; requests := requests w;
     suspended := l |}.

(** [this.messageCount++] *)
Definition increment_messageCount (w : Widget) : Widget :=
  {| hostname := hostname w; sessionId := sessionId w;
     messageCount := messageCount w + 1; isTyping := isTyping w;
     sendBtn_disabled := sendBtn_disabled w;
     messageInput_value := messageInput_value w; messages := messages w;
     toasts := toasts w; console := console w; requests := requests w;
     suspended := suspended w |}.

(** [this.messagesContainer.appendChild(el)] *)
Definition appendChild (el : Node) (w : Widget) : Widget :=
  set_messages (messages w ++ [el]) w.

Definition console_log (e : LogEntry) (w : Widget) : Widget :=
  {| hostname := hostname w; sessionId := sessionId w;
     messageCount := messageCount w; isTyping := isTyping w;
     sendBtn_disabled := sendBtn_disabled w;
     messageInput_value := messageInput_value w; messages := messages w;
     toasts := toasts w; console := console w ++ [e]; requests := requests w;
     suspended := suspended w |}.

(** [_showToast(message, type)]: the toast is appended to the document
    body; the timers that fade it out are not part of the model. *)
Definition _showToast (message type : jsstring) (w : Widget) : Widget :=
  {| hostname := hostname w; sessionId := sessionId w;
     messageCount := messageCount w; isTyping := isTyping w;
     sendBtn_disabled := sendBtn_disabled w;
     messageInput_value := messageInput_value w; messages := messages w;
     toasts := toasts w ++ [{| toast_type := type; toast_text := message |}];
     console := console w; requests := requests w;
     suspended := suspended w |}.

(** [BASE_URL], chosen by [location.hostname]. *)
Definition BASE_URL (host : jsstring) : jsstring :=
  if bool_decide (host = lit "localhost") || bool_decide (host = lit "127.0.0.1")
  then lit "http://127.0.0.1:5000"
  else lit "https://your-production-server.com".

Definition CHAT_ENDPOINT (host : jsstring) : jsstring :=
  BASE_URL host ++ lit "/api/chat".

(** [fetch(url, init)]: the request leaves and the caller suspends. *)
Definition fetch (r : Request) (w : Widget) : Widget :=
  {| hostname := hostname w; sessionId := sessionId w;
     messageCount := messageCount w; isTyping := isTyping w;
     sendBtn_disabled := sendBtn_disabled w;
     messageInput_value := messageInput_value w; messages := messages w;
     toasts := toasts w; console := console w;
     requests := requests w ++ [r];
     suspended := suspended w ++ [AwaitFetch] |}.

(* ===================================================================== *)
(** ** [JSON.stringify] of the request payload *)
(* ===================================================================== *)

Definition hex_digit (n : N) : N := if n <? 10 then 48 + n else 87 + n.

(** [UnicodeEscape]: a backslash, [u], and four lower-case hex digits. *)
Definition UnicodeEscape (c : N) : jsstring :=
  lit "\u" ++ [hex_digit (c / 4096 mod 16); hex_digit (c / 256 mod 16);
               hex_digit (c / 16 mod 16); hex_digit (c mod 16)].

Definition isLeadingSurrogate (c : N) : bool := (55296 <=? c) && (c <=? 56319).
Definition isTrailingSurrogate (c : N) : bool := (56320 <=? c) && (c <=? 57343).

(** The characters of [QuoteJSONString] between the quotes: the seven
    short escapes, a Unicode escape for other control characters and for
    unpaired surrogates, everything else as it is. *)
Fixpoint quote_json_chars (s : jsstring) : jsstring :=
  match s with
  | [] => []
  | c :: s' =>
      if c =? 8 then lit "\b" ++ quote_json_chars s'
      else if c =? 9 then lit "\t" ++ quote_json_chars s'
      else if c =? 10 then lit "\n" ++ quote_json_chars s'
      else if c =? 12 then lit "\f" ++ quote_json_chars s'
      else if c =? 13 then lit "\r" ++ quote_json_chars s'
      else if c =? 34 then lit "\" ++ dq ++ quote_json_chars s'
      else if c =? 92 then lit "\\" ++ quote_json_chars s'
      else if c <? 32 then UnicodeEscape c ++ quote_json_chars s'
      else if isLeadingSurrogate c then
        match s' with
        | d :: s'' =>
            if isTrailingSurrogate d then c :: d :: quote_json_chars s''
            else UnicodeEscape c ++ quote_json_chars s'
        | [] => UnicodeEscape c
        end
      else if isTrailingSurrogate c then UnicodeEscape c ++ quote_json_chars s'
      else c :: quote_json_chars s'
  end.

Definition QuoteJSONString (s : jsstring) : jsstring :=
  quoted (quote_json_chars s).

(** [JSON.stringify({ message: raw, sessionId: this.sessionId })] *)
Definition stringify_payload (message sid : jsstring) : jsstring :=
  lit "{" ++ quoted (lit "message") ++ lit ":" ++ QuoteJSONString message
  ++ lit "," ++ quoted (lit "sessionId") ++ lit ":" ++ QuoteJSONString sid
  ++ lit "}".

(* ===================================================================== *)
(** ** Methods of [IMOBOTChat] *)
(* ===================================================================== *)

(** A method body: it updates the widget and completes normally or
    throws; what it did before throwing stays done. *)
Definition Action (A : Type) : Type := Widget → Widget * completion A.

#[global] Instance Action_ret : MRet Action := fun A a w => (w, Normal a).
#[global] Instance Action_bind : MBind Action := fun A B k m w =>
  match m w with
  | (w', Normal a) => k a w'
  | (w', Throw e) => (w', Throw e)
  end.

(** An expression evaluated inside a method. *)
Definition eval {A} (c : completion A) : Action A := fun w => (w, c).

(** A statement that cannot throw. *)
Definition exec (f : Widget → Widget) : Action unit := fun w => (f w, Normal tt).

Definition when (b : bool) (a : Action unit) : Action unit :=
  if b then a else mret tt.

Definition _createMessageElement (role : Role) (htmlContent : jsstring) : Node :=
  Message role htmlContent.

(** [_addMessage(role, text)]; scrolling is not part of the model. *)
Definition _addMessage `{Engine} (role : Role) (text : JsValue) : Action unit :=
  formatted ← eval (_formatMessage (or_else text (JStr [])));
  exec (appendChild (_createMessageElement role formatted)).

Definition _showTyping (w : Widget) : Widget :=
  if isTyping w then w
  else appendChild TypingIndicator
         (set_sendBtn_disabled true (set_isTyping true w)).

(** The first element of a list that [f] changes, changed. *)
Fixpoint change_first {A} (f : A → option A) (l : list A) : option (list A) :=
  match l with
  | [] => None
  | a :: l' =>
      match f a with
      | Some a' => Some (a' :: l')
      | None => cons a <$> change_first f l'
      end
  end.

(** The id [_showTyping] gives the typing indicator. *)
Definition typing_id : jsstring := lit "typing-indicator".

(** Markup built from a response reaches [innerHTML] unescaped in two
    places: the stock line of a part card and the label of a chip.  So a
    card or a chip may hold an element with the id of the typing
    indicator.  The functions below give the element's content once the
    first such element is removed, [None] when there is none.  The markup
    of a message is escaped text and the tags of [_formatMessage], the
    overflow notice is a number in fixed markup and the welcome card is
    fixed markup: none of them has an element with an id. *)
Definition card_without_typing `{Engine} (c : PartsChild) : option PartsChild :=
  match c with
  | PartCard innerHTML => PartCard <$> removeElementById innerHTML typing_id
  | MoreResults _ => None
  end.

Definition chip_without_typing `{Engine} (b : SuggestionBtn)
  : option SuggestionBtn :=
  innerHTML ← removeElementById (btn_innerHTML b) typing_id;
  Some {| btn_innerHTML := innerHTML; btn_label := btn_label b |}.

Definition node_without_typing `{Engine} (n : Node) : option Node :=
  match n with
  | PartsList children => PartsList <$> change_first card_without_typing children
  | Suggestions buttons => Suggestions <$> change_first chip_without_typing buttons
  | Message _ _ | TypingIndicator | WelcomeMessage => None
  end.

(** [document.getElementById('typing-indicator')] followed by [remove()]
    when an element was found: the first element with that id, in tree
    order, leaves the document.  In the log that is the typing indicator
    itself or, when a card or a chip before it holds an element with the
    same id, that element.  The page around the log is taken to hold no
    element with this id. *)
Fixpoint remove_typing `{Engine} (l : list Node) : list Node :=
  match l with
  | [] => []
  | TypingIndicator :: l' => l'
  | n :: l' =>
      match node_without_typing n with
      | Some n' => n' :: l'
      | None => n :: remove_typing l'
      end
  end.

Definition _hideTyping `{Engine} (w : Widget) : Widget :=
  let w := set_isTyping false w in
  let w := set_sendBtn_disabled false w in
  set_messages (remove_typing (messages w)) w.

(** [_displayParts(parts)] for the elements of the array it is given. *)
Definition _displayParts `{Engine} (parts : list JsValue) : Action unit :=
  match parts with
  | [] => mret tt
  | _ =>
      cards ← eval (mapC (fun p => v ← part_view p;
                                   Normal (PartCard (card_innerHTML v)))
                         (take 3 parts));
      let more := if (3 <? length parts)%nat
                  then [MoreResults (more_innerHTML (length parts))]
                  else [] in
      exec (appendChild (PartsList (cards ++ more)))
  end.

(** [_renderSuggestions(list = [])] *)
Definition _renderSuggestions `{Engine} (list : JsValue) : Action unit :=
  match default_arg list (JArr []) with
  | JArr ((_ :: _) as labels) =>
      buttons ← eval (mapC suggestion_button labels);
      exec (appendChild (Suggestions buttons))
  | _ => mret tt
  end.

Definition fallback_text : jsstring :=
  lit "I did not understand the response from the server. Please try rephrasing.".

Definition array_nonempty (v : JsValue) : bool :=
  match v with JArr (_ :: _) => true | _ => false end.

Definition elements (v : JsValue) : list JsValue :=
  match v with JArr l => l | _ => [] end.

(** [_handleServerResponse(data)] *)
Definition _handleServerResponse `{Engine} (data : JsValue) : Action unit :=
  reply ← eval (get data "reply");
  when (truthy reply) (_addMessage bot reply);;
  type ← eval (get data "type");
  (if strict_equal_string type (lit "parts")
   then parts ← eval (get data "data");
        when (isArray parts) (_displayParts (elements parts))
   else mret tt);;
  suggestions ← eval (get data "suggestions");
  when (array_nonempty suggestions) (_renderSuggestions suggestions);;
  reply ← eval (get data "reply");
  (if negb (truthy reply)
   then d ← eval (get data "data");
        when (negb (truthy d)) (_addMessage bot (JStr fallback_text))
   else mret tt);;
  exec increment_messageCount.

(** The [catch] block of [sendMessage]. *)
Definition catch_block `{Engine} (err : JsError) (w : Widget) : Widget :=
  let w := _hideTyping w in
  let w := console_log (LogNetworkError err) w in
  match _addMessage bot (JStr ([55357; 56588] ++ lit
          " Connection error. Please check if the backend server is running on port 5000.")) w with
  | (w, Throw e) => console_log (LogUnhandledRejection e) w
  | (w, Normal _) =>
      _showToast (lit "Network error - Is the backend running?") (lit "error") w
  end.

(** [sendMessage()], from the call to the suspension at [await fetch]. *)
Definition sendMessage `{Engine} (w : Widget) : Widget :=
  let raw := trim (messageInput_value w) in
  if bool_decide (raw = []) || isTyping w then w
  else
    match _addMessage user (JStr raw) w with
    | (w, Throw e) => console_log (LogUnhandledRejection e) w
    | (w, Normal _) =>
        let w := set_messageInput_value [] w in
        let w := increment_messageCount w in
        let w := _showTyping w in
        fetch {| req_url := CHAT_ENDPOINT (hostname w);
                 req_method := lit "POST";
                 req_headers := [ (lit "Content-Type", lit "application/json");
                                  (lit "Accept", lit "application/json") ];
                 req_body := stringify_payload raw (sessionId w) |} w
    end.

(** [res.ok] *)
Definition res_ok (status : N) : bool := (200 <=? status) && (status <=? 299).

(** The invocation resumes after [await fetch(...)] with the response
    (its status) or with the rejection. *)
Definition after_fetch `{Engine} (res : completion N) (w : Widget) : Widget :=
  match res with
  | Throw err => catch_block err w
  | Normal status =>
      let w := _hideTyping w in
      if negb (res_ok status)
      then set_suspended (suspended w ++ [AwaitText status]) w
      else set_suspended (suspended w ++ [AwaitJson]) w
  end.

(** The invocation resumes after [await res.text().catch(() => '')]. *)
Definition after_text `{Engine} (status : N) (body : completion jsstring)
    (w : Widget) : Widget :=
  let errorText := match body with Normal t => t | Throw _ => [] end in
  let w := console_log (LogServerError status errorText) w in
  match _addMessage bot (JStr ([9888; 65039] ++ lit " Server error ("
                               ++ lit (pretty status)
                               ++ lit "). Please try again.")) w with
  | (w, Throw e) => catch_block e w
  | (w, Normal _) =>
      _showToast (lit "Server error: " ++ lit (pretty status)) (lit "error") w
  end.

(** The invocation resumes after [await res.json()]. *)
Definition after_json `{Engine} (data : completion JsValue) (w : Widget) : Widget :=
  match data with
  | Throw err => catch_block err w
  | Normal data =>
      match _handleServerResponse data w with
      | (w, Throw err) => catch_block err w
      | (w, Normal _) => w
      end
  end.

(** The three timers of [_showWelcomeMessage]. *)
Definition after_welcome_delay (w : Widget) : Widget :=
  let w := appendChild WelcomeMessage w in
  set_suspended (suspended w ++ [AwaitGreeting]) w.

Definition greeting_text : jsstring :=
  lit "Hello! " ++ [55357; 56395]
  ++ lit " I'm IMOBOT, your personal spare parts assistant." ++ nl ++ nl
  ++ lit "How can I help you today?".

Definition after_greeting_delay `{Engine} (w : Widget) : Widget :=
  let w := fst (_addMessage bot (JStr greeting_text) w) in
  set_suspended (suspended w ++ [AwaitChips]) w.

Definition after_chips_delay `{Engine} (w : Widget) : Widget :=
  fst (_renderSuggestions
         (JArr [ JStr (lit "Search Parts");
                 JStr (lit "Track Order (Coming Soon)");
                 JStr (lit "Daily Report (Coming Soon)") ]) w).

(** What reading [messageInput.value] gives after a text was typed or
    assigned: the text with its newlines normalised, as a [textarea]
    does it.  Every CR LF pair becomes LF, then every CR left becomes
    LF. *)
Fixpoint normalize_newlines (s : jsstring) : jsstring :=
  match s with
  | [] => []
  | c :: s' =>
      if c =? 13 then
        match s' with
        | d :: s'' =>
            if d =? 10 then 10 :: normalize_newlines s''
            else 10 :: normalize_newlines s'
        | [] => [10]
        end
      else c :: normalize_newlines s'
  end.

(** What can happen to the page, one run-to-completion turn each. *)
Inductive Event :=
| Input (text : jsstring)
| Send
| ClickSuggestion (label : jsstring)
| FetchSettled (i : nat) (res : completion N)
| TextSettled (i : nat) (body : completion jsstring)
| JsonSettled (i : nat) (data : completion JsValue)
| TimerFired (i : nat).

(** The task the [i]-th suspended continuation runs when it is resumed,
    if the event is the one it waits for. *)
Definition resume `{Engine} (ev : Event) (k : Suspended) : option (Widget → Widget) :=
  match ev, k with
  | FetchSettled _ res, AwaitFetch => Some (after_fetch res)
  | TextSettled _ body, AwaitText status => Some (after_text status body)
  | JsonSettled _ data, AwaitJson => Some (after_json data)
  | TimerFired _, AwaitWelcome => Some after_welcome_delay
  | TimerFired _, AwaitGreeting => Some after_greeting_delay
  | TimerFired _, AwaitChips => Some after_chips_delay
  | _, _ => None
  end.

Definition resumed (ev : Event) : option nat :=
  match ev with
  | FetchSettled i _ | TextSettled i _ | JsonSettled i _ | TimerFired i => Some i
  | _ => None
  end.

(** One turn.  The user types, sends, or clicks a chip (the handler
    assigns the label to the textarea and calls [sendMessage]); or a
    promise or timer settles and the continuation waiting for it runs.
    [messageInput_value] is what [messageInput.value] reads, so a typed
    or assigned text is stored with its newlines normalised.
    [None] when no continuation waits for the event. *)
Definition step `{Engine} (ev : Event) (w : Widget) : option Widget :=
  match ev with
  | Input text => Some (set_messageInput_value (normalize_newlines text) w)
  | Send => Some (sendMessage w)
  | ClickSuggestion label =>
      Some (sendMessage (set_messageInput_value (normalize_newlines label) w))
  | _ =>
      i ← resumed ev;
      k ← suspended w !! i;
      task ← resume ev k;
      Some (task (set_suspended (delete i (suspended w)) w))
  end.

Fixpoint run `{Engine} (evs : list Event) (w : Widget) : option Widget :=
  match evs with
  | [] => Some w
  | ev :: evs' => w' ← step ev w; run evs' w'
  end.

(** The widget as the constructor leaves it. *)
Definition new_IMOBOTChat (host sid : jsstring) : Widget :=
  {| hostname := host; sessionId := sid; messageCount := 0;
     isTyping := false; sendBtn_disabled := false;
     messageInput_value := []; messages := []; toasts := []; console := [];
     requests := []; suspended := [AwaitWelcome] |}.

(* ===================================================================== *)
(** ** The session identifier *)
(* ===================================================================== *)

(** [localStorage]: its items, and whether reading and writing succeed
    (either may throw, in private mode or over quota). *)
Record Storage := {
  ls_items : gmap jsstring jsstring;
  ls_readable : bool;
  ls_writable : bool;
}.

Definition getItem (st : Storage) (k : jsstring) : completion (option jsstring) :=
  if ls_readable st then Normal (ls_items st !! k) else Throw DOMException.

Definition setItem (st : Storage) (k v : jsstring) : Storage * completion unit :=
  if ls_writable st
  then ({| ls_items := <[k := v]> (ls_items st);
           ls_readable := ls_readable st; ls_writable := ls_writable st |},
        Normal tt)
  else (st, Throw DOMException).

Definition sessionKey : jsstring := lit "imobot_session_id".

(** [s.slice(2, 10)] *)
Definition slice_2_10 (s : jsstring) : jsstring := take 8 (drop 2 s).

(** What the call leaves behind: the identifier returned, the storage,
    and whether [console.warn] reported a failed read. *)
Record SessionResult := {
  sr_id : jsstring;
  sr_storage : Storage;
  sr_warned : bool;
}.

(** [_restoreOrCreateSessionId()], given the values [Date.now()] and
    [Math.random()] return if they are called. *)
Definition _restoreOrCreateSessionId `{Engine}
    (now : Z) (random : spec_float) (st : Storage) : SessionResult :=
  let create (warned : bool) :=
    let newId := lit "session_" ++ Number_toString (Number_of_Z now) ++ lit "_"
                 ++ slice_2_10 (NumberToString36 random) in
    {| sr_id := newId; sr_storage := fst (setItem st sessionKey newId);
       sr_warned := warned |} in
  match getItem st sessionKey with
  | Normal (Some ((_ :: _) as stored)) =>
      {| sr_id := stored; sr_storage := st; sr_warned := false |}
  | Normal _ => create false
  | Throw _ => create true
  end.

(* ===================================================================== *)
(** ** An engine for the examples *)
(* ===================================================================== *)

(** The theorems below hold for every [Engine].  To evaluate the
    definitions on concrete inputs one engine is fixed here.  It prints a
    Number by its exact positional expansion, which is what ECMAScript
    prints whenever that expansion is short; it reads a string of decimal
    digits as the integer it denotes and any other non-empty string as NaN;
    it lower-cases the letters A to Z; of the elements with an id it
    finds those written as [<b id=...>] up to the next [</b>], which is
    what the examples use. *)

Definition digit_char (d : Z) : N :=
  if (d <? 10)%Z then Z.to_N (48 + d) else Z.to_N (87 + d).

Fixpoint int_digits (fuel : nat) (radix n : Z) (acc : jsstring) : jsstring :=
  match fuel with
  | O => acc
  | S fuel' =>
      let acc := digit_char (n mod radix) :: acc in
      if (n / radix =? 0)%Z then acc else int_digits fuel' radix (n / radix) acc
  end.

Fixpoint frac_digits (fuel : nat) (radix num den : Z) : jsstring :=
  match fuel with
  | O => []
  | S fuel' =>
      if (num =? 0)%Z then []
      else digit_char (num * radix / den)
           :: frac_digits fuel' radix (num * radix mod den) den
  end.

Definition expansion (radix : Z) (x : spec_float) : jsstring :=
  match x with
  | S754_finite s m e =>
      let den := (2 ^ Z.max 0 (- e))%Z in
      let num := (Zpos m * 2 ^ Z.max 0 e)%Z in
      (if s then lit "-" else [])
      ++ int_digits (S (Z.to_nat (Z.log2 (num / den)))) radix (num / den) []
      ++ (if (num mod den =? 0)%Z then []
          else lit "." ++ frac_digits (S (Z.to_nat (- e))) radix (num mod den) den)
  | S754_zero _ => lit "0"
  | S754_nan => lit "NaN"
  | S754_infinity s => (if s then lit "-" else []) ++ lit "Infinity"
  end.

Fixpoint decimal_value (s : jsstring) (acc : Z) : option Z :=
  match s with
  | [] => Some acc
  | c :: s' =>
      if (48 <=? c) && (c <=? 57)
      then decimal_value s' (10 * acc + Z.of_N (c - 48))%Z
      else None
  end.

(** What follows the first occurrence of [pat] in [s]; nothing when there
    is none. *)
Fixpoint drop_through (pat s : jsstring) : jsstring :=
  match strip_prefix pat s with
  | Some r => r
  | None => match s with [] => [] | _ :: s' => drop_through pat s' end
  end.

(** [s] without the first span that opens with [opening] and runs
    through the next [closing], or to the end when it is never closed. *)
Fixpoint cut_element (opening closing s : jsstring) : option jsstring :=
  match strip_prefix opening s with
  | Some r => Some (drop_through closing r)
  | None =>
      match s with
      | [] => None
      | c :: s' => cons c <$> cut_element opening closing s'
      end
  end.

Definition example_engine : Engine :=
  {| NumberToString := expansion 10;
     NumberToString36 := expansion 36;
     StringToNumber := fun s =>
       match decimal_value (trim s) 0%Z with
       | Some z => Number_of_Z z
       | None => S754_nan
       end;
     toLowerCase := map (fun c => if (65 <=? c) && (c <=? 90) then c + 32 else c);
     removeElementById := fun markup id =>
       cut_element (lit "<b id=" ++ quoted id ++ lit ">") (lit "</b>") markup |}.

(* ===================================================================== *)
(** ** Responses the renderer completes on *)
(* ===================================================================== *)

(** [v.k], with [undefined] where the read would throw. *)
Definition field (v : JsValue) (k : string) : JsValue :=
  match get v k with Normal x => x | Throw _ => JUndefined end.

(** A value [String(v)] succeeds on. *)
Definition stringifiable `{Engine} (v : JsValue) : bool :=
  negb (throws (ToString v)).

Definition part_fields : list string :=
  [ "sales_price"; "quantity_on_hand"; "product_name"; "internal_reference";
    "product_description" ]%string.

(** A part the card template completes on: neither [null] nor
    [undefined], and each field the template reads converts to a string. *)
Definition renderable_part `{Engine} (p : JsValue) : bool :=
  match p with
  | JUndefined | JNull => false
  | _ => forallb (fun k => stringifiable (field p k)) part_fields
  end.

Definition is_string (v : JsValue) : bool :=
  match v with JStr _ => true | _ => false end.

(** A response [_handleServerResponse] completes on: a value one can read
    properties of, whose [reply] converts to a string, whose first three
    parts (when parts are displayed) are renderable, and whose suggestions
    (when it is an array) are strings. *)
Definition renders `{Engine} (data : JsValue) : bool :=
  match data with
  | JUndefined | JNull => false
  | _ =>
      stringifiable (field data "reply")
      && (if strict_equal_string (field data "type") (lit "parts")
          then forallb renderable_part (take 3 (elements (field data "data")))
          else true)
      && forallb is_string (elements (field data "suggestions"))
  end.

(** A method body that completes normally from every state. *)
Definition completes (a : Action unit) : Prop :=
  ∀ w, ∃ w', a w = (w', Normal tt).

(** What the busy flag stands for: while it is set a request is awaiting
    its response, and the send button is disabled exactly then. *)
Definition busy_invariant (w : Widget) : Prop :=
  (isTyping w = true → AwaitFetch ∈ suspended w)
  ∧ sendBtn_disabled w = isTyping w.

(** Two states with the same busy flag, button, continuations and
    requests. *)
Definition same_control (w w' : Widget) : Prop :=
  isTyping w' = isTyping w
  ∧ sendBtn_disabled w' = sendBtn_disabled w
  ∧ suspended w' = suspended w
  ∧ requests w' = requests w.

(** A method body that touches neither of them, however it ends. *)
Definition frames {A} (a : Action A) : Prop :=
  ∀ w, same_control w (a w).1.

(** The result either kept the busy flag and the button or cleared
    both; continuations and requests are as before. *)
Definition keeps_or_clears (w w' : Widget) : Prop :=
  suspended w' = suspended w
  ∧ requests w' = requests w
  ∧ ((isTyping w' = isTyping w ∧ sendBtn_disabled w' = sendBtn_disabled w)
     ∨ (isTyping w' = false ∧ sendBtn_disabled w' = false)).

(** The children of a parts list, by kind. *)
Definition cards_of (children : list PartsChild) : list jsstring :=
  omap (fun c => match c with PartCard h => Some h | _ => None end) children.

Definition notices_of (children : list PartsChild) : list jsstring :=
  omap (fun c => match c with MoreResults h => Some h | _ => None end) children.

(* ===================================================================== *)
(** ** Values for the examples *)
(* ===================================================================== *)

Definition js_object (l : list (string * JsValue)) : JsValue :=
  JObj (map (fun kv => (lit kv.1, kv.2)) l).
Definition js_number (z : Z) : JsValue := JNum (Number_of_Z z).
Definition js_string (s : string) : JsValue := JStr (lit s).

(** A page on the development host, before anything was typed. *)
Definition fresh_widget : Widget :=
  new_IMOBOTChat (lit "localhost") (lit "session_1700000000000_k3j9x2ab").

Definition four_parts : list JsValue :=
  [ js_object [("product_name", js_string "Brake pad <front>");
               ("sales_price", js_number 1200); ("quantity_on_hand", js_number 4)];
    js_object [("product_name", js_string "Oil filter")];
    js_object [];
    js_object [("internal_reference", js_string "REF-4")] ].

(** A full response: a reply, parts and suggestions. *)
Definition full_response : JsValue :=
  js_object [ ("reply", js_string "Found **4** parts");
              ("type", js_string "parts");
              ("data", JArr four_parts);
              ("suggestions", JArr [js_string "Order now"; js_string "Search again"]) ].

(** A response whose parts array holds [null]. *)
Definition response_with_null_part : JsValue :=
  js_object [ ("reply", js_string "Found it");
              ("type", js_string "parts");
              ("data", JArr [JNull]) ].

(** A response with neither [reply] nor [data], whose suggestions array
    holds [null]. *)
Definition response_with_null_suggestion : JsValue :=
  js_object [ ("suggestions", JArr [JNull]) ].

(** The page with the text of the specification's example typed in. *)
Definition typed_M3_bearing : Widget :=
  set_messageInput_value (lit "  M3 bearing  ") fresh_widget.

(** Three sends.  The first response arrives and its body is awaited; the
    second request leaves; reading the first body fails, which runs the
    error handler; the third request leaves while the second is still
    awaiting its response. *)
Definition overlapping_sends : list Event :=
  [ Input (lit "first"); Send; FetchSettled 1 (Normal 200);
    Input (lit "second"); Send; JsonSettled 1 (Throw SyntaxError);
    Input (lit "third"); Send ].

(** The Number 0.5 as a double: 2^52 * 2^-53. *)
Definition one_half : spec_float := S754_finite false 4503599627370496 (-53).

(** A storage that holds nothing and accepts writes. *)
Definition empty_storage : Storage :=
  {| ls_items := ∅; ls_readable := true; ls_writable := true |}.

(** A label that carries markup. *)
Definition markup_label : jsstring := lit "<img src=x onerror=alert(1)>".

(** A part whose stock is a string with markup. *)
Definition part_with_markup_stock : JsValue :=
  JObj [ (lit "product_name", JStr (lit "Wiper blade"));
         (lit "quantity_on_hand", JStr markup_label) ].

(** The Number 12.5, that is 25 * 2^-1. *)
Definition twelve_and_a_half : spec_float := S754_finite false 25 (-1).

(* ===================================================================== *)
(** ** Further notions used by the properties below *)
(* ===================================================================== *)

(** One of the five characters [_escapeHtml] replaces. *)
Definition needs_escaping (c : N) : bool := (c =? Chr.amp) || isHtmlSpecial c.

(** Text [_formatMessage] has nothing to do on: none of the five escaped
    characters, no line feed, no code unit from U+26A0 upwards (which
    excludes every wrapped glyph), no two asterisks in a row and no
    [http]. *)
Definition plain_text (s : jsstring) : bool :=
  forallb (fun c => negb (needs_escaping c) && negb (c =? Chr.lf) && (c <? 9888)) s
  && negb (includes s (lit "**"))
  && negb (includes s (lit "http")).

(** A sentence in French and Arabic, as a user might type it. *)
Definition bilingual_text : jsstring :=
  lit "Bonjour, plaquettes de frein pour Clio 4 (2015) svp - "
  ++ [1602; 1591; 1593; 32; 1594; 1610; 1575; 1585].

(** A storage that already holds a token. *)
Definition returning_visitor : Storage :=
  {| ls_items := {[ sessionKey := lit "session_1690000000000_abcd1234" ]};
     ls_readable := true; ls_writable := true |}.

(** A storage whose token was blanked. *)
Definition blanked_storage : Storage :=
  {| ls_items := {[ sessionKey := [] ]};
     ls_readable := true; ls_writable := true |}.

(** The page with only blanks, a tab and a line break typed in. *)
Definition typed_blanks : Widget :=
  set_messageInput_value ([32; 9; 10; 160; 32]) fresh_widget.

(** Every node but the typing indicator. *)
Definition not_typing (n : Node) : bool :=
  match n with TypingIndicator => false | _ => true end.

(** The log without the typing indicator: what stays on the page. *)
Definition visible (l : list Node) : list Node := List.filter not_typing l.

Definition count_typing (l : list Node) : nat :=
  length (List.filter (fun n => negb (not_typing n)) l).

(** A node the renderer of responses may add: neither the typing
    indicator nor a message of the user. *)
Definition from_bot (n : Node) : bool :=
  match n with TypingIndicator | Message user _ => false | _ => true end.

(** The messages of the user in the log, in order. *)
Definition user_bubbles (l : list Node) : list jsstring :=
  omap (fun n => match n with Message user html => Some html | _ => None end) l.

(** From [w] to [w'] only the log grew, by nodes that are neither the
    typing indicator nor messages of the user, and the counter did not
    decrease. *)
Definition log_only (w w' : Widget) : Prop :=
  hostname w' = hostname w ∧ sessionId w' = sessionId w
  ∧ isTyping w' = isTyping w ∧ sendBtn_disabled w' = sendBtn_disabled w
  ∧ messageInput_value w' = messageInput_value w
  ∧ toasts w' = toasts w ∧ console w' = console w
  ∧ requests w' = requests w ∧ suspended w' = suspended w
  ∧ messageCount w ≤ messageCount w'
  ∧ ∃ added, messages w' = messages w ++ added ∧ forallb from_bot added = true.

(** A method body that does only that, however it ends. *)
Definition appends_only {A} (a : Action A) : Prop :=
  ∀ w, log_only w (a w).1.

(** The typing indicator is in the log exactly while the busy flag is
    set, and then once. *)
Definition typing_invariant (w : Widget) : Prop :=
  count_typing (messages w) = if isTyping w then 1%nat else 0%nat.

(** The request [sendMessage] issues for the trimmed text [raw]. *)
Definition post_request (host raw sid : jsstring) : Request :=
  {| req_url := CHAT_ENDPOINT host;
     req_method := lit "POST";
     req_headers := [ (lit "Content-Type", lit "application/json");
                      (lit "Accept", lit "application/json") ];
     req_body := stringify_payload raw sid |}.

(** A request of the widget on [host] with session [sid]: a POST of a
    non-empty, trimmed text. *)
Definition well_formed_request (host sid : jsstring) (r : Request) : Prop :=
  ∃ raw, raw ≠ [] ∧ trim raw = raw ∧ r = post_request host raw sid.

(** The events that call [sendMessage]. *)
Definition is_send (ev : Event) : bool :=
  match ev with Send | ClickSuggestion _ => true | _ => false end.

(** A turn that issues no request: host, session, requests and the
    messages of the user stay. *)
Definition quiet (w w' : Widget) : Prop :=
  hostname w' = hostname w ∧ sessionId w' = sessionId w
  ∧ requests w' = requests w
  ∧ user_bubbles (messages w') = user_bubbles (messages w).

(** A node in which [document.getElementById('typing-indicator')] finds
    no injected element: no card and no chip of it holds markup with that
    id. *)
Definition clean_node `{Engine} (n : Node) : bool :=
  match node_without_typing n with None => true | Some _ => false end.

(** A page whose log holds no injected element with the id of the typing
    indicator. *)
Definition untampered `{Engine} (w : Widget) : bool :=
  forallb clean_node (messages w).

(** A run every turn of which starts from such a page. *)
Fixpoint untampered_run `{Engine} (evs : list Event) (w : Widget) : bool :=
  match evs with
  | [] => true
  | ev :: evs' =>
      untampered w
      && match step ev w with
         | Some w1 => untampered_run evs' w1
         | None => true
         end
  end.

(** From [w] to [w'] the busy flag stayed and the log grew by nodes of
    the renderer only. *)
Definition grown (w w' : Widget) : Prop :=
  isTyping w' = isTyping w
  ∧ ∃ added, messages w' = messages w ++ added ∧ forallb from_bot added = true.

(** From [w] to [w'] what is visible in the log stays and may be followed
    by more, and the typing indicator keeps matching the busy flag. *)
Definition tidy (w w' : Widget) : Prop :=
  (∃ added, visible (messages w') = visible (messages w) ++ added)
  ∧ (typing_invariant w → typing_invariant w').

(** A response with a chip whose label is markup with the id of the
    typing indicator, and a session that shows it and sends again. *)
Definition response_with_indicator_id : JsValue :=
  js_object [ ("reply", js_string "Pick one");
              ("suggestions",
               JArr [JStr (lit "<b id=" ++ quoted typing_id ++ lit ">x</b>")]) ].

Definition send_after_injected_id : list Event :=
  [ Input (lit "first"); Send; FetchSettled 1 (Normal 200);
    JsonSettled 1 (Normal response_with_indicator_id);
    Input (lit "second"); Send; FetchSettled 1 (Normal 200) ].

(** The message of the user as the log shows it. *)
Definition bubble_of (raw : jsstring) : jsstring :=
  format_replacements (escape_replacements raw).

(** A text [sendMessage] lets through: not empty, no outer white space. *)
Definition sendable (raw : jsstring) : Prop := raw ≠ [] ∧ trim raw = raw.

(** A session: two messages, one answered, one failed. *)
Definition two_exchanges : list Event :=
  [ TimerFired 0; Input (lit "brake pads"); Send;
    FetchSettled 1 (Normal 200); JsonSettled 1 (Normal full_response);
    ClickSuggestion (lit "Order now"); FetchSettled 1 (Normal 503);
    TextSettled 1 (Normal (lit "Service Unavailable")) ].

(** How many of the events call [sendMessage]. *)
Definition sends (evs : list Event) : nat := length (List.filter is_send evs).

(** Which of its four sections [_handleServerResponse] shows for a
    response, by the tests of the source. *)
Definition shows_reply (data : JsValue) : bool := truthy (field data "reply").

Definition shows_parts (data : JsValue) : bool :=
  strict_equal_string (field data "type") (lit "parts")
  && array_nonempty (field data "data").

Definition shows_suggestions (data : JsValue) : bool :=
  array_nonempty (field data "suggestions").

Definition shows_fallback (data : JsValue) : bool :=
  negb (truthy (field data "reply")) && negb (truthy (field data "data")).

Definition response_size (data : JsValue) : nat :=
  Nat.b2n (shows_reply data) + Nat.b2n (shows_parts data)
  + Nat.b2n (shows_suggestions data) + Nat.b2n (shows_fallback data).

(** [n] nodes were appended to the log. *)
Definition grows (n : nat) (w w' : Widget) : Prop :=
  ∃ added, messages w' = messages w ++ added ∧ length added = n.

(** A method body that completes and appends [n] nodes. *)
Definition adds (n : nat) (a : Action unit) : Prop :=
  ∀ w, ∃ w', a w = (w', Normal tt) ∧ grows n w w'.

(** A search that found nothing, answered without a reply. *)
Definition empty_result : JsValue :=
  js_object [ ("type", js_string "parts"); ("data", JArr []) ].

(** The icons of the keywords that come before [no] in the chain of
    [_renderSuggestions], and its own. *)
Definition icons_up_to_no : list string :=
  [ "fas fa-search"; "fas fa-truck"; "fas fa-chart-line"; "fas fa-check";
    "fas fa-times" ]%string.

(* ===================================================================== *)
(** ** The launcher, the window and its buttons *)
(* ===================================================================== *)

(** [el.classList]: the set of class names of an element. *)
Module ClassList.
Definition t : Type := gset jsstring.
Definition contains (cl : t) (c : string) : bool := bool_decide (lit c ∈ cl).
Definition add (cl : t) (c : string) : t := cl ∪ {[ lit c ]}.
Definition remove (cl : t) (c : string) : t := cl ∖ {[ lit c ]}.
Definition toggle (cl : t) (c : string) : t :=
  if contains cl c then remove cl c else add cl c.
End ClassList.

(** What the handlers installed on [DOMContentLoaded] read and write: the
    classes of the chat window, of the launcher button and of the resize
    button, and the inline transform of the launcher. *)
Record Controls := {
  win_classList : ClassList.t;
  btn_classList : ClassList.t;
  btn_transform : jsstring;
  resize_classList : ClassList.t;
}.

(** The click handler of the launcher. *)
Definition btn_click (c : Controls) : Controls :=
  let win := ClassList.toggle (win_classList c) "open" in
  let btn := ClassList.remove (btn_classList c) "pulse" in
  {| win_classList := win;
     btn_classList := btn;
     btn_transform := if ClassList.contains win "open"
                      then lit "scale(0.9)" else lit "scale(1)";
     resize_classList := resize_classList c |}.

(** The click handler of the close button. *)
Definition close_click (c : Controls) : Controls :=
  {| win_classList := ClassList.remove (win_classList c) "open";
     btn_classList := ClassList.add (btn_classList c) "pulse";
     btn_transform := lit "scale(1)";
     resize_classList := resize_classList c |}.

(** The click handler of the resize button. *)
Definition resize_click (c : Controls) : Controls :=
  {| win_classList := ClassList.toggle (win_classList c) "maximized";
     btn_classList := btn_classList c;
     btn_transform := btn_transform c;
     resize_classList :=
       ClassList.toggle (ClassList.toggle (resize_classList c) "fa-expand")
                        "fa-compress" |}.

(** The [keydown] handler of the document: its two [if]s in turn. *)
Definition keydown (key : jsstring) (ctrlKey shiftKey : bool) (c : Controls)
  : Controls :=
  let c :=
    if bool_decide (key = lit "Escape") then
      if ClassList.contains (win_classList c) "open" then
        {| win_classList := ClassList.remove (win_classList c) "open";
           btn_classList := ClassList.add (btn_classList c) "pulse";
           btn_transform := lit "scale(1)";
           resize_classList := resize_classList c |}
      else c
    else c in
  if ctrlKey && shiftKey && bool_decide (key = lit "C") then
    {| win_classList := ClassList.toggle (win_classList c) "open";
       btn_classList := ClassList.toggle (btn_classList c) "pulse";
       btn_transform := btn_transform c;
       resize_classList := resize_classList c |}
  else c.

Inductive ControlEvent :=
| BtnClick
| CloseClick
| ResizeClick
| KeyDown (key : jsstring) (ctrlKey shiftKey : bool).

Definition handle (ev : ControlEvent) (c : Controls) : Controls :=
  match ev with
  | BtnClick => btn_click c
  | CloseClick => close_click c
  | ResizeClick => resize_click c
  | KeyDown key ctrlKey shiftKey => keydown key ctrlKey shiftKey c
  end.

Definition handle_all (evs : list ControlEvent) (c : Controls) : Controls :=
  foldl (fun c ev => handle ev c) c evs.

(** The resize button shows the compress icon on a maximised window and
    the expand icon otherwise. *)
Definition icon_matches_size (c : Controls) : bool :=
  bool_decide (ClassList.contains (resize_classList c) "fa-compress"
               = ClassList.contains (win_classList c) "maximized")
  && bool_decide (ClassList.contains (resize_classList c) "fa-expand"
                  = negb (ClassList.contains (win_classList c) "maximized")).

(** The page as it could be served: window closed and of normal size, the
    launcher pulsing. *)
Definition served_controls : Controls :=
  {| win_classList := {[ lit "chat-widget-window" ]};
     btn_classList := {[ lit "chat-widget-btn"; lit "pulse" ]};
     btn_transform := [];
     resize_classList := {[ lit "fas"; lit "fa-expand" ]} |}.

(** Open, maximise, close with Escape, reopen with the shortcut, restore. *)
Definition a_visit : list ControlEvent :=
  [ BtnClick; ResizeClick; KeyDown (lit "Escape") false false;
    KeyDown (lit "C") true true; ResizeClick ].

(** The message of the [catch] block of [sendMessage]. *)
Definition connection_error_text : jsstring :=
  [55357; 56588]
  ++ lit " Connection error. Please check if the backend server is running on port 5000.".

Definition network_error_toast : Toast :=
  {| toast_type := lit "error";
     toast_text := lit "Network error - Is the backend running?" |}.

(** Where the link pattern stops: at white space and at [<]. *)
Definition url_stop (c : N) : bool := isSpace c || (c =? Chr.lt).

Definition ends_url (rest : jsstring) : bool :=
  match rest with [] => true | c :: _ => url_stop c end.

(** Text without an asterisk. *)
Definition star_free (s : jsstring) : bool :=
  forallb (fun c => negb (c =? Chr.star)) s.

(** Text a bold span holds as it is: no asterisk, no line terminator. *)
Definition bold_content (s : jsstring) : bool :=
  forallb (fun c => negb (c =? Chr.star) && negb (isLineTerminator c)) s.

(** What follows the scheme of a URL: no white space, no asterisk, no code
    unit from U+26A0 upwards. *)
Definition url_text (s : jsstring) : bool :=
  forallb (fun c => negb (isSpace c) && negb (c =? Chr.star) && (c <? 9888)) s.

Definition scheme (secure : bool) : jsstring :=
  if secure then lit "https://" else lit "http://".

(** What may follow a URL for the link pattern to end there: the end of
    the text, or a space and more text. *)
Definition after_url (rest : option jsstring) : jsstring :=
  match rest with None => [] | Some b => [32] ++ b end.

Definition after_anchor (rest : option jsstring) : jsstring :=
  match rest with None => [] | Some b => [32] ++ bubble_of b end.


(* ===================================================================== *)
(** ** Page loads *)
(* ===================================================================== *)

(** A page: the storage, which survives a reload, and the widget, which
    does not. *)
Record Page := {
  page_storage : Storage;
  page_widget : Widget;
}.

(** Loading the page on [host]: the constructor restores or creates the
    session identifier and schedules the welcome sequence.  [now] and
    [random] are what [Date.now()] and [Math.random()] return if called. *)
Definition load_page `{Engine} (host : jsstring) (now : Z) (random : spec_float)
    (st : Storage) : Page :=
  let r := _restoreOrCreateSessionId now random st in
  {| page_storage := sr_storage r;
     page_widget := new_IMOBOTChat host (sr_id r) |}.

(** [window.clearChat()], given the answer to [confirm]: on a yes the page
    reloads, at the same location. *)
Definition clearChat `{Engine} (confirmed : bool) (now : Z) (random : spec_float)
    (page : Page) : Page :=
  if negb confirmed then page
  else load_page (hostname (page_widget page)) now random (page_storage page).

(* ===================================================================== *)
(** ** Reading back a quoted string *)
(* ===================================================================== *)

(** The value of a hexadecimal digit of [UnicodeEscape]. *)
Definition unhex (x : N) : N := if x <? 58 then x - 48 else x - 87.

(** The character a short escape stands for. *)
Definition unescape (x : N) : N :=
  if x =? 98 then 8 else if x =? 116 then 9 else if x =? 110 then 10
  else if x =? 102 then 12 else if x =? 114 then 13 else x.

(** The reading of the characters of a JSON string up to its closing
    quote, as a receiver of the request does it: the text read and what
    follows the quote.  It serves only to show that [QuoteJSONString]
    loses nothing. *)
Fixpoint unquote_json_chars (s : jsstring) : option (jsstring * jsstring) :=
  match s with
  | [] => None
  | c :: r =>
      if c =? 34 then Some ([], r)
      else if c =? 92 then
        match r with
        | [] => None
        | x :: r' =>
            if x =? 117 then
              match r' with
              | h1 :: h2 :: h3 :: h4 :: r'' =>
                  match unquote_json_chars r'' with
                  | Some (u, rest) =>
                      Some ((4096 * unhex h1 + 256 * unhex h2 + 16 * unhex h3
                             + unhex h4) :: u, rest)
                  | None => None
                  end
              | _ => None
              end
            else
              match unquote_json_chars r' with
              | Some (u, rest) => Some (unescape x :: u, rest)
              | None => None
              end
        end
      else
        match unquote_json_chars r with
        | Some (u, rest) => Some (c :: u, rest)
        | None => None
        end
  end.

(** How many sections [_handleServerResponse] has shown when it throws:
    none when the response or its reply is at fault, the reply when a
    part is, the reply and the parts when a suggestion is. *)
Definition shown_before_failure `{Engine} (data : JsValue) : nat :=
  match data with
  | JUndefined | JNull => 0
  | _ =>
      if negb (stringifiable (field data "reply")) then 0
      else
        Nat.b2n (shows_reply data)
        + (if strict_equal_string (field data "type") (lit "parts")
              && negb (forallb renderable_part
                         (take 3 (elements (field data "data"))))
           then 0
           else Nat.b2n (shows_parts data))
  end.
(* ===================================================================== *)
(** ** Global replacement: the fuel is enough *)
(* ===================================================================== *)

Lemma strip_prefix_Some p s r : strip_prefix p s = Some r → s = p ++ r.
Proof.
  revert s; induction p as [|a p IH]; intros [|b s] Hs; simpl in *; try congruence.
  destruct (N.eqb_spec a b) as [->|]; [|discriminate].
  by rewrite (IH _ Hs).
Qed.

Lemma strip_prefix_app p r : strip_prefix p (p ++ r) = Some r.
Proof. induction p as [|a p IH]; [by destruct r|]. simpl. by rewrite N.eqb_refl. Qed.

Lemma replace_matches_fuel_irrel matcher rep :
  consuming matcher →
  ∀ n m s, (length s ≤ n)%nat → (length s ≤ m)%nat →
    replace_matches_fuel n matcher rep s = replace_matches_fuel m matcher rep s.
Proof.
  intros Hc. induction n as [|n IH]; intros m s Hn Hm.
  { destruct s; [|simpl in Hn; lia]. by destruct m. }
  destruct m as [|m]; [destruct s; [done|simpl in Hm; lia]|].
  destruct s as [|c s]; [done|]. simpl in Hn, Hm. cbn [replace_matches_fuel].
  destruct (matcher (c :: s)) as [[g r]|] eqn:E.
  - apply Hc in E. simpl in E. f_equal. apply IH; lia.
  - f_equal. apply IH; lia.
Qed.

(** With at least [length s] units of fuel the replacement is the same:
    the fuel never runs out before the text does. *)
Lemma replace_matches_fuel_enough matcher rep n s :
  consuming matcher → (length s ≤ n)%nat →
  replace_matches_fuel n matcher rep s = replace_matches matcher rep s.
Proof. intros Hc Hn. unfold replace_matches. by apply replace_matches_fuel_irrel. Qed.

Lemma replace_matches_nil matcher rep : replace_matches matcher rep [] = [].
Proof. reflexivity. Qed.

(** The equation of a global replacement: at each position, replace the
    match there and go on after it, or keep the character and go on. *)
Lemma replace_matches_cons matcher rep c s :
  consuming matcher →
  replace_matches matcher rep (c :: s) =
    match matcher (c :: s) with
    | Some (g, r) => rep g ++ replace_matches matcher rep r
    | None => c :: replace_matches matcher rep s
    end.
Proof.
  intros Hc. unfold replace_matches at 1. cbn [length replace_matches_fuel].
  destruct (matcher (c :: s)) as [[g r]|] eqn:E.
  - apply Hc in E. simpl in E. f_equal. apply replace_matches_fuel_enough; [done|lia].
  - reflexivity.
Qed.

Lemma match_lit_consuming pat : consuming (match_lit pat).
Proof.
  intros s g r. unfold match_lit. destruct pat as [|a pat]; [done|].
  destruct (strip_prefix (a :: pat) s) as [r'|] eqn:E; [|done].
  intros [= <- <-]. apply strip_prefix_Some in E as ->. rewrite length_app. simpl. lia.
Qed.

Lemma find_close_length s g r :
  find_close s = Some (g, r) → (length r < length s)%nat.
Proof.
  revert g r. induction s as [|c s IH]; intros g r; [done|].
  cbn [find_close]. destruct (strip_prefix _ (c :: s)) as [r'|] eqn:E.
  - intros [= <- <-]. apply strip_prefix_Some in E. rewrite E. simpl. lia.
  - destruct (isLineTerminator c); [done|].
    destruct (find_close s) as [[g' r']|]; [|done].
    intros [= <- <-]. specialize (IH _ _ eq_refl). simpl. lia.
Qed.

Lemma match_bold_consuming : consuming match_bold.
Proof.
  intros s g r. unfold match_bold.
  destruct (strip_prefix _ s) as [[|c s']|] eqn:E; try done.
  destruct (isLineTerminator c); [done|].
  destruct (find_close s') as [[g' r']|] eqn:F; [|done].
  intros [= <- <-]. apply strip_prefix_Some in E as ->.
  apply find_close_length in F. simpl. lia.
Qed.

Lemma span_url_length s : (length (span_url s).2 ≤ length s)%nat.
Proof.
  induction s as [|c s IH]; [done|]. cbn [span_url].
  destruct (isSpace c || (c =? Chr.lt)); [done|].
  destruct (span_url s) as [u r]. simpl in *. lia.
Qed.

Lemma match_url_consuming : consuming match_url.
Proof.
  intros s g r. unfold match_url.
  destruct (strip_prefix (lit "https://") s) as [r1|] eqn:E1.
  - pose proof (span_url_length r1) as Hl.
    destruct (span_url r1) as [[|x u] r']; [done|].
    intros [= <- <-]. apply strip_prefix_Some in E1 as ->. simpl in *. lia.
  - destruct (strip_prefix (lit "http://") s) as [r2|] eqn:E2; [|done].
    pose proof (span_url_length r2) as Hl.
    destruct (span_url r2) as [[|x u] r']; [done|].
    intros [= <- <-]. apply strip_prefix_Some in E2 as ->. simpl in *. lia.
Qed.

(* ===================================================================== *)
(** ** Escaping *)
(* ===================================================================== *)

Lemma replace_char_app c rep s t :
  replace_char c rep (s ++ t) = replace_char c rep s ++ replace_char c rep t.
Proof. unfold replace_char. apply flat_map_app. Qed.

Lemma replace_char_cons c rep x s :
  replace_char c rep (x :: s) = (if x =? c then rep else [x]) ++ replace_char c rep s.
Proof. reflexivity. Qed.

(** The five replacements in sequence act on each source character on its
    own: the ampersand is replaced first, so the ampersands the later
    replacements introduce are never escaped again. *)
Lemma escape_replacements_cons c s :
  escape_replacements (c :: s) = escape_char c ++ escape_replacements s.
Proof.
  unfold escape_replacements, escape_char, Chr.amp, Chr.lt, Chr.gt, Chr.quot, Chr.apos.
  rewrite replace_char_cons.
  destruct (N.eqb_spec c 38) as [->|Hamp].
  { rewrite !replace_char_app. reflexivity. }
  rewrite !replace_char_app.
  change (replace_char 60 (lit "&lt;") [c])
    with ((if c =? 60 then lit "&lt;" else [c]) ++ []).
  destruct (N.eqb_spec c 60) as [->|Hlt]; [reflexivity|].
  rewrite app_nil_r.
  change (replace_char 62 (lit "&gt;") [c])
    with ((if c =? 62 then lit "&gt;" else [c]) ++ []).
  destruct (N.eqb_spec c 62) as [->|Hgt]; [reflexivity|].
  rewrite app_nil_r.
  change (replace_char 34 (lit "&quot;") [c])
    with ((if c =? 34 then lit "&quot;" else [c]) ++ []).
  destruct (N.eqb_spec c 34) as [->|Hquot]; [reflexivity|].
  rewrite app_nil_r.
  change (replace_char 39 (lit "&#039;") [c])
    with ((if c =? 39 then lit "&#039;" else [c]) ++ []).
  destruct (N.eqb_spec c 39) as [->|Hapos]; [reflexivity|].
  rewrite app_nil_r. reflexivity.
Qed.

Lemma escape_replacements_flat_map s :
  escape_replacements s = flat_map escape_char s.
Proof.
  induction s as [|c s IH]; [reflexivity|].
  rewrite escape_replacements_cons, IH. reflexivity.
Qed.

Lemma well_escaped_escape_char c r :
  well_escaped r = true → well_escaped (escape_char c ++ r) = true.
Proof.
  intros Hr. unfold escape_char, Chr.amp, Chr.lt, Chr.gt, Chr.quot, Chr.apos.
  destruct (N.eqb_spec c 38) as [->|Hamp]; [exact Hr|].
  destruct (N.eqb_spec c 60) as [->|Hlt]; [exact Hr|].
  destruct (N.eqb_spec c 62) as [->|Hgt]; [exact Hr|].
  destruct (N.eqb_spec c 34) as [->|Hquot]; [exact Hr|].
  destruct (N.eqb_spec c 39) as [->|Hapos]; [exact Hr|].
  cbn [app well_escaped]. unfold isHtmlSpecial, Chr.amp, Chr.lt, Chr.gt, Chr.quot, Chr.apos.
  rewrite Hr.
  repeat match goal with
         | H : ?a ≠ ?b |- _ => apply N.eqb_neq in H; rewrite H; clear H
         end.
  reflexivity.
Qed.

Lemma well_escaped_escape_replacements s :
  well_escaped (escape_replacements s) = true.
Proof.
  induction s as [|c s IH]; [reflexivity|].
  rewrite escape_replacements_cons. by apply well_escaped_escape_char.
Qed.

(** What [well_escaped] says, read off positions of the text. *)
Lemma well_escaped_spec s :
  well_escaped s = true →
  (∀ c, c ∈ s → isHtmlSpecial c = false)
  ∧ (∀ pre post, s = pre ++ Chr.amp :: post →
       ∃ t rest, t ∈ entity_tails ∧ post = t ++ rest).
Proof.
  induction s as [|c s IH]; intros Hs.
  { split; [intros c Hc; by apply elem_of_nil in Hc|].
    intros [|] ? ?; discriminate. }
  cbn [well_escaped] in Hs. apply andb_true_iff in Hs as [Hc Hs].
  destruct (IH Hs) as [IH1 IH2]. split.
  - intros c' [->|Hc']%elem_of_cons; [|by apply IH1].
    destruct (N.eqb_spec c Chr.amp) as [->|]; [reflexivity|].
    by apply negb_true_iff.
  - intros [|a pre] post Heq; injection Heq as -> ->.
    + rewrite N.eqb_refl in Hc. apply existsb_exists in Hc as (t & Ht & Hp).
      unfold starts_with in Hp. destruct (strip_prefix t post) as [rest|] eqn:E; [|done].
      exists t, rest. split; [by apply list_elem_of_In|by apply strip_prefix_Some].
    + by eapply IH2.
Qed.

(** C1.  A reply that is a string is escaped before any markup is
    substituted: [_formatMessage] is the substitutions applied to the
    result of [_escapeHtml]; escaping maps every source character on its
    own, to its entity or to itself; and in the escaped text no [<], [>],
    double or single quote is left and every [&] opens one of the five
    entities [&amp;] [&lt;] [&gt;] [&quot;] [&#039;]. *)
Theorem formatMessage_escapes_before_markup `{Engine} (s : jsstring) :
  _formatMessage (JStr s) = format_replacements <$> _escapeHtml (JStr s)
  ∧ _escapeHtml (JStr s) = Normal (flat_map escape_char s)
  ∧ (∀ c, c ∈ flat_map escape_char s →
       c ≠ Chr.lt ∧ c ≠ Chr.gt ∧ c ≠ Chr.quot ∧ c ≠ Chr.apos)
  ∧ (∀ pre post, flat_map escape_char s = pre ++ Chr.amp :: post →
       ∃ t rest, t ∈ entity_tails ∧ post = t ++ rest).
Proof.
  assert (He : _escapeHtml (JStr s) = Normal (flat_map escape_char s)).
  { unfold _escapeHtml. simpl. by rewrite escape_replacements_flat_map. }
  split; [|split; [exact He|]].
  { unfold _formatMessage. simpl default_arg. rewrite He. reflexivity. }
  pose proof (well_escaped_escape_replacements s) as Hw.
  rewrite escape_replacements_flat_map in Hw.
  apply well_escaped_spec in Hw as [H1 H2]. split; [|exact H2].
  intros c Hc. specialize (H1 c Hc). unfold isHtmlSpecial in H1.
  repeat (apply orb_false_iff in H1 as [H1 ?]).
  repeat split; by apply N.eqb_neq.
Qed.

(** A reply with markup characters, bold markers and a line break. *)
Lemma formatMessage_witness :
  @_formatMessage example_engine (JStr (lit "a <b> & 'c' **d**" ++ nl))
    = Normal (lit "a &lt;b&gt; &amp; &#039;c&#039; <strong>d</strong><br>")
  ∧ Chr.lt ∉ flat_map escape_char (lit "a <b> & 'c' **d**" ++ nl).
Proof.
  destruct (@formatMessage_escapes_before_markup example_engine
              (lit "a <b> & 'c' **d**" ++ nl)) as (Hfmt & Hesc & Hchars & _).
  split.
  - rewrite Hfmt, Hesc. reflexivity.
  - intros Hin. destruct (Hchars _ Hin) as [Hlt _]. exact (Hlt eq_refl).
Defined.

(* ===================================================================== *)
(** ** Decimal digits *)
(* ===================================================================== *)

Lemma string_app_cons c a b : String c a +:+ b = String c (a +:+ b).
Proof. reflexivity. Qed.

Lemma string_app_assoc a b c : (a +:+ b) +:+ c = a +:+ (b +:+ c).
Proof.
  induction a as [|x a IH]; [reflexivity|].
  rewrite !string_app_cons. by rewrite IH.
Qed.

Lemma lit_app a b : lit (a +:+ b) = lit a ++ lit b.
Proof.
  unfold lit. induction a as [|c a IH]; [reflexivity|].
  rewrite string_app_cons. cbn [list_ascii_of_string map app]. by rewrite IH.
Qed.

Lemma pretty_N_go_app x s : pretty_N_go x s = pretty_N_go x "" +:+ s.
Proof.
  revert s. induction (N.lt_wf_0 x) as [x _ IH]; intros s.
  destruct (decide (x = 0)) as [->|Hx]; [reflexivity|].
  assert (Hlt : x / 10 < x) by (apply N.div_lt; lia).
  rewrite !(pretty_N_go_step x) by lia.
  rewrite (IH _ Hlt (String _ s)), (IH _ Hlt (String _ "")).
  by rewrite string_app_assoc.
Qed.

Lemma pretty_N_lt_10 (n : N) :
  n < 10 → pretty n = String (pretty_N_char n) "".
Proof.
  intros Hn. unfold pretty, pretty_N. case_decide as H0; [by subst|].
  rewrite pretty_N_go_step by lia.
  rewrite N.div_small, N.mod_small by lia. reflexivity.
Qed.

Lemma pretty_N_snoc (n : N) :
  10 ≤ n → pretty n = pretty (n / 10) +:+ String (pretty_N_char (n mod 10)) "".
Proof.
  intros Hn. unfold pretty, pretty_N.
  assert (0 < n / 10) by (apply N.div_str_pos; lia).
  repeat case_decide; try lia.
  rewrite pretty_N_go_step by lia. apply pretty_N_go_app.
Qed.

Lemma pretty_Z_nonneg (z : Z) : (0 ≤ z)%Z → pretty z = pretty (Z.to_N z).
Proof.
  intros Hz. destruct z as [|p|p]; [reflexivity|reflexivity|lia].
Qed.

Lemma pretty_N_char_code (d : N) : d < 10 → N_of_ascii (pretty_N_char d) = 48 + d.
Proof.
  intros Hd.
  assert (d = 0 ∨ d = 1 ∨ d = 2 ∨ d = 3 ∨ d = 4 ∨ d = 5 ∨ d = 6 ∨ d = 7
          ∨ d = 8 ∨ d = 9) as Hcases by lia.
  repeat (destruct Hcases as [->|Hcases]; [reflexivity|]).
  by subst.
Qed.

Lemma lit_pretty_N_lt_10 (n : N) : n < 10 → lit (pretty n) = [48 + n].
Proof.
  intros Hn. rewrite pretty_N_lt_10 by done. unfold lit. simpl.
  by rewrite pretty_N_char_code.
Qed.

Lemma lit_pretty_N_snoc (n : N) :
  10 ≤ n → lit (pretty n) = lit (pretty (n / 10)) ++ [48 + n mod 10].
Proof.
  intros Hn. rewrite pretty_N_snoc, lit_app by done. f_equal.
  unfold lit. simpl. rewrite pretty_N_char_code; [done|].
  apply N.mod_lt. lia.
Qed.

Lemma lit_pretty_N_nonempty (n : N) : (0 < length (lit (pretty n)))%nat.
Proof.
  destruct (decide (n < 10)) as [Hn|Hn].
  - rewrite lit_pretty_N_lt_10 by done. simpl. lia.
  - rewrite lit_pretty_N_snoc by lia. rewrite length_app. simpl. lia.
Qed.

Lemma Z2N_div_of_N (k : N) (d : Z) :
  (0 < d)%Z → Z.to_N (Z.of_N k / d) = k / Z.to_N d.
Proof. intros Hd. rewrite Z2N.inj_div by lia. by rewrite N2Z.id. Qed.

Lemma Z2N_mod_of_N (k : N) (d : Z) :
  (0 < d)%Z → Z.to_N (Z.of_N k mod d) = k mod Z.to_N d.
Proof. intros Hd. rewrite Z2N.inj_mod by lia. by rewrite N2Z.id. Qed.

(** [toFixed]'s digit string is the decimal with two places. *)
Lemma fixed2_digits_decimal2 (n : Z) :
  (0 ≤ n)%Z → fixed2_digits n = decimal2 n.
Proof.
  intros Hn. unfold fixed2_digits, decimal2.
  rewrite !pretty_Z_nonneg by (try apply Z.div_pos; lia).
  set (k := Z.to_N n).
  assert (Hk : n = Z.of_N k) by (unfold k; lia). clearbody k. subst n.
  rewrite ?N2Z.id, Z2N_div_of_N by lia.
  assert (Hd1 : Z.to_N (48 + Z.of_N k / 10 mod 10) = 48 + (k / 10) mod 10).
  { rewrite Z2N.inj_add; [|lia|apply Z.mod_pos_bound; lia].
    replace (Z.of_N k / 10)%Z with (Z.of_N (k / 10)) by (by rewrite N2Z.inj_div).
    by rewrite Z2N_mod_of_N by lia. }
  assert (Hd0 : Z.to_N (48 + Z.of_N k mod 10) = 48 + k mod 10).
  { rewrite Z2N.inj_add; [|lia|apply Z.mod_pos_bound; lia].
    by rewrite Z2N_mod_of_N by lia. }
  rewrite Hd1, Hd0. change (Z.to_N 100) with 100.
  destruct (decide (k < 10)) as [H1|H1].
  { rewrite (lit_pretty_N_lt_10 k) by done.
    rewrite !N.div_small, N.mod_small by lia. simpl.
    rewrite N.mod_small by lia. reflexivity. }
  rewrite (lit_pretty_N_snoc k) by lia.
  destruct (decide (k / 10 < 10)) as [H2|H2].
  { rewrite (lit_pretty_N_lt_10 (k / 10)) by done.
    assert (k < 100).
    { pose proof (N.div_mod k 10 ltac:(lia)). pose proof (N.mod_lt k 10 ltac:(lia)). lia. }
    replace (k / 100) with 0 by (symmetry; apply N.div_small; lia).
    rewrite (N.mod_small (k / 10)) by done. reflexivity. }
  rewrite (lit_pretty_N_snoc (k / 10)) by lia.
  rewrite N.Div0.div_div. change (10 * 10) with 100.
  pose proof (lit_pretty_N_nonempty (k / 100)) as Hne.
  set (hd := lit (pretty (k / 100))) in *.
  set (tl := [48 + (k / 10) mod 10; 48 + k mod 10]).
  rewrite <- !app_assoc. change ([48 + (k / 10) mod 10] ++ [48 + k mod 10]) with tl.
  assert (Hlen : length (hd ++ tl) = S (S (length hd))).
  { rewrite length_app. simpl. lia. }
  rewrite Hlen. replace (3 - S (S (length hd)))%nat with O by lia.
  cbn [replicate app]. rewrite !Hlen.
  replace (S (S (length hd)) - 2)%nat with (length hd) by lia.
  rewrite take_app_length, drop_app_length. reflexivity.
Qed.

(* ===================================================================== *)
(** ** Numbers *)
(* ===================================================================== *)

Lemma finite_value_nonzero (s : bool) (m : positive) (e : Z) :
  ¬ ((if s then -1 else 1) * inject_Z (Zpos m) * 2 ^ e == 0)%Q.
Proof.
  intros Hz. pose proof (Qpower_0_lt 2 e ltac:(reflexivity)) as Hp.
  apply Qmult_integral in Hz as [Hz|Hz].
  - apply Qmult_integral in Hz as [Hz|Hz]; [by destruct s|discriminate].
  - rewrite Hz in Hp. by apply Qlt_irrefl in Hp.
Qed.

Lemma Qabs_of_pos (q : Q) : (0 < q)%Q → Qabs q = q.
Proof.
  destruct q as [a b]. unfold Qlt. simpl. intros Ha.
  f_equal. lia.
Qed.

Lemma Qle_bool_false (a b : Q) : (b < a)%Q → Qle_bool a b = false.
Proof.
  intros Hlt. destruct (Qle_bool a b) eqn:E; [|done].
  apply Qle_bool_iff in E. by apply Qle_not_lt in E.
Qed.

Lemma Qle_bool_true (a b : Q) : (a <= b)%Q → Qle_bool a b = true.
Proof. apply Qle_bool_iff. Qed.

(** The integer of hundredths [toFixed(2)] picks is the rounding of the
    value to two places, halves upwards. *)
Lemma Qfloor_rounds (q : Q) : rounds_to_hundredths q (Qfloor (q * 100 + (1 # 2))).
Proof.
  unfold rounds_to_hundredths.
  pose proof (Qfloor_le (q * 100 + (1 # 2))) as Hle.
  pose proof (Qlt_floor (q * 100 + (1 # 2))) as Hlt.
  rewrite inject_Z_plus in Hlt. change (inject_Z 1) with 1%Q in Hlt.
  split; lra.
Qed.

Lemma Qfloor_nonneg (q : Q) : (0 <= q)%Q → (0 ≤ Qfloor q)%Z.
Proof. intros Hq. apply (Qfloor_resp_le 0 q Hq). Qed.

(** [x.toFixed(2)] for a positive value below 10^21. *)
Lemma toFixed2_positive `{Engine} (x : spec_float) (q : Q) :
  SF2Q x = Some q → (0 < q)%Q → (q < inject_Z (10 ^ 21))%Q →
  toFixed2 x = decimal2 (Qfloor (q * 100 + (1 # 2))).
Proof.
  intros Hx Hpos Hlt. unfold toFixed2. rewrite Hx.
  rewrite (Qle_bool_true 0 q) by (by apply Qlt_le_weak).
  rewrite (Qabs_of_pos q Hpos), (Qle_bool_false _ _ Hlt). cbn [negb app].
  apply fixed2_digits_decimal2, Qfloor_nonneg. lra.
Qed.

Lemma truthy_number (x : spec_float) (q : Q) :
  SF2Q x = Some q → truthy (JNum x) = negb (Qeq_bool q 0).
Proof.
  destruct x as [s|s| |s m e]; simpl; intros [= <-]; try reflexivity.
  symmetry. apply negb_true_iff.
  destruct (Qeq_bool _ 0) eqn:E; [|done].
  apply Qeq_bool_iff in E. by apply finite_value_nonzero in E.
Qed.

Lemma Qeq_bool_false (a b : Q) : ¬ (a == b)%Q → Qeq_bool a b = false.
Proof.
  intros Hne. destruct (Qeq_bool a b) eqn:E; [|done].
  by apply Qeq_bool_iff in E.
Qed.

Lemma includes_head_absent (s sub : jsstring) (c : N) :
  c ∉ s → includes s (c :: sub) = false.
Proof.
  induction s as [|a s IH]; intros Hc; [reflexivity|].
  apply not_elem_of_cons in Hc as [Hne Hc].
  cbn [includes]. unfold starts_with. cbn [strip_prefix].
  apply N.eqb_neq in Hne. rewrite Hne. by apply IH.
Qed.

Lemma lit_pretty_N_digits (n : N) :
  Forall (fun c => 48 ≤ c ∧ c ≤ 57) (lit (pretty n)).
Proof.
  induction (N.lt_wf_0 n) as [n _ IH].
  destruct (decide (n < 10)) as [Hn|Hn].
  - rewrite lit_pretty_N_lt_10 by done. apply Forall_singleton. cbv beta. lia.
  - rewrite lit_pretty_N_snoc by lia. apply Forall_app. split.
    + apply IH. apply N.div_lt; lia.
    + pose proof (N.mod_lt n 10 ltac:(lia)) as Hm. apply Forall_singleton. cbv beta.
      generalize dependent (n mod 10). intros d Hd. lia.
Qed.

(** A two-place decimal with the currency suffix is made of digits, a
    point, a space and the letters of the suffix. *)
Lemma decimal2_chars (n : Z) (c : N) :
  (0 ≤ n)%Z → c ∈ decimal2 n ++ lit " DZD" →
  (48 ≤ c ∧ c ≤ 57) ∨ c = 46 ∨ c = 32 ∨ c = 68 ∨ c = 90.
Proof.
  intros Hn. unfold decimal2.
  rewrite pretty_Z_nonneg by (apply Z.div_pos; lia).
  pose proof (Z.mod_pos_bound (n / 10) 10 ltac:(lia)).
  pose proof (Z.mod_pos_bound n 10 ltac:(lia)).
  rewrite !elem_of_app, !elem_of_cons.
  intros [[Hc|[Hc|Hc]]|Hc].
  - left. pose proof (lit_pretty_N_digits (Z.to_N (n / 100))) as Hd.
    rewrite Forall_forall in Hd. by apply Hd.
  - right. left. by apply list_elem_of_singleton in Hc.
  - left. destruct Hc as [->|[->|Hc]]; [lia|lia|by apply elem_of_nil in Hc].
  - vm_compute in Hc. repeat (apply elem_of_cons in Hc as [->|Hc]; [lia|]).
    by apply elem_of_nil in Hc.
Qed.

Lemma decimal2_no_NaN_undefined (n : Z) :
  (0 ≤ n)%Z →
  includes (decimal2 n ++ lit " DZD") (lit "NaN") = false
  ∧ includes (decimal2 n ++ lit " DZD") (lit "undefined") = false.
Proof.
  intros Hn.
  change (lit "NaN") with (78 :: lit "aN").
  change (lit "undefined") with (117 :: lit "ndefined").
  split; apply includes_head_absent; intros Hc;
    apply decimal2_chars in Hc; lia.
Qed.


(* ===================================================================== *)
(** ** Price of a part *)
(* ===================================================================== *)

(** C3 (as amended).  For a part whose [sales_price] is a Number [q] with
    [0 < q < 10^21], the price string is [q] rounded to two decimal places
    (halves upwards) followed by [ DZD], and contains neither [NaN] nor
    [undefined].  When [sales_price] is absent, and also when it is the
    Number zero, the price string is [Price on request]. *)
Theorem price_of_part `{Engine} (p v : JsValue) :
  get p "sales_price" = Normal v →
  (v = JUndefined → part_price p = Normal (lit "Price on request"))
  ∧ (∀ x q, v = JNum x → SF2Q x = Some q → (q == 0)%Q →
       part_price p = Normal (lit "Price on request"))
  ∧ (∀ x q, v = JNum x → SF2Q x = Some q →
       (0 < q)%Q → (q < inject_Z (10 ^ 21))%Q →
       ∃ n, rounds_to_hundredths q n
            ∧ part_price p = Normal (decimal2 n ++ lit " DZD")
            ∧ includes (decimal2 n ++ lit " DZD") (lit "NaN") = false
            ∧ includes (decimal2 n ++ lit " DZD") (lit "undefined") = false)
  ∧ includes (lit "Price on request") (lit "NaN") = false
  ∧ includes (lit "Price on request") (lit "undefined") = false.
Proof.
  intros Hget. unfold part_price. rewrite Hget. cbn [mbind completion_bind].
  repeat split; try reflexivity.
  - by intros ->.
  - intros x q -> Hx Hq. rewrite (truthy_number x q Hx).
    apply Qeq_bool_iff in Hq. by rewrite Hq.
  - intros x q -> Hx Hpos Hlt. rewrite (truthy_number x q Hx).
    rewrite Qeq_bool_false by (intros Hq; rewrite Hq in Hpos; by apply Qlt_irrefl in Hpos).
    cbn [negb ToNumber mbind completion_bind].
    exists (Qfloor (q * 100 + (1 # 2))).
    rewrite (toFixed2_positive x q Hx Hpos Hlt).
    split; [apply Qfloor_rounds|]. split; [reflexivity|].
    apply decimal2_no_NaN_undefined, Qfloor_nonneg. lra.
Qed.

(** A part priced 12.5 is shown as [12.50 DZD]. *)
Lemma price_of_part_witness :
  get (js_object [("sales_price", JNum twelve_and_a_half)]) "sales_price"
    = Normal (JNum twelve_and_a_half)
  ∧ ∃ n, rounds_to_hundredths (25 # 2) n
         ∧ @part_price example_engine
             (js_object [("sales_price", JNum twelve_and_a_half)])
           = Normal (decimal2 n ++ lit " DZD")
         ∧ includes (decimal2 n ++ lit " DZD") (lit "NaN") = false
         ∧ includes (decimal2 n ++ lit " DZD") (lit "undefined") = false.
Proof.
  split; [reflexivity|].
  apply (proj1 (proj2 (proj2 (@price_of_part example_engine
           (js_object [("sales_price", JNum twelve_and_a_half)])
           (JNum twelve_and_a_half) eq_refl)))
         twelve_and_a_half (25 # 2) eq_refl eq_refl);
    reflexivity.
Defined.

(** C3, a counterexample to the statement of the specification, at price
    zero: the field is present and
    [0 >= 0], the specification asks for [0.00 DZD], the card says
    [Price on request]. *)
Lemma price_zero_is_on_request :
  get (js_object [("sales_price", js_number 0)]) "sales_price"
    = Normal (JNum (S754_zero false))
  ∧ SF2Q (S754_zero false) = Some 0%Q
  ∧ rounds_to_hundredths 0 0
  ∧ decimal2 0 ++ lit " DZD" = lit "0.00 DZD"
  ∧ @part_price example_engine (js_object [("sales_price", js_number 0)])
    = Normal (lit "Price on request").
Proof.
  repeat split; try reflexivity; unfold Qle, Qlt; simpl; lia.
Qed.

(* ===================================================================== *)
(** ** Stock tier of a part *)
(* ===================================================================== *)



(* ===================================================================== *)
(** ** The renderer completes on well-formed input *)
(* ===================================================================== *)

Lemma get_field (v : JsValue) (k : string) :
  v ≠ JUndefined → v ≠ JNull → get v k = Normal (field v k).
Proof. intros H1 H2. unfold field. by destruct v. Qed.

Lemma stringifiable_ToString `{Engine} (v : JsValue) :
  stringifiable v = true → ∃ s, ToString v = Normal s.
Proof.
  unfold stringifiable. destruct (ToString v) as [s|e]; [by exists s|done].
Qed.

Lemma stringifiable_ToNumber `{Engine} (v : JsValue) :
  stringifiable v = true → ∃ x, ToNumber v = Normal x.
Proof.
  intros [s Hs]%stringifiable_ToString.
  destruct v as [| |[]|x|t|l|props]; try (eexists; reflexivity);
    unfold ToNumber; rewrite Hs; eexists; reflexivity.
Qed.

Lemma stringifiable_or_else `{Engine} (a b : JsValue) :
  stringifiable a = true → stringifiable b = true →
  stringifiable (or_else a b) = true.
Proof. intros Ha Hb. unfold or_else. by destruct (truthy a). Qed.

Lemma escapeHtml_completes `{Engine} (v : JsValue) :
  stringifiable v = true →
  ∃ s, _escapeHtml v = Normal s ∧ well_escaped s = true.
Proof.
  intros Hv. unfold _escapeHtml.
  assert (Hd : stringifiable (default_arg v (JStr [])) = true) by (by destruct v).
  apply stringifiable_ToString in Hd as [s ->]. cbn [mbind completion_bind].
  eexists. split; [reflexivity|]. apply well_escaped_escape_replacements.
Qed.

Lemma formatMessage_completes `{Engine} (v : JsValue) :
  stringifiable v = true → ∃ html, _formatMessage v = Normal html.
Proof.
  intros Hv. unfold _formatMessage.
  assert (Hd : stringifiable (default_arg v (JStr [])) = true) by (by destruct v).
  apply escapeHtml_completes in Hd as (s & -> & _). cbn [mbind completion_bind].
  eexists. reflexivity.
Qed.

(** [_addMessage] appends exactly one message when its text converts to
    a string. *)
Lemma addMessage_completes `{Engine} (role : Role) (v : JsValue) (w : Widget) :
  stringifiable v = true →
  ∃ html, _formatMessage (or_else v (JStr [])) = Normal html
          ∧ _addMessage role v w = (appendChild (Message role html) w, Normal tt).
Proof.
  intros Hv. unfold _addMessage.
  destruct (formatMessage_completes (or_else v (JStr [])))
    as [html Hhtml]; [by apply stringifiable_or_else|].
  exists html. split; [done|].
  unfold mbind, Action_bind, eval, exec. by rewrite Hhtml.
Qed.

Lemma mapC_completes {A B} (f : A → completion B) (l : list A) :
  (∀ a, a ∈ l → ∃ b, f a = Normal b) →
  ∃ bs, mapC f l = Normal bs ∧ Forall2 (fun a b => f a = Normal b) l bs.
Proof.
  induction l as [|a l IH]; intros Hl.
  { exists []. split; [reflexivity|constructor]. }
  destruct (Hl a) as [b Hb]; [by left|].
  destruct IH as (bs & Hbs & HF); [intros a' Ha'; apply Hl; by right|].
  exists (b :: bs). split; [|by constructor].
  cbn [mapC]. rewrite Hb. cbn [mbind completion_bind]. by rewrite Hbs.
Qed.

Lemma mapC_throws {A B} (f : A → completion B) (l : list A) :
  (∃ a, a ∈ l ∧ throws (f a) = true) → throws (mapC f l) = true.
Proof.
  induction l as [|a l IH]; intros (a' & Ha' & Hf); [by apply elem_of_nil in Ha'|].
  cbn [mapC]. destruct (f a) as [b|e] eqn:E; [|reflexivity].
  cbn [mbind completion_bind].
  apply elem_of_cons in Ha' as [->|Ha']; [by rewrite E in Hf|].
  assert (Ht : throws (mapC f l) = true) by (apply IH; eauto).
  by destruct (mapC f l).
Qed.

Lemma renderable_part_fields `{Engine} (p : JsValue) (k : string) :
  renderable_part p = true → k ∈ part_fields →
  get p k = Normal (field p k) ∧ stringifiable (field p k) = true.
Proof.
  intros Hp Hk. split.
  - apply get_field; intros ->; discriminate.
  - assert (Hall : forallb (fun k => stringifiable (field p k)) part_fields = true)
      by (by destruct p).
    rewrite forallb_forall in Hall. apply Hall. by apply list_elem_of_In.
Qed.

(** A renderable part yields a card, whose name, reference and
    description are escaped text. *)
Lemma part_view_completes `{Engine} (p : JsValue) :
  renderable_part p = true →
  ∃ c, part_view p = Normal c
       ∧ well_escaped (cv_partName c) = true
       ∧ well_escaped (cv_reference c) = true
       ∧ well_escaped (cv_description c) = true.
Proof.
  intros Hp. unfold part_view, part_price, part_stock.
  destruct (renderable_part_fields p "sales_price" Hp) as [-> Hs1];
    [unfold part_fields; set_solver|].
  destruct (renderable_part_fields p "quantity_on_hand" Hp) as [-> Hs2];
    [unfold part_fields; set_solver|].
  destruct (renderable_part_fields p "product_name" Hp) as [-> Hs3];
    [unfold part_fields; set_solver|].
  destruct (renderable_part_fields p "internal_reference" Hp) as [-> Hs4];
    [unfold part_fields; set_solver|].
  destruct (renderable_part_fields p "product_description" Hp) as [-> Hs5];
    [unfold part_fields; set_solver|].
  cbn [mbind completion_bind].
  assert (Hprice : ∃ price,
    (if truthy (field p "sales_price")
     then x ← ToNumber (field p "sales_price"); Normal (toFixed2 x ++ lit " DZD")
     else Normal (lit "Price on request")) = Normal price).
  { destruct (truthy _); [|by eexists].
    destruct (stringifiable_ToNumber _ Hs1) as [x ->]. by eexists. }
  destruct Hprice as [price ->]. cbn [mbind completion_bind].
  set (stock := or_else (field p "quantity_on_hand") (JNum (Number_of_Z 0))).
  assert (Hstock : stringifiable stock = true)
    by (by apply stringifiable_or_else).
  assert (Hclass : ∃ cls, stockClass_of stock = Normal cls).
  { unfold stockClass_of, less_than_number.
    destruct (strict_equal_number stock _); [by eexists|].
    destruct (stringifiable_ToNumber _ Hstock) as [x ->]. by eexists. }
  destruct Hclass as [cls ->]. cbn [mbind completion_bind].
  assert (Htext : ∃ txt, stockText_of stock = Normal txt).
  { unfold stockText_of.
    destruct (strict_equal_number stock _); [by eexists|].
    destruct (stringifiable_ToString _ Hstock) as [x ->]. by eexists. }
  destruct Htext as [txt ->]. cbn [mbind completion_bind].
  destruct (escapeHtml_completes
              (or_else (field p "product_name") (JStr (lit "Spare Part"))))
    as (name & -> & Hname); [by apply stringifiable_or_else|].
  cbn [mbind completion_bind].
  destruct (escapeHtml_completes (or_else (field p "internal_reference") (JStr [])))
    as (ref & -> & Href); [by apply stringifiable_or_else|].
  cbn [mbind completion_bind].
  destruct (escapeHtml_completes (or_else (field p "product_description") (JStr [])))
    as (desc & -> & Hdesc); [by apply stringifiable_or_else|].
  cbn [mbind completion_bind].
  eexists. split; [reflexivity|]. by cbn.
Qed.

Lemma mapC_Forall2 {A B C} (f : A → completion B) (g : B → C)
    (l : list A) (bs : list B) :
  Forall2 (fun a b => f a = Normal b) l bs →
  mapC (fun a => b ← f a; Normal (g b)) l = Normal (map g bs).
Proof.
  induction 1 as [|a b l bs Hab _ IH]; [reflexivity|].
  cbn [mapC map]. rewrite Hab. cbn [mbind completion_bind].
  by rewrite IH.
Qed.

Lemma forallb_elem_of {A} (f : A → bool) (l : list A) (a : A) :
  forallb f l = true → a ∈ l → f a = true.
Proof.
  intros Hall Ha. rewrite forallb_forall in Hall. apply Hall.
  by apply list_elem_of_In.
Qed.

Lemma cards_of_app (a b : list PartsChild) :
  cards_of (a ++ b) = cards_of a ++ cards_of b.
Proof. unfold cards_of. apply omap_app. Qed.

Lemma notices_of_app (a b : list PartsChild) :
  notices_of (a ++ b) = notices_of a ++ notices_of b.
Proof. unfold notices_of. apply omap_app. Qed.

Lemma cards_of_cards (hs : list jsstring) :
  cards_of (map PartCard hs) = hs ∧ notices_of (map PartCard hs) = [].
Proof.
  induction hs as [|h hs [IH1 IH2]]; [done|].
  split; [cbn; f_equal; exact IH1|exact IH2].
Qed.

(* ===================================================================== *)
(** ** Part cards and the overflow notice *)
(* ===================================================================== *)

Lemma renderable_views `{Engine} (parts : list JsValue) :
  forallb renderable_part parts = true →
  ∃ views, Forall2 (fun p c => part_view p = Normal c) parts views.
Proof.
  intros Hparts.
  destruct (mapC_completes part_view parts) as (views & _ & Hviews); [|by exists views].
  intros p Hp. destruct (part_view_completes p) as (c & Hc & _); [|by exists c].
  by eapply forallb_elem_of.
Qed.

(** What [_displayParts] does once the first three parts have their
    cards. *)
Lemma displayParts_run `{Engine} (parts : list JsValue) (views : list CardView)
    (w : Widget) :
  Forall2 (fun p c => part_view p = Normal c) (take 3 parts) views →
  _displayParts parts w =
    (match parts with
     | [] => w
     | _ => appendChild
              (PartsList (map PartCard (map card_innerHTML views)
                          ++ (if (3 <? length parts)%nat
                              then [MoreResults (more_innerHTML (length parts))]
                              else []))) w
     end, Normal tt).
Proof.
  intros Hviews. unfold _displayParts. destruct parts as [|p parts']; [reflexivity|].
  set (ps := p :: parts') in *.
  rewrite (mapC_Forall2 part_view (fun v => PartCard (card_innerHTML v)) _ _ Hviews).
  unfold mbind, Action_bind, eval, exec.
  by rewrite map_map.
Qed.

(** C4 (as amended).  For a [data] array of [n] parts whose first three
    elements are renderable, [_displayParts] completes.  For [n = 0] the
    log stays as it is; otherwise the log grows by exactly one parts list,
    whose children are the cards of the first [min n 3] parts, in the
    order of the array, followed by the overflow notice exactly when
    [n > 3], and the notice counts [n - 3] results.  Nothing but the log
    changes. *)
Theorem displayParts_cards_and_overflow `{Engine} (parts : list JsValue) (w : Widget) :
  forallb renderable_part (take 3 parts) = true →
  ∃ (views : list CardView) (children : list PartsChild),
    Forall2 (fun p c => part_view p = Normal c) (take 3 parts) views
    ∧ (_displayParts parts w).2 = Normal tt
    ∧ messages (_displayParts parts w).1
      = messages w ++ match parts with [] => [] | _ => [PartsList children] end
    ∧ set_messages (messages w) (_displayParts parts w).1 = w
    ∧ children = map PartCard (map card_innerHTML views)
                 ++ map MoreResults (notices_of children)
    ∧ cards_of children = map card_innerHTML views
    ∧ length (cards_of children) = Nat.min (length parts) 3
    ∧ notices_of children =
        (if (3 <? length parts)%nat
         then [ icon (lit "fas fa-plus-circle") ++ lit " "
                ++ lit (pretty (length parts - 3)%nat)
                ++ lit " more results available" ]
         else []).
Proof.
  intros Hparts. destruct (renderable_views _ Hparts) as [views Hviews].
  set (more := if (3 <? length parts)%nat
               then [MoreResults (more_innerHTML (length parts))] else []).
  exists views, (map PartCard (map card_innerHTML views) ++ more).
  assert (Hlen : length views = Nat.min (length parts) 3).
  { apply Forall2_length in Hviews. rewrite <- Hviews, length_take. lia. }
  assert (Hmore : notices_of more =
    (if (3 <? length parts)%nat
     then [ icon (lit "fas fa-plus-circle") ++ lit " "
            ++ lit (pretty (length parts - 3)%nat)
            ++ lit " more results available" ]
     else [])).
  { unfold more, more_innerHTML. by destruct (3 <? length parts)%nat. }
  assert (Hmore' : cards_of more = [] ∧ map MoreResults (notices_of more) = more).
  { unfold more. by destruct (3 <? length parts)%nat. }
  destruct (cards_of_cards (map card_innerHTML views)) as [Hc1 Hc2].
  rewrite (displayParts_run parts views w Hviews). fold more. cbn [fst snd].
  split; [exact Hviews|]. split; [reflexivity|].
  split; [|split; [|split; [|split; [|split]]]].
  - destruct parts; [by rewrite app_nil_r|reflexivity].
  - destruct parts; by destruct w.
  - rewrite notices_of_app, Hc2. cbn [app]. by rewrite (proj2 Hmore').
  - rewrite cards_of_app, Hc1, (proj1 Hmore'). by rewrite app_nil_r.
  - rewrite cards_of_app, Hc1, (proj1 Hmore'), app_nil_r. by rewrite length_map.
  - rewrite notices_of_app, Hc2. exact Hmore.
Qed.

(** Four parts: three cards and a notice of one more result. *)
Lemma displayParts_witness :
  forallb (@renderable_part example_engine) (take 3 four_parts) = true
  ∧ ∃ children,
      messages (@_displayParts example_engine four_parts fresh_widget).1
        = [PartsList children]
      ∧ length (cards_of children) = 3%nat
      ∧ notices_of children =
          [ icon (lit "fas fa-plus-circle") ++ lit " 1 more results available" ].
Proof.
  split; [reflexivity|].
  destruct (@displayParts_cards_and_overflow example_engine four_parts
              fresh_widget eq_refl)
    as (views & children & _ & _ & Hlog & _ & _ & _ & Hcards & Hnotice).
  exists children. split; [exact Hlog|]. split; [exact Hcards|exact Hnotice].
Defined.

(** C4, a counterexample to the statement of the specification: for the
    array of an empty object and [null], of length two, no card is
    appended.  The card of the second element cannot be built, the call
    throws, and the log is as it was. *)
Lemma displayParts_no_card_on_null_part :
  Nat.min (length [JObj []; JNull]) 3 = 2%nat
  ∧ @_displayParts example_engine [JObj []; JNull] fresh_widget
    = (fresh_widget, Throw TypeError)
  ∧ messages (@_displayParts example_engine [JObj []; JNull] fresh_widget).1 = [].
Proof. vm_compute. repeat split. Qed.

(* ===================================================================== *)
(** ** Composition of method bodies *)
(* ===================================================================== *)

Lemma completes_ret : completes (mret tt).
Proof. intros w. by exists w. Qed.

Lemma completes_exec (f : Widget → Widget) : completes (exec f).
Proof. intros w. by exists (f w). Qed.

Lemma completes_bind (m : Action unit) (k : unit → Action unit) :
  completes m → completes (k tt) → completes (m ≫= k).
Proof.
  intros Hm Hk w. destruct (Hm w) as [w1 H1]. destruct (Hk w1) as [w2 H2].
  exists w2. unfold mbind, Action_bind. by rewrite H1.
Qed.

Lemma completes_eval {A} (v : A) (k : A → Action unit) :
  completes (k v) → completes (eval (Normal v) ≫= k).
Proof. intros Hk w. destruct (Hk w) as [w' Hw']. by exists w'. Qed.

Lemma completes_when (b : bool) (a : Action unit) :
  (b = true → completes a) → completes (when b a).
Proof. destruct b; intros Ha; [by apply Ha|apply completes_ret]. Qed.

Lemma addMessage_completes' `{Engine} (role : Role) (v : JsValue) :
  stringifiable v = true → completes (_addMessage role v).
Proof.
  intros Hv w. destruct (addMessage_completes role v w Hv) as (html & _ & Hrun).
  by eexists.
Qed.

Lemma all_strings (l : list JsValue) :
  forallb is_string l = true → ∃ labels : list jsstring, l = map JStr labels.
Proof.
  induction l as [|v l IH]; [by exists []|].
  cbn [forallb]. intros [Hv Hl]%andb_true_iff.
  destruct (IH Hl) as [labels ->]. destruct v; try discriminate.
  by eexists (_ :: labels).
Qed.

(** A chip is built for every label that is a string; its markup is the
    icon followed by the label as it was received. *)
Lemma suggestion_button_string `{Engine} (s : jsstring) :
  suggestion_button (JStr s) =
    Normal {| btn_innerHTML :=
                icon (lit (first_icon (toLowerCase s) icon_keywords))
                ++ lit " " ++ s;
              btn_label := s |}.
Proof. reflexivity. Qed.

Lemma suggestion_button_not_string `{Engine} (v : JsValue) :
  is_string v = false → suggestion_button v = Throw TypeError.
Proof. by destruct v. Qed.

Lemma renderSuggestions_strings `{Engine} (labels : list jsstring) (w : Widget) :
  labels ≠ [] →
  _renderSuggestions (JArr (map JStr labels)) w =
    (appendChild
       (Suggestions
          (map (fun s => {| btn_innerHTML :=
                              icon (lit (first_icon (toLowerCase s) icon_keywords))
                              ++ lit " " ++ s;
                            btn_label := s |}) labels)) w,
     Normal tt).
Proof.
  intros Hne. destruct labels as [|s labels]; [done|].
  unfold _renderSuggestions. cbn [default_arg map].
  assert (Hmap : ∀ l : list jsstring,
    mapC suggestion_button (map JStr l) =
      Normal (map (fun s => {| btn_innerHTML :=
                                 icon (lit (first_icon (toLowerCase s) icon_keywords))
                                 ++ lit " " ++ s;
                               btn_label := s |}) l)).
  { induction l as [|x l IH]; [reflexivity|].
    cbn [map mapC]. rewrite suggestion_button_string.
    cbn [mbind completion_bind]. by rewrite IH. }
  change (JStr s :: map JStr labels) with (map JStr (s :: labels)).
  rewrite Hmap. reflexivity.
Qed.

Lemma renderSuggestions_completes `{Engine} (v : JsValue) :
  forallb is_string (elements v) = true → completes (_renderSuggestions v).
Proof.
  intros Hv w. destruct v as [| | | | |l|]; try (by eexists).
  destruct (all_strings l Hv) as [labels ->].
  destruct labels as [|s labels]; [by eexists|].
  rewrite renderSuggestions_strings by done. by eexists.
Qed.

Lemma displayParts_completes `{Engine} (parts : list JsValue) :
  forallb renderable_part (take 3 parts) = true → completes (_displayParts parts).
Proof.
  intros Hparts w. destruct (renderable_views _ Hparts) as [views Hviews].
  rewrite (displayParts_run parts views w Hviews). by eexists.
Qed.

(* ===================================================================== *)
(** ** The renderer on a whole response *)
(* ===================================================================== *)

Lemma handleServerResponse_completes_on `{Engine} (data : JsValue) :
  renders data = true → completes (_handleServerResponse data).
Proof.
  intros Hr.
  assert (Hu : data ≠ JUndefined) by (intros ->; discriminate).
  assert (Hn : data ≠ JNull) by (intros ->; discriminate).
  assert (Hr' : stringifiable (field data "reply") = true
                ∧ (strict_equal_string (field data "type") (lit "parts") = true →
                   forallb renderable_part (take 3 (elements (field data "data"))) = true)
                ∧ forallb is_string (elements (field data "suggestions")) = true).
  { unfold renders in Hr.
    assert (Hr2 : stringifiable (field data "reply")
      && (if strict_equal_string (field data "type") (lit "parts")
          then forallb renderable_part (take 3 (elements (field data "data")))
          else true)
      && forallb is_string (elements (field data "suggestions")) = true)
      by (by destruct data).
    apply andb_true_iff in Hr2 as [[H1 H2]%andb_true_iff H3].
    split; [done|]. split; [|done]. intros Heq. by rewrite Heq in H2. }
  destruct Hr' as (Hreply & Hparts & Hsugg).
  unfold _handleServerResponse.
  rewrite !(get_field data) by done. apply completes_eval.
  apply completes_bind.
  { apply completes_when. intros _. by apply addMessage_completes'. }
  apply completes_eval.
  apply completes_bind.
  { destruct (strict_equal_string _ _); [|apply completes_ret].
    apply completes_eval.
    apply completes_when. intros _. apply displayParts_completes. by apply Hparts. }
  apply completes_eval.
  apply completes_bind.
  { apply completes_when. intros _. by apply renderSuggestions_completes. }
  apply completes_eval.
  apply completes_bind; [|apply completes_exec].
  destruct (negb _); [|apply completes_ret].
  apply completes_eval.
  apply completes_when. intros _. by apply addMessage_completes'.
Qed.

(** C8 (as amended).  [_handleServerResponse] completes without throwing
    on every response that is an object (or any value other than [null]
    and [undefined]) whose [reply] converts to a string, whose first three
    [data] elements (when [type] is [parts]) are neither [null] nor
    [undefined] and have fields that convert to strings, and whose
    [suggestions] elements (when it is an array) are strings; any of the
    fields may be missing. *)
Theorem handleServerResponse_never_throws `{Engine} (data : JsValue) (w : Widget) :
  renders data = true →
  ∃ w', _handleServerResponse data w = (w', Normal tt).
Proof. intros Hr. by apply handleServerResponse_completes_on. Qed.

(** A full response and the empty object both render. *)
Lemma handleServerResponse_never_throws_witness :
  (@renders example_engine full_response = true
   ∧ ∃ w', @_handleServerResponse example_engine full_response fresh_widget
           = (w', Normal tt))
  ∧ (@renders example_engine (JObj []) = true
     ∧ ∃ w', @_handleServerResponse example_engine (JObj []) fresh_widget
             = (w', Normal tt)).
Proof.
  split; (split; [reflexivity|]).
  - apply (@handleServerResponse_never_throws example_engine full_response
             fresh_widget). reflexivity.
  - apply (@handleServerResponse_never_throws example_engine (JObj [])
             fresh_widget). reflexivity.
Defined.

(** C8, a counterexample to the statement of the specification: a response object whose [data] array
    holds [null] makes the renderer throw, after the reply was shown. *)
Lemma handleServerResponse_throws_on_null_part :
  @_handleServerResponse example_engine response_with_null_part fresh_widget
  = (appendChild (Message bot (lit "Found it")) fresh_widget, Throw TypeError).
Proof. vm_compute. reflexivity. Qed.

(* ===================================================================== *)
(** ** The fallback message *)
(* ===================================================================== *)

Lemma bind_run {A B} (m : Action A) (k : A → Action B) (w w1 : Widget) (a : A) :
  m w = (w1, Normal a) → (m ≫= k) w = k a w1.
Proof. intros Hm. unfold mbind, Action_bind. by rewrite Hm. Qed.

Lemma bind_throw {A B} (m : Action A) (k : A → Action B) (w w1 : Widget) (e : JsError) :
  m w = (w1, Throw e) → (m ≫= k) w = (w1, Throw e).
Proof. intros Hm. unfold mbind, Action_bind. by rewrite Hm. Qed.

Lemma formatMessage_fallback `{Engine} :
  _formatMessage (JStr fallback_text) = Normal fallback_text.
Proof. vm_compute. reflexivity. Qed.

Lemma addMessage_fallback `{Engine} (w : Widget) :
  _addMessage bot (JStr fallback_text) w
  = (appendChild (Message bot fallback_text) w, Normal tt).
Proof.
  unfold _addMessage.
  change (or_else (JStr fallback_text) (JStr [])) with (JStr fallback_text).
  rewrite formatMessage_fallback. reflexivity.
Qed.

(** The suggestions step of [_handleServerResponse], when the labels are
    strings: nothing, or one row of chips. *)
Lemma suggestions_step `{Engine} (s : JsValue) (w : Widget) :
  forallb is_string (elements s) = true →
  ∃ ws, when (array_nonempty s) (_renderSuggestions s) w = (ws, Normal tt)
        ∧ (array_nonempty s = false → ws = w)
        ∧ (ws = w ∨ ∃ buttons, ws = appendChild (Suggestions buttons) w).
Proof.
  intros Hs. destruct s as [| | | | |l|]; try (exists w; by auto).
  destruct (all_strings l Hs) as [labels ->].
  destruct labels as [|x labels]; [exists w; by auto|].
  eexists. split; [|split].
  - cbn [array_nonempty map when]. change (JStr x :: map JStr labels)
      with (map JStr (x :: labels)). by apply renderSuggestions_strings.
  - discriminate.
  - right. by eexists.
Qed.

Lemma handleServerResponse_fallback `{Engine} (props : list (jsstring * JsValue))
    (w : Widget) :
  own_property props (lit "reply") = None →
  own_property props (lit "data") = None →
  forallb is_string (elements (field (JObj props) "suggestions")) = true →
  ∃ ws,
    (array_nonempty (field (JObj props) "suggestions") = false → ws = w)
    ∧ (ws = w ∨ ∃ buttons, ws = appendChild (Suggestions buttons) w)
    ∧ _handleServerResponse (JObj props) w
      = (increment_messageCount (appendChild (Message bot fallback_text) ws),
         Normal tt).
Proof.
  intros Hreply Hdata Hsugg.
  assert (Fr : field (JObj props) "reply" = JUndefined)
    by (unfold field, get; by rewrite Hreply).
  assert (Fd : field (JObj props) "data" = JUndefined)
    by (unfold field, get; by rewrite Hdata).
  destruct (suggestions_step _ w Hsugg) as (ws & Hstep & Hnone & Hshape).
  exists ws. split; [done|]. split; [done|].
  unfold _handleServerResponse. rewrite !(get_field (JObj props)) by done.
  rewrite Fr, Fd.
  rewrite (bind_run _ _ w w JUndefined) by reflexivity.
  rewrite (bind_run _ _ w w tt) by reflexivity.
  rewrite (bind_run _ _ w w (field (JObj props) "type")) by reflexivity.
  rewrite (bind_run _ _ w w tt) by (by destruct (strict_equal_string _ _)).
  rewrite (bind_run _ _ w w (field (JObj props) "suggestions")) by reflexivity.
  rewrite (bind_run _ _ w ws tt) by exact Hstep.
  rewrite (bind_run _ _ ws ws JUndefined) by reflexivity.
  rewrite (bind_run _ _ ws (appendChild (Message bot fallback_text) ws) tt).
  { reflexivity. }
  cbn [truthy negb]. rewrite (bind_run _ _ ws ws JUndefined) by reflexivity.
  cbn [truthy negb when]. apply addMessage_fallback.
Qed.

(** C7 (as amended).  For every response object with neither a [reply]
    nor a [data] field whose [suggestions], if an array, holds only
    strings, handling the response completes, appends the fallback message
    (after the chips, if there are suggestions) and nothing else, and is
    not treated as a failure: the error handler does not run, no toast is
    shown, nothing is logged and the session identifier stays.  For the
    empty object the fallback message is all that is appended. *)
Theorem fallback_when_neither_reply_nor_data `{Engine}
    (props : list (jsstring * JsValue)) (w : Widget) :
  own_property props (lit "reply") = None →
  own_property props (lit "data") = None →
  forallb is_string (elements (field (JObj props) "suggestions")) = true →
  (∃ ws,
     (array_nonempty (field (JObj props) "suggestions") = false → ws = w)
     ∧ (ws = w ∨ ∃ buttons, ws = appendChild (Suggestions buttons) w)
     ∧ _handleServerResponse (JObj props) w
       = (increment_messageCount (appendChild (Message bot fallback_text) ws),
          Normal tt)
     ∧ after_json (Normal (JObj props)) w
       = increment_messageCount (appendChild (Message bot fallback_text) ws))
  ∧ toasts (after_json (Normal (JObj props)) w) = toasts w
  ∧ console (after_json (Normal (JObj props)) w) = console w
  ∧ sessionId (after_json (Normal (JObj props)) w) = sessionId w
  ∧ after_json (Normal (JObj [])) w
    = increment_messageCount (appendChild (Message bot fallback_text) w).
Proof.
  intros Hreply Hdata Hsugg.
  destruct (handleServerResponse_fallback props w Hreply Hdata Hsugg)
    as (ws & Hnone & Hshape & Hrun).
  assert (Hafter : after_json (Normal (JObj props)) w
    = increment_messageCount (appendChild (Message bot fallback_text) ws))
    by (unfold after_json; by rewrite Hrun).
  split; [exists ws; by repeat split|].
  rewrite Hafter.
  assert (toasts ws = toasts w ∧ console ws = console w ∧ sessionId ws = sessionId w)
    as (Ht & Hc & Hs) by (destruct Hshape as [->|[b ->]]; by repeat split).
  repeat split; done.
Qed.

(** The empty object: the fallback message and nothing else. *)
Lemma fallback_witness :
  (own_property [] (lit "reply") = None
   ∧ own_property [] (lit "data") = None
   ∧ forallb is_string (elements (field (JObj []) "suggestions")) = true)
  ∧ toasts (@after_json example_engine (Normal (JObj [])) fresh_widget)
    = toasts fresh_widget
  ∧ @after_json example_engine (Normal (JObj [])) fresh_widget
    = increment_messageCount
        (appendChild (Message bot fallback_text) fresh_widget).
Proof.
  split; [by repeat split|].
  pose proof (@fallback_when_neither_reply_nor_data example_engine []
                fresh_widget eq_refl eq_refl eq_refl) as (_ & Ht & _ & _ & Hrun).
  split; [exact Ht|exact Hrun].
Defined.

(** C7, a counterexample to the statement of the specification: a response object with neither [reply]
    nor [data] whose [suggestions] array holds [null] gets no fallback
    message; the renderer throws, the error handler of [sendMessage] runs,
    and the connection error is shown with an error toast. *)
Lemma no_fallback_on_null_suggestion :
  own_property [(lit "suggestions", JArr [JNull])] (lit "reply") = None
  ∧ own_property [(lit "suggestions", JArr [JNull])] (lit "data") = None
  ∧ @_handleServerResponse example_engine response_with_null_suggestion fresh_widget
    = (fresh_widget, Throw TypeError)
  ∧ messages (@after_json example_engine (Normal response_with_null_suggestion)
                fresh_widget)
    = [ Message bot
          ([55357; 56588] ++ lit
             " Connection error. Please check if the backend server is running on port 5000.") ]
  ∧ toasts (@after_json example_engine (Normal response_with_null_suggestion)
              fresh_widget)
    = [ {| toast_type := lit "error";
           toast_text := lit "Network error - Is the backend running?" |} ].
Proof. vm_compute. repeat split. Qed.

(* ===================================================================== *)
(** ** Suggestion chips carry their label unescaped *)
(* ===================================================================== *)

Lemma escapeHtml_Normal `{Engine} (v : JsValue) (s : jsstring) :
  _escapeHtml v = Normal s → well_escaped s = true.
Proof.
  unfold _escapeHtml. destruct (ToString _) as [t|e]; [|discriminate].
  intros [= <-]. apply well_escaped_escape_replacements.
Qed.

(** Whatever card [part_view] yields, its name, reference and description
    went through [_escapeHtml]. *)
Lemma part_view_escaped `{Engine} (p : JsValue) (c : CardView) :
  part_view p = Normal c →
  well_escaped (cv_partName c) = true
  ∧ well_escaped (cv_reference c) = true
  ∧ well_escaped (cv_description c) = true.
Proof.
  unfold part_view. intros Hc.
  repeat match type of Hc with
         | (?m ≫= _) = Normal _ =>
             let E := fresh "E" in
             destruct m eqn:E; [cbn [mbind completion_bind] in Hc|discriminate]
         end.
  injection Hc as <-. cbn.
  repeat match goal with
         | E : _escapeHtml _ = Normal _ |- _ => apply escapeHtml_Normal in E
         end.
  by repeat split.
Qed.

(** C10 (as amended).  Every label of a suggestions list that holds
    strings ends up in its chip's [innerHTML] exactly as received, after
    the icon; it does not pass through [_escapeHtml].  The name, the
    reference and the description of a part card, and a reply, are
    escaped before insertion. *)
Theorem suggestion_labels_are_not_escaped `{Engine} (labels : list jsstring)
    (w : Widget) :
  labels ≠ [] →
  (∃ buttons,
     _renderSuggestions (JArr (map JStr labels)) w
       = (appendChild (Suggestions buttons) w, Normal tt)
     ∧ Forall2 (fun s b => ∃ cls, btn_innerHTML b = icon cls ++ lit " " ++ s)
               labels buttons)
  ∧ (∀ p c, part_view p = Normal c →
       well_escaped (cv_partName c) = true
       ∧ well_escaped (cv_reference c) = true
       ∧ well_escaped (cv_description c) = true)
  ∧ (∀ s, _formatMessage (JStr s)
          = Normal (format_replacements (escape_replacements s))).
Proof.
  intros Hne. split; [|split].
  - eexists. split; [by apply renderSuggestions_strings|].
    clear Hne. induction labels as [|s labels IH]; [constructor|].
    cbn [map]. constructor; [by eexists|exact IH].
  - apply part_view_escaped.
  - reflexivity.
Qed.

(** A label with markup reaches the chip as markup; the same text as a
    part name reaches the card escaped. *)
Lemma suggestion_labels_witness :
  [markup_label] ≠ []
  ∧ @_renderSuggestions example_engine (JArr [JStr markup_label]) fresh_widget
    = (appendChild
         (Suggestions
            [ {| btn_innerHTML := icon (lit "fas fa-lightbulb") ++ lit " "
                                  ++ markup_label;
                 btn_label := markup_label |} ]) fresh_widget,
       Normal tt)
  ∧ (cv_partName <$> @part_view example_engine
                       (JObj [(lit "product_name", JStr markup_label)]))
    = Normal (lit "&lt;img src=x onerror=alert(1)&gt;").
Proof.
  split; [discriminate|].
  destruct (@suggestion_labels_are_not_escaped example_engine [markup_label]
              fresh_widget ltac:(discriminate)) as [(buttons & Hrun & _) _].
  split; [|reflexivity].
  etransitivity; [exact Hrun|]. rewrite <- Hrun. reflexivity.
Defined.

(** C10, a counterexample to the statement of the specification: not every
    Part field is escaped before insertion.  A [quantity_on_hand] that is
    a string with markup reaches the stock line of the card as it was
    received. *)
Lemma stock_text_is_not_escaped :
  @renderable_part example_engine part_with_markup_stock = true
  ∧ (cv_stockText <$> @part_view example_engine part_with_markup_stock)
    = Normal (markup_label ++ lit " units available")
  ∧ well_escaped (markup_label ++ lit " units available") = false
  ∧ ((fun c => includes (card_innerHTML c) markup_label)
       <$> @part_view example_engine part_with_markup_stock) = Normal true.
Proof. vm_compute. repeat split. Qed.

(* ===================================================================== *)
(** ** [sendMessage] *)
(* ===================================================================== *)

(** Reduce the field updates and reads of a [Widget], nothing else. *)
Ltac widget_simpl :=
  cbn [hostname sessionId messageCount isTyping sendBtn_disabled
       messageInput_value messages toasts console requests suspended
       set_isTyping set_sendBtn_disabled set_messageInput_value set_messages
       set_suspended increment_messageCount appendChild console_log
       _showToast _hideTyping fst snd] in *.

Lemma formatMessage_string `{Engine} (s : jsstring) :
  _formatMessage (JStr s) = Normal (format_replacements (escape_replacements s)).
Proof. reflexivity. Qed.

Lemma addMessage_string `{Engine} (role : Role) (s : jsstring) (w : Widget) :
  _addMessage role (JStr s) w
  = (appendChild (Message role (format_replacements (escape_replacements s))) w,
     Normal tt).
Proof.
  unfold _addMessage.
  assert (Hor : or_else (JStr s) (JStr []) = JStr s) by (by destruct s).
  rewrite Hor, formatMessage_string. reflexivity.
Qed.

(** What a call of [sendMessage] does, in full. *)
Lemma sendMessage_unfold `{Engine} (w : Widget) :
  sendMessage w =
    if bool_decide (trim (messageInput_value w) = []) || isTyping w then w
    else
      {| hostname := hostname w;
         sessionId := sessionId w;
         messageCount := messageCount w + 1;
         isTyping := true;
         sendBtn_disabled := true;
         messageInput_value := [];
         messages :=
           messages w
           ++ [ Message user
                  (format_replacements
                     (escape_replacements (trim (messageInput_value w)))) ]
           ++ [ TypingIndicator ];
         toasts := toasts w;
         console := console w;
         requests :=
           requests w
           ++ [ {| req_url := CHAT_ENDPOINT (hostname w);
                   req_method := lit "POST";
                   req_headers :=
                     [ (lit "Content-Type", lit "application/json");
                       (lit "Accept", lit "application/json") ];
                   req_body :=
                     stringify_payload (trim (messageInput_value w))
                                       (sessionId w) |} ];
         suspended := suspended w ++ [AwaitFetch] |}.
Proof.
  unfold sendMessage.
  destruct (bool_decide _) eqn:Hraw; [reflexivity|].
  destruct (isTyping w) eqn:Hbusy; [reflexivity|]. cbn [orb].
  rewrite addMessage_string.
  unfold _showTyping. widget_simpl. rewrite Hbusy.
  unfold fetch. widget_simpl. by rewrite <- app_assoc.
Qed.

(** X29.  [sendMessage] in full.  It does nothing at all when the trimmed
    text is empty or the busy flag is set.  Otherwise it appends the
    trimmed text as a
    user message, clears the input, counts the message, sets the busy flag
    and shows the typing indicator, and issues exactly one POST whose body
    is the JSON object with [message] the trimmed text and [sessionId] the
    session identifier.  For the input [  M3 bearing  ] the trimmed text
    is [M3 bearing] and the body carries it under [message]. *)
Theorem sendMessage_preconditions_and_effect `{Engine} (w : Widget) :
  sendMessage w =
    (if bool_decide (trim (messageInput_value w) = []) || isTyping w then w
     else
       {| hostname := hostname w;
          sessionId := sessionId w;
          messageCount := messageCount w + 1;
          isTyping := true;
          sendBtn_disabled := true;
          messageInput_value := [];
          messages :=
            messages w
            ++ [ Message user
                   (format_replacements
                      (escape_replacements (trim (messageInput_value w)))) ]
            ++ [ TypingIndicator ];
          toasts := toasts w;
          console := console w;
          requests :=
            requests w
            ++ [ {| req_url := CHAT_ENDPOINT (hostname w);
                    req_method := lit "POST";
                    req_headers :=
                      [ (lit "Content-Type", lit "application/json");
                        (lit "Accept", lit "application/json") ];
                    req_body :=
                      stringify_payload (trim (messageInput_value w))
                                        (sessionId w) |} ];
          suspended := suspended w ++ [AwaitFetch] |})
  ∧ trim (lit "  M3 bearing  ") = lit "M3 bearing"
  ∧ messages (sendMessage typed_M3_bearing)
    = [Message user (lit "M3 bearing"); TypingIndicator]
  ∧ req_body <$> requests (sendMessage typed_M3_bearing)
    = [ lit "{" ++ quoted (lit "message") ++ lit ":" ++ quoted (lit "M3 bearing")
        ++ lit "," ++ quoted (lit "sessionId") ++ lit ":"
        ++ quoted (sessionId typed_M3_bearing) ++ lit "}" ]
  ∧ req_method <$> requests (sendMessage typed_M3_bearing) = [lit "POST"].
Proof.
  split; [apply sendMessage_unfold|].
  rewrite sendMessage_unfold. by vm_compute.
Qed.

(** C6.  A pending exchange does not stop [sendMessage].  After the first
    seven events of [overlapping_sends] the second request is still
    awaiting its response, the busy flag is clear and the text [third] is
    typed.  [sendMessage] then does not return at once: it appends the
    text as a user message and issues a third POST. *)
Lemma send_passes_while_exchange_pending :
  ∃ w, @run example_engine (take 7 overlapping_sends) fresh_widget = Some w
       ∧ suspended w = [AwaitWelcome; AwaitFetch]
       ∧ length (requests w) = 2%nat
       ∧ (isTyping w, messageInput_value w) = (false, lit "third")
       ∧ length (requests (@sendMessage example_engine w)) = 3%nat
       ∧ messages (@sendMessage example_engine w)
         = messages w ++ [Message user (lit "third"); TypingIndicator].
Proof.
  eexists. split; [vm_compute; reflexivity|]. vm_compute. repeat split.
Qed.

(* ===================================================================== *)
(** ** The busy flag *)
(* ===================================================================== *)

Lemma same_control_refl (w : Widget) : same_control w w.
Proof. by repeat split. Qed.

Lemma same_control_trans (w1 w2 w3 : Widget) :
  same_control w1 w2 → same_control w2 w3 → same_control w1 w3.
Proof.
  intros (A1 & A2 & A3 & A4) (B1 & B2 & B3 & B4).
  repeat split; congruence.
Qed.

Lemma frames_ret {A} (a : A) : frames (mret a : Action A).
Proof. intros w. apply same_control_refl. Qed.

Lemma frames_eval {A} (c : completion A) : frames (eval c).
Proof. intros w. apply same_control_refl. Qed.

Lemma frames_exec (f : Widget → Widget) :
  (∀ w, same_control w (f w)) → frames (exec f).
Proof. intros Hf w. apply Hf. Qed.

Lemma frames_bind {A B} (m : Action A) (k : A → Action B) :
  frames m → (∀ a, frames (k a)) → frames (m ≫= k).
Proof.
  intros Hm Hk w. unfold mbind, Action_bind.
  specialize (Hm w). destruct (m w) as [w1 [a|e]]; [|exact Hm].
  eapply same_control_trans; [exact Hm|apply Hk].
Qed.

Lemma frames_when (b : bool) (a : Action unit) : frames a → frames (when b a).
Proof. intros Ha. destruct b; [exact Ha|apply frames_ret]. Qed.

Lemma frames_addMessage `{Engine} (role : Role) (v : JsValue) :
  frames (_addMessage role v).
Proof.
  unfold _addMessage. apply frames_bind; [apply frames_eval|].
  intros html. apply frames_exec. intros w. by repeat split.
Qed.

Lemma frames_displayParts `{Engine} (parts : list JsValue) :
  frames (_displayParts parts).
Proof.
  unfold _displayParts. destruct parts; [apply frames_ret|].
  apply frames_bind; [apply frames_eval|].
  intros cards. apply frames_exec. intros w. by repeat split.
Qed.

Lemma frames_renderSuggestions `{Engine} (v : JsValue) :
  frames (_renderSuggestions v).
Proof.
  unfold _renderSuggestions.
  destruct (default_arg v (JArr [])) as [| | | | |[|x l]|]; try apply frames_ret.
  apply frames_bind; [apply frames_eval|].
  intros buttons. apply frames_exec. intros w. by repeat split.
Qed.

Lemma frames_handleServerResponse `{Engine} (data : JsValue) :
  frames (_handleServerResponse data).
Proof.
  unfold _handleServerResponse.
  repeat first
    [ apply frames_eval
    | apply frames_ret
    | apply frames_addMessage
    | apply frames_displayParts
    | apply frames_renderSuggestions
    | apply frames_when
    | apply frames_exec; intros w; by repeat split
    | apply frames_bind; [|intros ?]
    | match goal with |- frames (if ?b then _ else _) => destruct b end ].
Qed.

Lemma hideTyping_control `{Engine} (w : Widget) :
  isTyping (_hideTyping w) = false
  ∧ sendBtn_disabled (_hideTyping w) = false
  ∧ suspended (_hideTyping w) = suspended w
  ∧ requests (_hideTyping w) = requests w.
Proof. by repeat split. Qed.

Lemma catch_block_control `{Engine} (err : JsError) (w : Widget) :
  isTyping (catch_block err w) = false
  ∧ sendBtn_disabled (catch_block err w) = false
  ∧ suspended (catch_block err w) = suspended w
  ∧ requests (catch_block err w) = requests w.
Proof.
  unfold catch_block.
  set (w1 := console_log _ (_hideTyping w)).
  pose proof (frames_addMessage bot
    (JStr ([55357; 56588] ++ lit
       " Connection error. Please check if the backend server is running on port 5000."))
    w1) as (F1 & F2 & F3 & F4).
  destruct (_addMessage _ _ w1) as [w2 [[]|e]]; cbn in *;
    rewrite ?F1, ?F2, ?F3, ?F4; by repeat split.
Qed.

Lemma after_text_control `{Engine} (status : N) (body : completion jsstring)
    (w : Widget) :
  keeps_or_clears w (after_text status body w).
Proof.
  unfold after_text.
  set (w1 := console_log _ w).
  set (msg := JStr _).
  pose proof (frames_addMessage bot msg w1) as (F1 & F2 & F3 & F4).
  destruct (_addMessage bot msg w1) as [w2 [[]|e]]; cbn [fst] in *.
  - split; [|split; [|left]]; cbn; by rewrite ?F1, ?F2, ?F3, ?F4.
  - destruct (catch_block_control e w2) as (C1 & C2 & C3 & C4).
    split; [|split; [|right]]; rewrite ?C1, ?C2, ?C3, ?C4, ?F3, ?F4; by cbn.
Qed.

Lemma after_json_control `{Engine} (data : completion JsValue) (w : Widget) :
  keeps_or_clears w (after_json data w).
Proof.
  unfold after_json. destruct data as [data|err].
  - pose proof (frames_handleServerResponse data w) as (F1 & F2 & F3 & F4).
    destruct (_handleServerResponse data w) as [w2 [[]|e]]; cbn [fst] in *.
    + split; [done|]. split; [done|]. by left.
    + destruct (catch_block_control e w2) as (C1 & C2 & C3 & C4).
      split; [|split; [|right]]; rewrite ?C1, ?C2, ?C3, ?C4, ?F3, ?F4; by cbn.
  - destruct (catch_block_control err w) as (C1 & C2 & C3 & C4).
    split; [done|]. split; [done|]. by right.
Qed.

Lemma after_fetch_control `{Engine} (res : completion N) (w : Widget) :
  isTyping (after_fetch res w) = false
  ∧ sendBtn_disabled (after_fetch res w) = false.
Proof.
  unfold after_fetch. destruct res as [status|err].
  - by destruct (negb (res_ok status)).
  - destruct (catch_block_control err w) as (C1 & C2 & _). by split.
Qed.

Lemma timers_control `{Engine} (w : Widget) :
  (isTyping (after_welcome_delay w) = isTyping w
   ∧ sendBtn_disabled (after_welcome_delay w) = sendBtn_disabled w
   ∧ suspended w ⊆ suspended (after_welcome_delay w))
  ∧ (isTyping (after_greeting_delay w) = isTyping w
     ∧ sendBtn_disabled (after_greeting_delay w) = sendBtn_disabled w
     ∧ suspended w ⊆ suspended (after_greeting_delay w))
  ∧ (isTyping (after_chips_delay w) = isTyping w
     ∧ sendBtn_disabled (after_chips_delay w) = sendBtn_disabled w
     ∧ suspended w ⊆ suspended (after_chips_delay w)).
Proof.
  split; [|split].
  - unfold after_welcome_delay. widget_simpl. repeat split. set_solver.
  - unfold after_greeting_delay.
    pose proof (frames_addMessage bot (JStr greeting_text) w) as (F1 & F2 & F3 & F4).
    widget_simpl. rewrite F1, F2, F3. repeat split. set_solver.
  - unfold after_chips_delay.
    match goal with |- context [_renderSuggestions ?v w] =>
      pose proof (frames_renderSuggestions v w) as (F1 & F2 & F3 & F4) end.
    rewrite F1, F2, F3. by repeat split.
Qed.

Lemma elem_of_delete_other {A} (l : list A) (i : nat) (x y : A) :
  x ∈ l → l !! i = Some y → x ≠ y → x ∈ delete i l.
Proof.
  revert i. induction l as [|a l IH]; intros i Hx Hi Hne; [by apply elem_of_nil in Hx|].
  destruct i as [|i]; cbn in *.
  - injection Hi as ->. apply elem_of_cons in Hx as [->|Hx]; done.
  - apply elem_of_cons in Hx as [->|Hx]; [by left|]. right. by eapply IH.
Qed.

Lemma sendMessage_invariant `{Engine} (w : Widget) :
  busy_invariant w → busy_invariant (sendMessage w).
Proof.
  intros Hw. rewrite sendMessage_unfold.
  destruct (_ || _); [exact Hw|]. split; [|reflexivity].
  intros _. widget_simpl. set_solver.
Qed.

(** Every turn keeps the meaning of the busy flag. *)
Lemma step_invariant `{Engine} (ev : Event) (w w' : Widget) :
  busy_invariant w → step ev w = Some w' → busy_invariant w'.
Proof.
  intros [Hbusy Hbtn] Hstep.
  assert (Hresume : ∀ i, resumed ev = Some i →
    (i' ← resumed ev; k ← suspended w !! i'; task ← resume ev k;
     Some (task (set_suspended (delete i' (suspended w)) w))) = Some w' →
    busy_invariant w').
  { intros i Hi Hrun. rewrite Hi in Hrun. cbn [mbind option_bind] in Hrun.
    destruct (suspended w !! i) as [k|] eqn:Hk; [|discriminate].
    cbn [mbind option_bind] in Hrun.
    set (w1 := set_suspended (delete i (suspended w)) w) in *.
    assert (P1 : isTyping w1 = isTyping w) by reflexivity.
    assert (P2 : sendBtn_disabled w1 = sendBtn_disabled w) by reflexivity.
    assert (P3 : suspended w1 = delete i (suspended w)) by reflexivity.
    assert (Hpending : k ≠ AwaitFetch → isTyping w = true → AwaitFetch ∈ suspended w1).
    { intros Hne Hw. rewrite P3. eapply elem_of_delete_other; [by apply Hbusy|exact Hk|done]. }
    clearbody w1.
    assert (Hkeep : ∀ r, keeps_or_clears w1 r → k ≠ AwaitFetch → busy_invariant r).
    { intros r (K1 & K2 & [[K3 K4]|[K3 K4]]) Hne; split.
      - intros Hr. rewrite K1. apply Hpending; [done|]. congruence.
      - congruence.
      - intros Hr. congruence.
      - congruence. }
    assert (Htimer : ∀ r, isTyping r = isTyping w1 →
              sendBtn_disabled r = sendBtn_disabled w1 →
              suspended w1 ⊆ suspended r → k ≠ AwaitFetch → busy_invariant r).
    { intros r T1 T2 T3 Hne. split; [|congruence].
      intros Hr. apply T3. apply Hpending; [done|]. congruence. }
    destruct (timers_control w1) as ((W1 & W2 & W3) & (G1 & G2 & G3) & (C1 & C2 & C3)).
    destruct ev, k; cbn [resume mbind option_bind] in Hrun; try discriminate;
      injection Hrun as <-.
    - destruct (after_fetch_control res w1) as [F1 F2]. split; congruence.
    - apply Hkeep; [apply after_text_control|done].
    - apply Hkeep; [apply after_json_control|done].
    - by apply Htimer.
    - by apply Htimer.
    - by apply Htimer. }
  destruct ev; cbn [step] in Hstep; try (eapply Hresume; [reflexivity|exact Hstep]).
  - injection Hstep as <-. by split.
  - injection Hstep as <-. by apply sendMessage_invariant.
  - injection Hstep as <-. apply sendMessage_invariant. by split.
Qed.

Lemma run_invariant `{Engine} (evs : list Event) (w w' : Widget) :
  busy_invariant w → run evs w = Some w' → busy_invariant w'.
Proof.
  revert w. induction evs as [|ev evs IH]; intros w Hw Hrun.
  { injection Hrun as <-. exact Hw. }
  cbn [run] in Hrun. destruct (step ev w) as [w1|] eqn:Hstep; [|discriminate].
  cbn [mbind option_bind] in Hrun. eapply IH; [|exact Hrun].
  by eapply step_invariant.
Qed.

Lemma new_IMOBOTChat_invariant (host sid : jsstring) :
  busy_invariant (new_IMOBOTChat host sid).
Proof. split; [discriminate|reflexivity]. Qed.

Lemma sendMessage_idempotent `{Engine} (w : Widget) :
  sendMessage (sendMessage w) = sendMessage w.
Proof.
  rewrite (sendMessage_unfold w).
  destruct (_ || _) eqn:Hguard.
  - rewrite sendMessage_unfold. by rewrite Hguard.
  - rewrite sendMessage_unfold. cbn [isTyping]. by rewrite orb_true_r.
Qed.

(** X28.  While the busy flag is set, [sendMessage] performs no
    action; a second send right after a first changes nothing, so two
    sends in succession issue one POST when the first passed the guard and
    none otherwise.  In every state the page can reach, a set flag means a
    request is awaiting its response, and the send button is disabled
    exactly while the flag is set. *)
Theorem busy_flag_gates_send `{Engine} (w : Widget) :
  (isTyping w = true → sendMessage w = w)
  ∧ sendMessage (sendMessage w) = sendMessage w
  ∧ length (requests (sendMessage (sendMessage w)))
    = (if bool_decide (trim (messageInput_value w) = []) || isTyping w
       then length (requests w)
       else S (length (requests w)))
  ∧ (∀ host sid evs w',
       run evs (new_IMOBOTChat host sid) = Some w' → busy_invariant w').
Proof.
  split; [|split; [|split]].
  - intros Hbusy. rewrite sendMessage_unfold, Hbusy. by rewrite orb_true_r.
  - apply sendMessage_idempotent.
  - rewrite sendMessage_idempotent, sendMessage_unfold.
    destruct (_ || _); [reflexivity|]. cbn [requests]. rewrite length_app. cbn. lia.
  - intros host sid evs w'. apply run_invariant, new_IMOBOTChat_invariant.
Qed.

(** One message typed and sent: the flag is set, a request is awaiting its
    response, and a second send changes nothing. *)
Lemma busy_flag_witness :
  isTyping (@sendMessage example_engine typed_M3_bearing) = true
  ∧ @sendMessage example_engine (@sendMessage example_engine typed_M3_bearing)
    = @sendMessage example_engine typed_M3_bearing
  ∧ length (requests (@sendMessage example_engine
                        (@sendMessage example_engine typed_M3_bearing))) = 1%nat
  ∧ (@run example_engine [Input (lit "  M3 bearing  "); Send] fresh_widget
       = Some (@sendMessage example_engine typed_M3_bearing)
     ∧ busy_invariant (@sendMessage example_engine typed_M3_bearing)).
Proof.
  pose proof (@busy_flag_gates_send example_engine
                (@sendMessage example_engine typed_M3_bearing))
    as (Hnoop & _ & _ & Hinv).
  pose proof (@busy_flag_gates_send example_engine typed_M3_bearing)
    as (_ & _ & Hcount & _).
  split; [reflexivity|]. split; [exact (Hnoop eq_refl)|].
  split; [exact Hcount|]. split; [reflexivity|].
  apply (Hinv (lit "localhost") (lit "session_1700000000000_k3j9x2ab")
              [Input (lit "  M3 bearing  "); Send]).
  reflexivity.
Defined.

(** C2.  More than one exchange can be in flight.  The busy flag is
    cleared when a fetch settles, before the body is read, and again by
    the [catch] block, whichever exchange set it.  After
    [overlapping_sends] two
    requests are awaiting their responses at once (three were issued),
    and before the third send the flag was clear although the second
    request was still awaiting its response. *)
Lemma two_requests_in_flight :
  (suspended <$> @run example_engine overlapping_sends fresh_widget)
    = Some [AwaitWelcome; AwaitFetch; AwaitFetch]
  ∧ (length ∘ requests <$> @run example_engine overlapping_sends fresh_widget)
    = Some 3%nat
  ∧ ((fun w => (isTyping w, suspended w))
       <$> @run example_engine (take 7 overlapping_sends) fresh_widget)
    = Some (false, [AwaitWelcome; AwaitFetch]).
Proof. vm_compute. repeat split. Qed.

(* ===================================================================== *)
(** ** The session identifier *)
(* ===================================================================== *)

Lemma slice_2_10_length (s : jsstring) : (length (slice_2_10 s) ≤ 8)%nat.
Proof. unfold slice_2_10. rewrite length_take. lia. Qed.

Lemma slice_2_10_full (s : jsstring) :
  length (slice_2_10 s) = 8%nat ↔ (10 ≤ length s)%nat.
Proof. unfold slice_2_10. rewrite length_take, length_drop. lia. Qed.

Lemma Number_toString_integer `{Engine} (z : Z) :
  (Z.abs z ≤ 2 ^ 53)%Z → Number_toString (Number_of_Z z) = lit (pretty z).
Proof.
  intros Hz. destruct z as [|p|p]; [reflexivity| |]; unfold Number_toString, Number_of_Z, SF2Z.
  - cbn [Z.leb Z.compare]. replace (1 * Z.pos p * 2 ^ 0)%Z with (Z.pos p) by lia.
    by rewrite (proj2 (Z.leb_le _ _) Hz).
  - cbn [Z.leb Z.compare]. replace (-1 * Z.pos p * 2 ^ 0)%Z with (Z.neg p) by lia.
    by rewrite (proj2 (Z.leb_le _ _) Hz).
Qed.

(** C9 (as amended).  When no token can be read from local storage (the
    read throws, or the key is absent), the function returns
    [session_] followed by the decimal time in milliseconds, [_], and the
    characters 2 to 9 of [Math.random().toString(36)]: a suffix of at most
    eight characters, of exactly eight only when that string has ten or
    more.  It then attempts the write: a storage that accepts it holds the
    new token under the key, one that refuses it is left as it was, and
    the token is returned either way.  A failed read is reported by
    [console.warn]. *)
Theorem session_id_synthesized `{Engine} (now : Z) (random : spec_float)
    (st : Storage) :
  ls_readable st = false ∨ ls_items st !! sessionKey = None →
  sr_id (_restoreOrCreateSessionId now random st)
    = lit "session_" ++ Number_toString (Number_of_Z now) ++ lit "_"
      ++ take 8 (drop 2 (NumberToString36 random))
  ∧ ((Z.abs now ≤ 2 ^ 53)%Z →
       Number_toString (Number_of_Z now) = lit (pretty now))
  ∧ (length (take 8 (drop 2 (NumberToString36 random))) ≤ 8)%nat
  ∧ (length (take 8 (drop 2 (NumberToString36 random))) = 8%nat
       ↔ (10 ≤ length (NumberToString36 random))%nat)
  ∧ sr_storage (_restoreOrCreateSessionId now random st)
    = (setItem st sessionKey (sr_id (_restoreOrCreateSessionId now random st))).1
  ∧ (ls_writable st = true →
       ls_items (sr_storage (_restoreOrCreateSessionId now random st)) !! sessionKey
       = Some (sr_id (_restoreOrCreateSessionId now random st)))
  ∧ (ls_writable st = false →
       sr_storage (_restoreOrCreateSessionId now random st) = st)
  ∧ sr_warned (_restoreOrCreateSessionId now random st) = negb (ls_readable st).
Proof.
  intros Hread.
  assert (Hrun : ∃ warned,
    _restoreOrCreateSessionId now random st =
      {| sr_id := lit "session_" ++ Number_toString (Number_of_Z now) ++ lit "_"
                  ++ slice_2_10 (NumberToString36 random);
         sr_storage :=
           (setItem st sessionKey
              (lit "session_" ++ Number_toString (Number_of_Z now) ++ lit "_"
               ++ slice_2_10 (NumberToString36 random))).1;
         sr_warned := warned |}
    ∧ warned = negb (ls_readable st)).
  { unfold _restoreOrCreateSessionId, getItem.
    destruct (ls_readable st) eqn:Hr.
    - destruct Hread as [?|Hnone]; [done|]. rewrite Hnone. by eexists.
    - by eexists. }
  destruct Hrun as (warned & -> & ->). cbn [sr_id sr_storage sr_warned].
  split; [reflexivity|]. split; [apply Number_toString_integer|].
  split; [apply slice_2_10_length|]. split; [apply slice_2_10_full|].
  split; [reflexivity|]. unfold setItem. split; [|split; [|reflexivity]].
  - intros ->. cbn. apply lookup_insert_eq.
  - by intros ->.
Qed.

(** A first visit at time 1700000000000 with 0.5 drawn, and the same with
    a storage that refuses the write. *)
Lemma session_id_synthesized_witness :
  (ls_readable empty_storage = false ∨ ls_items empty_storage !! sessionKey = None)
  ∧ (length (take 8 (drop 2 (@NumberToString36 example_engine one_half))) ≤ 8)%nat
  ∧ ls_items (sr_storage (@_restoreOrCreateSessionId example_engine
                            1700000000000 one_half empty_storage)) !! sessionKey
    = Some (sr_id (@_restoreOrCreateSessionId example_engine
                     1700000000000 one_half empty_storage)).
Proof.
  split; [by right|].
  pose proof (@session_id_synthesized example_engine 1700000000000 one_half
                empty_storage (or_intror eq_refl))
    as (_ & _ & Hlen & _ & _ & Hwrite & _).
  split; [exact Hlen|exact (Hwrite eq_refl)].
Defined.

(** C9, a counterexample to the statement of the specification: when [Math.random()] returns 0.5, whose
    rendering in radix 36 is [0.i], the suffix has one character, not
    eight. *)
Lemma session_suffix_shorter_than_eight :
  ls_items empty_storage !! sessionKey = None
  ∧ @NumberToString36 example_engine one_half = lit "0.i"
  ∧ sr_id (@_restoreOrCreateSessionId example_engine 1700000000000 one_half
             empty_storage)
    = lit "session_1700000000000_i"
  ∧ length (slice_2_10 (@NumberToString36 example_engine one_half)) = 1%nat.
Proof. vm_compute. repeat split. Qed.

(* ===================================================================== *)
(** * Further properties of the code *)
(* ===================================================================== *)

(* ===================================================================== *)
(** ** Escaping loses nothing and leaves safe text alone *)
(* ===================================================================== *)

Lemma escape_char_cases (c : N) :
  (needs_escaping c = false ∧ escape_char c = [c])
  ∨ (c = Chr.amp ∧ escape_char c = lit "&amp;")
  ∨ (c = Chr.lt ∧ escape_char c = lit "&lt;")
  ∨ (c = Chr.gt ∧ escape_char c = lit "&gt;")
  ∨ (c = Chr.quot ∧ escape_char c = lit "&quot;")
  ∨ (c = Chr.apos ∧ escape_char c = lit "&#039;").
Proof.
  unfold escape_char, needs_escaping, isHtmlSpecial,
    Chr.amp, Chr.lt, Chr.gt, Chr.quot, Chr.apos.
  destruct (N.eqb_spec c 38) as [->|?]; [by auto|].
  destruct (N.eqb_spec c 60) as [->|?]; [by auto 6|].
  destruct (N.eqb_spec c 62) as [->|?]; [by auto 6|].
  destruct (N.eqb_spec c 34) as [->|?]; [by auto 7|].
  destruct (N.eqb_spec c 39) as [->|?]; [by auto 8|].
  by left.
Qed.

Lemma needs_escaping_amp (c : N) : needs_escaping c = false → c ≠ 38.
Proof. unfold needs_escaping, Chr.amp. intros Hc ->. discriminate. Qed.

Lemma escape_flat_map_injective (s t : jsstring) :
  flat_map escape_char s = flat_map escape_char t → s = t.
Proof.
  revert t. induction s as [|c s IH]; intros [|d t] Heq; cbn [flat_map] in Heq.
  - reflexivity.
  - destruct (escape_char_cases d) as [[_ E]|[[_ E]|[[_ E]|[[_ E]|[[_ E]|[_ E]]]]]];
      rewrite E in Heq; discriminate.
  - destruct (escape_char_cases c) as [[_ E]|[[_ E]|[[_ E]|[[_ E]|[[_ E]|[_ E]]]]]];
      rewrite E in Heq; discriminate.
  - destruct (escape_char_cases c) as [[Hc Ec]|[[-> Ec]|[[-> Ec]|[[-> Ec]|[[-> Ec]|[-> Ec]]]]]];
    destruct (escape_char_cases d) as [[Hd Ed]|[[-> Ed]|[[-> Ed]|[[-> Ed]|[[-> Ed]|[-> Ed]]]]]];
      rewrite ?Ec, ?Ed in Heq;
      try apply needs_escaping_amp in Hc; try apply needs_escaping_amp in Hd;
      unfold lit in Heq; cbn [list_ascii_of_string map N_of_ascii app] in Heq;
      try (injection Heq; intros; subst; first [done|f_equal; by apply IH]).
Qed.

(** X1.  [_escapeHtml] loses no information: two texts with the same
    escaped form are the same text. *)
Theorem escapeHtml_injective `{Engine} (s t : jsstring) :
  (_escapeHtml (JStr s) = _escapeHtml (JStr t) ↔ s = t)
  ∧ escape_replacements (s ++ t) = escape_replacements s ++ escape_replacements t.
Proof.
  split.
  - split; [|by intros ->]. unfold _escapeHtml. cbn [default_arg ToString mbind completion_bind].
    rewrite !escape_replacements_flat_map. intros [= Heq].
    by apply escape_flat_map_injective.
  - rewrite !escape_replacements_flat_map. apply flat_map_app.
Qed.

Lemma escape_char_length (c : N) :
  (1 ≤ length (escape_char c))%nat
  ∧ (length (escape_char c) = 1%nat → needs_escaping c = false).
Proof.
  destruct (escape_char_cases c) as [[Hc E]|[[_ E]|[[_ E]|[[_ E]|[[_ E]|[_ E]]]]]];
    rewrite E; cbn; split; (lia || done).
Qed.

Lemma escape_flat_map_length (s : jsstring) :
  (length s ≤ length (flat_map escape_char s))%nat.
Proof.
  induction s as [|c s IH]; [done|]. cbn [flat_map]. rewrite length_app.
  destruct (escape_char_length c) as [H1 _]. cbn [length]. lia.
Qed.

Lemma escapeHtml_identity_iff_both (s : jsstring) :
  escape_replacements s = s ↔ forallb (fun c => negb (needs_escaping c)) s = true.
Proof.
  rewrite escape_replacements_flat_map.
  split.
  - intros Heq. apply (f_equal length) in Heq.
    induction s as [|c s IH]; [done|]. cbn [flat_map forallb] in *.
    rewrite length_app in Heq. cbn [length] in Heq.
    destruct (escape_char_length c) as [H1 H2].
    pose proof (escape_flat_map_length s) as Hs.
    rewrite H2 by lia. cbn [negb andb]. apply IH. lia.
  - induction s as [|c s IH]; [done|]. cbn [flat_map forallb].
    intros [Hc Hs]%andb_true_iff. apply negb_true_iff in Hc.
    destruct (escape_char_cases c) as [[_ E]|Hcases].
    + rewrite E. cbn [app]. f_equal. by apply IH.
    + unfold needs_escaping, isHtmlSpecial in Hc.
      destruct Hcases as [[-> _]|[[-> _]|[[-> _]|[[-> _]|[-> _]]]]]; discriminate.
Qed.

Lemma escapeHtml_identity_iff_aux (s : jsstring) :
  forallb (fun c => negb (needs_escaping c)) s = true → escape_replacements s = s.
Proof. apply escapeHtml_identity_iff_both. Qed.

(** X2.  [_escapeHtml] returns a text unchanged exactly when none of its
    characters is one of [&], [<], [>], the double and the single quote;
    it never shortens a text. *)
Theorem escapeHtml_identity_iff `{Engine} (s : jsstring) :
  (_escapeHtml (JStr s) = Normal s
     ↔ forallb (fun c => negb (needs_escaping c)) s = true)
  ∧ _escapeHtml (JStr s) = Normal (escape_replacements s)
  ∧ (length s ≤ length (escape_replacements s))%nat.
Proof.
  unfold _escapeHtml. cbn [default_arg ToString mbind completion_bind].
  split; [|split; [reflexivity|]].
  - rewrite <- escapeHtml_identity_iff_both. split; [by intros [= ->]|by intros ->].
  - rewrite escape_replacements_flat_map. apply escape_flat_map_length.
Qed.

(* ===================================================================== *)
(** ** Plain text is shown as it was typed *)
(* ===================================================================== *)

Lemma replace_matches_fuel_none (matcher : jsstring → option (jsstring * jsstring))
    (rep : jsstring → jsstring) (n : nat) (s : jsstring) :
  (∀ t, t `suffix_of` s → matcher t = None) →
  replace_matches_fuel n matcher rep s = s.
Proof.
  revert s. induction n as [|n IH]; intros s Hs; [reflexivity|].
  destruct s as [|c s]; [reflexivity|]. cbn [replace_matches_fuel].
  rewrite (Hs (c :: s)) by reflexivity. f_equal. apply IH.
  intros t Ht. apply Hs. by apply suffix_cons_r.
Qed.

Lemma replace_matches_none (matcher : jsstring → option (jsstring * jsstring))
    (rep : jsstring → jsstring) (s : jsstring) :
  (∀ t, t `suffix_of` s → matcher t = None) → replace_matches matcher rep s = s.
Proof. apply replace_matches_fuel_none. Qed.

Lemma includes_false_suffix (s p t : jsstring) :
  includes s p = false → t `suffix_of` s → starts_with p t = false.
Proof.
  induction s as [|c s IH]; intros Hinc Ht.
  - apply suffix_nil_inv in Ht as ->. cbn [includes] in Hinc.
    by apply orb_false_iff in Hinc as [? _].
  - cbn [includes] in Hinc. apply orb_false_iff in Hinc as [Hhere Hlater].
    destruct Ht as [[|x k] Hk]; cbn [app] in Hk.
    + by subst t.
    + injection Hk as <- ->. apply IH; [done|]. by exists k.
Qed.

Lemma starts_with_app_false (p q t : jsstring) :
  starts_with p t = false → starts_with (p ++ q) t = false.
Proof.
  unfold starts_with. revert t. induction p as [|a p IH]; intros t; [by destruct t|].
  destruct t as [|b t]; [done|]. cbn [app strip_prefix].
  destruct (a =? b); [apply IH|done].
Qed.

Lemma starts_with_false_strip (p t : jsstring) :
  starts_with p t = false → strip_prefix p t = None.
Proof. unfold starts_with. by destruct (strip_prefix p t). Qed.

Lemma match_bold_none (t : jsstring) :
  starts_with (lit "**") t = false → match_bold t = None.
Proof.
  intros Ht. unfold match_bold.
  change [Chr.star; Chr.star] with (lit "**").
  by rewrite (starts_with_false_strip _ _ Ht).
Qed.

Lemma match_url_none (t : jsstring) :
  starts_with (lit "http") t = false → match_url t = None.
Proof.
  intros Ht. unfold match_url.
  change (lit "https://") with (lit "http" ++ lit "s://").
  change (lit "http://") with (lit "http" ++ lit "://").
  by rewrite !(starts_with_false_strip _ _ (starts_with_app_false _ _ _ Ht)).
Qed.

Lemma match_lit_none_head (a : N) (e t : jsstring) :
  Forall (fun c => c ≠ a) t → match_lit (a :: e) t = None.
Proof.
  intros Ht. unfold match_lit. destruct t as [|b t]; [reflexivity|].
  cbn [strip_prefix]. apply Forall_cons in Ht as [Hb _].
  destruct (N.eqb_spec a b) as [->|]; [done|reflexivity].
Qed.

Lemma replace_lit_absent (a : N) (e rep s : jsstring) :
  Forall (fun c => c ≠ a) s → replace_lit (a :: e) rep s = s.
Proof.
  intros Hs. apply replace_matches_none. intros t [k ->].
  apply match_lit_none_head. by apply Forall_app in Hs as [_ Hs].
Qed.

Lemma replace_char_absent (a : N) (rep s : jsstring) :
  Forall (fun c => c ≠ a) s → replace_char a rep s = s.
Proof.
  unfold replace_char. induction 1 as [|c s Hc _ IH]; [reflexivity|].
  cbn [flat_map]. apply N.eqb_neq in Hc. rewrite Hc. cbn [app]. by rewrite IH.
Qed.

Lemma replace_emojis_absent (s : jsstring) :
  Forall (fun c => c < 9888) s → replace_emojis s = s.
Proof.
  intros Hs. unfold replace_emojis.
  assert (Hes : Forall (fun e => ∃ a e', e = a :: e' ∧ 9888 ≤ a) emojis).
  { unfold emojis. repeat (apply Forall_cons; split; [eexists _, _; split; [reflexivity|lia]|]).
    apply Forall_nil_2. }
  induction Hes as [|e es (a & e' & -> & Ha) _ IH]; [reflexivity|].
  cbn [fold_left]. rewrite replace_lit_absent; [exact IH|].
  eapply Forall_impl; [exact Hs|]. cbv beta. intros c Hc. lia.
Qed.

Lemma format_plain_text (s : jsstring) :
  plain_text s = true → format_replacements (escape_replacements s) = s.
Proof.
  unfold plain_text. intros [[Hchars Hbold%negb_true_iff]%andb_true_iff
                               Hhttp%negb_true_iff]%andb_true_iff.
  assert (Hall : Forall (fun c => needs_escaping c = false ∧ c ≠ Chr.lf ∧ c < 9888) s).
  { apply Forall_forall. intros c Hc.
    pose proof (forallb_elem_of _ _ _ Hchars Hc) as Hp. cbv beta in Hp.
    apply andb_true_iff in Hp as [[H1 H2]%andb_true_iff H3].
    apply negb_true_iff in H1. apply negb_true_iff in H2.
    apply N.eqb_neq in H2. apply N.ltb_lt in H3. done. }
  assert (Hesc : escape_replacements s = s).
  { apply escapeHtml_identity_iff_aux. clear -Hall.
    induction Hall as [|c s (Hc & _) _ IH]; [done|].
    cbn [forallb]. by rewrite Hc. }
  rewrite Hesc. unfold format_replacements, replace_bold, replace_links. cbv zeta.
  rewrite (replace_matches_none match_bold); cycle 1.
  { intros t Ht. apply match_bold_none. by eapply includes_false_suffix. }
  rewrite replace_char_absent
    by (eapply Forall_impl; [exact Hall|]; by intros c (_ & Hc & _)).
  rewrite (replace_matches_none match_url); cycle 1.
  { intros t Ht. apply match_url_none. by eapply includes_false_suffix. }
  apply replace_emojis_absent.
  eapply Forall_impl; [exact Hall|]. by intros c (_ & _ & Hc).
Qed.

(** X3.  Plain text (none of the five escaped characters, no line feed,
    no code unit from U+26A0 upwards, no [**] and no [http]) is formatted
    to itself, so a message made of it is shown exactly as it was
    written. *)
Theorem formatMessage_plain_text `{Engine} (s : jsstring) (role : Role) (w : Widget) :
  plain_text s = true →
  _formatMessage (JStr s) = Normal s
  ∧ _addMessage role (JStr s) w = (appendChild (Message role s) w, Normal tt).
Proof.
  intros Hs. rewrite addMessage_string, formatMessage_string.
  by rewrite (format_plain_text s Hs).
Qed.

(** A sentence in French and Arabic. *)
Lemma formatMessage_plain_text_witness :
  plain_text bilingual_text = true
  ∧ @_formatMessage example_engine (JStr bilingual_text) = Normal bilingual_text.
Proof.
  split; [reflexivity|].
  apply (@formatMessage_plain_text example_engine bilingual_text user fresh_widget).
  reflexivity.
Defined.

(* ===================================================================== *)
(** ** The session identifier across page loads *)
(* ===================================================================== *)

Lemma session_create `{Engine} (now : Z) (random : spec_float) (st : Storage) :
  (ls_readable st = false ∨ ls_items st !! sessionKey = None
   ∨ ls_items st !! sessionKey = Some []) →
  _restoreOrCreateSessionId now random st =
    {| sr_id := lit "session_" ++ Number_toString (Number_of_Z now) ++ lit "_"
                ++ slice_2_10 (NumberToString36 random);
       sr_storage :=
         (setItem st sessionKey
            (lit "session_" ++ Number_toString (Number_of_Z now) ++ lit "_"
             ++ slice_2_10 (NumberToString36 random))).1;
       sr_warned := negb (ls_readable st) |}.
Proof.
  intros Hst. unfold _restoreOrCreateSessionId, getItem.
  destruct (ls_readable st) eqn:Hr; [|reflexivity].
  destruct Hst as [?|[->| ->]]; [done|reflexivity|reflexivity].
Qed.

Lemma session_restore `{Engine} (now : Z) (random : spec_float) (st : Storage)
    (c : N) (token : jsstring) :
  ls_readable st = true → ls_items st !! sessionKey = Some (c :: token) →
  _restoreOrCreateSessionId now random st =
    {| sr_id := c :: token; sr_storage := st; sr_warned := false |}.
Proof.
  intros Hr Hitem. unfold _restoreOrCreateSessionId, getItem. by rewrite Hr, Hitem.
Qed.

Lemma session_reload `{Engine} (now now' : Z)
    (random random' : spec_float) (st : Storage) :
  ls_readable st = true → ls_writable st = true →
  _restoreOrCreateSessionId now' random'
      (sr_storage (_restoreOrCreateSessionId now random st))
  = {| sr_id := sr_id (_restoreOrCreateSessionId now random st);
       sr_storage := sr_storage (_restoreOrCreateSessionId now random st);
       sr_warned := false |}.
Proof.
  intros Hr Hw.
  destruct (ls_items st !! sessionKey) as [[|c token]|] eqn:Hitem.
  - rewrite (session_create now random st) by auto.
    cbn [sr_id sr_storage]. unfold setItem. rewrite Hw. cbn [fst].
    change (lit "session_" ++ ?x) with (115 :: (lit "ession_" ++ x)).
    apply session_restore; [exact Hr|]. cbn. apply lookup_insert_eq.
  - rewrite (session_restore now random st c token Hr Hitem). cbn [sr_id sr_storage].
    by apply session_restore.
  - rewrite (session_create now random st) by auto.
    cbn [sr_id sr_storage]. unfold setItem. rewrite Hw. cbn [fst].
    change (lit "session_" ++ ?x) with (115 :: (lit "ession_" ++ x)).
    apply session_restore; [exact Hr|]. cbn. apply lookup_insert_eq.
Qed.

(** X4.  With a storage that can be read and written, the identifier is
    stable across page loads: a second call, at any later time and with
    any other random draw, returns the identifier the first call returned
    and leaves the storage as the first call left it. *)
Theorem session_id_stable_across_loads `{Engine} (now now' : Z)
    (random random' : spec_float) (st : Storage) :
  ls_readable st = true → ls_writable st = true →
  _restoreOrCreateSessionId now' random'
      (sr_storage (_restoreOrCreateSessionId now random st))
  = {| sr_id := sr_id (_restoreOrCreateSessionId now random st);
       sr_storage := sr_storage (_restoreOrCreateSessionId now random st);
       sr_warned := false |}.
Proof. apply session_reload. Qed.

(** A first visit, then a second one a day later. *)
Lemma session_id_stable_witness :
  (ls_readable empty_storage = true ∧ ls_writable empty_storage = true)
  ∧ sr_id (@_restoreOrCreateSessionId example_engine 1700086400000 twelve_and_a_half
             (sr_storage (@_restoreOrCreateSessionId example_engine
                            1700000000000 one_half empty_storage)))
    = sr_id (@_restoreOrCreateSessionId example_engine 1700000000000 one_half
               empty_storage).
Proof.
  split; [by split|].
  by rewrite (@session_id_stable_across_loads example_engine 1700000000000
                1700086400000 one_half twelve_and_a_half empty_storage eq_refl eq_refl).
Defined.

(** X5.  A stored token that is not empty is returned as it is, whatever
    the clock and the random draw; nothing is written and nothing is
    reported.  Only the key [imobot_session_id] is ever written: every
    other item of the storage is left alone by every call. *)
Theorem session_id_restored `{Engine} (now : Z) (random : spec_float)
    (st : Storage) (c : N) (token : jsstring) :
  ls_readable st = true → ls_items st !! sessionKey = Some (c :: token) →
  _restoreOrCreateSessionId now random st
    = {| sr_id := c :: token; sr_storage := st; sr_warned := false |}
  ∧ (∀ now' random' st' k,
       k ≠ sessionKey →
       ls_items (sr_storage (_restoreOrCreateSessionId now' random' st')) !! k
       = ls_items st' !! k).
Proof.
  intros Hr Hitem. split; [by apply session_restore|].
  intros now' random' st' k Hk. unfold _restoreOrCreateSessionId, getItem, setItem.
  destruct (ls_readable st'); [destruct (ls_items st' !! sessionKey) as [[|? ?]|]|];
    destruct (ls_writable st'); cbn; try done; by rewrite lookup_insert_ne.
Qed.

(** A returning visitor keeps the token. *)
Lemma session_id_restored_witness :
  (ls_readable returning_visitor = true
   ∧ ls_items returning_visitor !! sessionKey
     = Some (lit "session_1690000000000_abcd1234"))
  ∧ @_restoreOrCreateSessionId example_engine 1700000000000 one_half
      returning_visitor
    = {| sr_id := lit "session_1690000000000_abcd1234";
         sr_storage := returning_visitor; sr_warned := false |}.
Proof.
  split; [by split|].
  apply (@session_id_restored example_engine 1700000000000 one_half
           returning_visitor 115 (lit "ession_1690000000000_abcd1234"));
    reflexivity.
Defined.

(** X6.  A stored token that is the empty string counts as absent: a new
    token is synthesized, and a storage that accepts the write holds it
    afterwards in place of the empty one. *)
Theorem session_id_empty_token_replaced `{Engine} (now : Z) (random : spec_float)
    (st : Storage) :
  ls_readable st = true → ls_items st !! sessionKey = Some [] →
  sr_id (_restoreOrCreateSessionId now random st)
    = lit "session_" ++ Number_toString (Number_of_Z now) ++ lit "_"
      ++ slice_2_10 (NumberToString36 random)
  ∧ (ls_writable st = true →
       ls_items (sr_storage (_restoreOrCreateSessionId now random st)) !! sessionKey
       = Some (sr_id (_restoreOrCreateSessionId now random st))).
Proof.
  intros Hr Hitem. rewrite (session_create now random st) by auto.
  cbn [sr_id sr_storage]. split; [reflexivity|].
  intros Hw. unfold setItem. rewrite Hw. cbn. apply lookup_insert_eq.
Qed.

(** A blanked token is replaced on the next load. *)
Lemma session_id_empty_token_witness :
  (ls_readable blanked_storage = true
   ∧ ls_items blanked_storage !! sessionKey = Some [])
  ∧ sr_id (@_restoreOrCreateSessionId example_engine 1700000000000 one_half
             blanked_storage)
    = lit "session_1700000000000_i".
Proof.
  split; [by split|].
  destruct (@session_id_empty_token_replaced example_engine 1700000000000 one_half
              blanked_storage eq_refl eq_refl) as [Hid _].
  rewrite Hid. reflexivity.
Defined.

(* ===================================================================== *)
(** ** Trimming the typed text *)
(* ===================================================================== *)

Lemma drop_while_nil_iff {A} (f : A → bool) (l : list A) :
  drop_while f l = [] ↔ forallb f l = true.
Proof.
  induction l as [|a l IH]; [done|]. cbn [drop_while forallb].
  destruct (f a); [exact IH|]. split; discriminate.
Qed.

Lemma drop_while_head {A} (f : A → bool) (l : list A) (x : A) (r : list A) :
  drop_while f l = x :: r → f x = false.
Proof.
  induction l as [|a l IH]; [done|]. cbn [drop_while].
  destruct (f a) eqn:Ha; [exact IH|]. by intros [= <- _].
Qed.

Lemma drop_while_id {A} (f : A → bool) (x : A) (l : list A) :
  f x = false → drop_while f (x :: l) = x :: l.
Proof. intros Hx. cbn [drop_while]. by rewrite Hx. Qed.

Lemma drop_while_split {A} (f : A → bool) (l : list A) :
  ∃ k, l = k ++ drop_while f l ∧ forallb f k = true.
Proof.
  induction l as [|a l (k & Hk & Hf)]; [by exists []|]. cbn [drop_while].
  destruct (f a) eqn:Ha; [|by exists []].
  exists (a :: k). split; [cbn; by rewrite <- Hk|]. cbn. by rewrite Ha.
Qed.

Lemma trim_ends (s : jsstring) :
  match trim s with
  | [] => True
  | c :: _ => isSpace c = false
  end
  ∧ match rev (trim s) with
    | [] => True
    | c :: _ => isSpace c = false
    end.
Proof.
  unfold trim. rewrite rev_involutive.
  set (a := drop_while isSpace s).
  destruct (drop_while_split isSpace (rev a)) as (k & Hk & _).
  set (b := drop_while isSpace (rev a)) in *.
  split.
  - apply (f_equal (@rev N)) in Hk. rewrite rev_involutive, rev_app_distr in Hk.
    destruct (rev b) as [|c r] eqn:Hb; [done|].
    cbn [app] in Hk. by apply (drop_while_head isSpace s c (r ++ rev k)).
  - destruct b as [|c r] eqn:Hb; [done|].
    by apply (drop_while_head isSpace (rev a) c r).
Qed.

Lemma trim_fixed (s : jsstring) :
  match s with [] => True | c :: _ => isSpace c = false end →
  match rev s with [] => True | c :: _ => isSpace c = false end →
  trim s = s.
Proof.
  intros Hhead Hlast. unfold trim.
  destruct s as [|c s]; [reflexivity|]. rewrite (drop_while_id _ _ _ Hhead).
  destruct (rev (c :: s)) as [|d r] eqn:Hrev.
  - apply (f_equal (@rev N)) in Hrev. by rewrite rev_involutive in Hrev.
  - rewrite (drop_while_id _ _ _ Hlast), <- Hrev. apply rev_involutive.
Qed.

Lemma trim_idempotent (s : jsstring) : trim (trim s) = trim s.
Proof. destruct (trim_ends s). by apply trim_fixed. Qed.

Lemma trim_nil_iff (s : jsstring) : trim s = [] ↔ forallb isSpace s = true.
Proof.
  unfold trim. rewrite <- drop_while_nil_iff. split.
  - intros Ht. apply (f_equal (@rev N)) in Ht. rewrite rev_involutive in Ht. cbn in Ht.
    destruct (drop_while isSpace s) as [|c a] eqn:Ha; [done|].
    destruct (drop_while_split isSpace (rev (c :: a))) as (k & Hk & Hf).
    rewrite Ht, app_nil_r in Hk. subst k.
    rewrite forallb_forall in Hf. pose proof (drop_while_head _ _ _ _ Ha) as Hc.
    rewrite (Hf c) in Hc; [done|]. apply in_rev. rewrite rev_involutive. by left.
  - by intros ->.
Qed.

(** The text [sendMessage] works with neither starts nor ends with white
    space or a line terminator, trimming it again changes nothing, and it
    is empty exactly when the typed text holds nothing else. *)
Lemma trimmed_text_has_no_outer_space (s : jsstring) :
  match trim s with [] => True | c :: _ => isSpace c = false end
  ∧ match rev (trim s) with [] => True | c :: _ => isSpace c = false end
  ∧ trim (trim s) = trim s
  ∧ (trim s = [] ↔ forallb isSpace s = true).
Proof.
  destruct (trim_ends s) as [H1 H2].
  split; [exact H1|]. split; [exact H2|].
  split; [apply trim_idempotent|apply trim_nil_iff].
Qed.

(** X7.  A text made only of white space and line terminators is never
    sent: [sendMessage] leaves the page as it is, the typed blanks
    included. *)
Theorem blank_text_is_not_sent `{Engine} (w : Widget) :
  forallb isSpace (messageInput_value w) = true → sendMessage w = w.
Proof.
  intros Hblank. rewrite sendMessage_unfold.
  apply trim_nil_iff in Hblank. rewrite Hblank. by rewrite bool_decide_eq_true_2.
Qed.

(** Blanks, a tab, a line feed and a no-break space. *)
Lemma blank_text_witness :
  forallb isSpace (messageInput_value typed_blanks) = true
  ∧ @sendMessage example_engine typed_blanks = typed_blanks.
Proof.
  split; [reflexivity|].
  apply (@blank_text_is_not_sent example_engine typed_blanks). reflexivity.
Defined.

(* ===================================================================== *)
(** ** The renderer only appends to the log *)
(* ===================================================================== *)

Lemma log_only_refl (w : Widget) : log_only w w.
Proof.
  repeat split; try done; try lia. exists []. by rewrite app_nil_r.
Qed.

Lemma log_only_trans (w1 w2 w3 : Widget) :
  log_only w1 w2 → log_only w2 w3 → log_only w1 w3.
Proof.
  intros (A1 & A2 & A3 & A4 & A5 & A6 & A7 & A8 & A9 & A10 & a & Aa & Af)
         (B1 & B2 & B3 & B4 & B5 & B6 & B7 & B8 & B9 & B10 & b & Bb & Bf).
  repeat split; try congruence; try lia.
  exists (a ++ b). split; [by rewrite Bb, Aa, app_assoc|].
  by rewrite forallb_app, Af, Bf.
Qed.

Lemma appends_only_ret {A} (a : A) : appends_only (mret a : Action A).
Proof. intros w. apply log_only_refl. Qed.

Lemma appends_only_eval {A} (c : completion A) : appends_only (eval c).
Proof. intros w. apply log_only_refl. Qed.

Lemma appends_only_bind {A B} (m : Action A) (k : A → Action B) :
  appends_only m → (∀ a, appends_only (k a)) → appends_only (m ≫= k).
Proof.
  intros Hm Hk w. unfold mbind, Action_bind.
  specialize (Hm w). destruct (m w) as [w1 [a|e]]; [|exact Hm].
  eapply log_only_trans; [exact Hm|apply Hk].
Qed.

Lemma appends_only_when (b : bool) (a : Action unit) :
  appends_only a → appends_only (when b a).
Proof. intros Ha. destruct b; [exact Ha|apply appends_only_ret]. Qed.

Lemma appends_only_appendChild (n : Node) :
  from_bot n = true → appends_only (exec (appendChild n)).
Proof.
  intros Hn w. repeat split; try done; try (cbn; lia).
  exists [n]. split; [reflexivity|]. cbn. by rewrite Hn.
Qed.

Lemma appends_only_increment : appends_only (exec increment_messageCount).
Proof.
  intros w. repeat split; try done; try (cbn; lia).
  exists []. by rewrite app_nil_r.
Qed.

Lemma appends_only_addMessage `{Engine} (v : JsValue) :
  appends_only (_addMessage bot v).
Proof.
  unfold _addMessage. apply appends_only_bind; [apply appends_only_eval|].
  intros html. by apply appends_only_appendChild.
Qed.

Lemma appends_only_displayParts `{Engine} (parts : list JsValue) :
  appends_only (_displayParts parts).
Proof.
  unfold _displayParts. destruct parts; [apply appends_only_ret|].
  apply appends_only_bind; [apply appends_only_eval|].
  intros cards. by apply appends_only_appendChild.
Qed.

Lemma appends_only_renderSuggestions `{Engine} (v : JsValue) :
  appends_only (_renderSuggestions v).
Proof.
  unfold _renderSuggestions.
  destruct (default_arg v (JArr [])) as [| | | | |[|x l]|]; try apply appends_only_ret.
  apply appends_only_bind; [apply appends_only_eval|].
  intros buttons. by apply appends_only_appendChild.
Qed.

Lemma appends_only_handleServerResponse `{Engine} (data : JsValue) :
  appends_only (_handleServerResponse data).
Proof.
  unfold _handleServerResponse.
  repeat first
    [ apply appends_only_eval
    | apply appends_only_ret
    | apply appends_only_addMessage
    | apply appends_only_displayParts
    | apply appends_only_renderSuggestions
    | apply appends_only_when
    | apply appends_only_increment
    | apply appends_only_bind; [|intros ?]
    | match goal with |- appends_only (if ?b then _ else _) => destruct b end ].
Qed.

(** X8.  Whatever the server sent and whether or not rendering throws,
    [_handleServerResponse] only appends nodes to the log (never a typing
    indicator, never a message in the name of the user) and may increment
    the message counter: the earlier messages,
    the busy flag, the send button, the typed text, the notifications, the
    requests and the session identifier are as they were. *)
Theorem handleServerResponse_only_appends `{Engine} (data : JsValue) (w : Widget) :
  log_only w (_handleServerResponse data w).1.
Proof. apply appends_only_handleServerResponse. Qed.

(* ===================================================================== *)
(** ** What every turn keeps *)
(* ===================================================================== *)

Lemma visible_app (a b : list Node) : visible (a ++ b) = visible a ++ visible b.
Proof. unfold visible. apply List.filter_app. Qed.

Lemma count_typing_app (a b : list Node) :
  count_typing (a ++ b) = (count_typing a + count_typing b)%nat.
Proof. unfold count_typing. by rewrite List.filter_app, length_app. Qed.

Lemma from_bot_not_typing (added : list Node) :
  forallb from_bot added = true → forallb not_typing added = true.
Proof.
  induction added as [|n l IH]; [done|]. cbn [forallb].
  intros [Hn Hl]%andb_true_iff. rewrite (IH Hl), andb_true_r.
  by destruct n.
Qed.

Lemma count_typing_added (added : list Node) :
  forallb not_typing added = true → count_typing added = 0%nat.
Proof.
  unfold count_typing. induction added as [|n l IH]; [done|].
  cbn [forallb List.filter]. intros [Hn Hl]%andb_true_iff.
  rewrite Hn. cbn [negb]. by apply IH.
Qed.

Lemma user_bubbles_app (a b : list Node) :
  user_bubbles (a ++ b) = user_bubbles a ++ user_bubbles b.
Proof. unfold user_bubbles. apply omap_app. Qed.

Lemma user_bubbles_added (added : list Node) :
  forallb from_bot added = true → user_bubbles added = [].
Proof.
  induction added as [|n l IH]; [done|]. cbn [forallb].
  intros [Hn Hl]%andb_true_iff. specialize (IH Hl).
  destruct n as [[] ?| | | |]; try discriminate Hn; exact IH.
Qed.

Lemma node_without_typing_kind `{Engine} (n n' : Node) :
  node_without_typing n = Some n' →
  from_bot n = true ∧ from_bot n' = true.
Proof.
  destruct n as [r html| |children|buttons|]; cbn [node_without_typing];
    try discriminate.
  - destruct (change_first card_without_typing children); cbn [fmap option_fmap option_map];
      [|discriminate].
    by intros [= <-].
  - destruct (change_first chip_without_typing buttons); cbn [fmap option_fmap option_map];
      [|discriminate].
    by intros [= <-].
Qed.

Lemma remove_typing_cons `{Engine} (n : Node) (l : list Node) :
  not_typing n = true →
  remove_typing (n :: l)
  = match node_without_typing n with
    | Some n' => n' :: l
    | None => n :: remove_typing l
    end.
Proof. by destruct n. Qed.

Lemma user_bubbles_from_bot (n : Node) (l : list Node) :
  from_bot n = true → user_bubbles (n :: l) = user_bubbles l.
Proof. by destruct n as [[] ?| | | |]. Qed.

Lemma user_bubbles_cons (n : Node) (l l' : list Node) :
  user_bubbles l' = user_bubbles l → user_bubbles (n :: l') = user_bubbles (n :: l).
Proof.
  intros Hl. change (n :: l') with ([n] ++ l'). change (n :: l) with ([n] ++ l).
  by rewrite !user_bubbles_app, Hl.
Qed.

Lemma user_bubbles_remove_typing `{Engine} (l : list Node) :
  user_bubbles (remove_typing l) = user_bubbles l.
Proof.
  induction l as [|n l IH]; [done|].
  destruct (not_typing n) eqn:Hn; [|by destruct n].
  rewrite (remove_typing_cons n l Hn).
  destruct (node_without_typing n) as [n'|] eqn:Hn'.
  - destruct (node_without_typing_kind n n' Hn') as [Hb Hb'].
    by rewrite !user_bubbles_from_bot.
  - by apply user_bubbles_cons.
Qed.

(** Among nodes of the renderer there is no typing indicator before the
    removal and none after it. *)
Lemma count_typing_cons (n : Node) (l : list Node) :
  not_typing n = true → count_typing (n :: l) = count_typing l.
Proof. unfold count_typing. cbn [List.filter]. by intros ->. Qed.

Lemma visible_cons (n : Node) (l : list Node) :
  not_typing n = true → visible (n :: l) = n :: visible l.
Proof. unfold visible. cbn [List.filter]. by intros ->. Qed.

Lemma from_bot_is_not_typing (n : Node) : from_bot n = true → not_typing n = true.
Proof. by destruct n. Qed.

Lemma count_typing_remove_added `{Engine} (added : list Node) :
  forallb from_bot added = true → count_typing (remove_typing added) = 0%nat.
Proof.
  induction added as [|n l IH]; [done|]. cbn [forallb].
  intros [Hn Hl]%andb_true_iff.
  rewrite (remove_typing_cons n l (from_bot_is_not_typing n Hn)).
  destruct (node_without_typing n) as [n'|] eqn:Hn'.
  - destruct (node_without_typing_kind n n' Hn') as [_ Hb'].
    rewrite (count_typing_cons n' l (from_bot_is_not_typing n' Hb')).
    apply count_typing_added, from_bot_not_typing, Hl.
  - rewrite (count_typing_cons _ _ (from_bot_is_not_typing n Hn)). by apply IH.
Qed.

(** On a log without injected markup, followed by nodes of the renderer,
    the removal takes the first typing indicator of the log; with none in
    the log, what it can change is among the nodes that follow. *)
Lemma remove_typing_untampered `{Engine} (l added : list Node) :
  forallb clean_node l = true → forallb from_bot added = true →
  (∃ added', visible (remove_typing (l ++ added)) = visible l ++ added')
  ∧ count_typing (remove_typing (l ++ added)) = pred (count_typing l).
Proof.
  intros Hl Ha. induction l as [|n l IH].
  - split; [by eexists|]. by apply count_typing_remove_added.
  - cbn [forallb] in Hl. apply andb_true_iff in Hl as [Hn Hl].
    destruct (IH Hl) as [[a' Hv] Hc].
    destruct (not_typing n) eqn:Hnt.
    + rewrite <- app_comm_cons, (remove_typing_cons n (l ++ added) Hnt).
      unfold clean_node in Hn.
      destruct (node_without_typing n); [discriminate|].
      rewrite !(visible_cons n _ Hnt), !(count_typing_cons n _ Hnt).
      split; [|done]. exists a'. by rewrite Hv.
    + destruct n; try discriminate Hnt.
      cbn [app remove_typing]. split.
      * exists (visible added). by rewrite visible_app.
      * rewrite count_typing_app.
        rewrite (count_typing_added added (from_bot_not_typing added Ha)).
        unfold count_typing. cbn [List.filter not_typing negb length]. lia.
Qed.

Lemma quiet_refl (w : Widget) : quiet w w.
Proof. by repeat split. Qed.

Lemma quiet_trans (w1 w2 w3 : Widget) : quiet w1 w2 → quiet w2 w3 → quiet w1 w3.
Proof.
  intros (A1 & A2 & A3 & A4) (B1 & B2 & B3 & B4).
  repeat split; congruence.
Qed.

Lemma quiet_log_only (w w' : Widget) : log_only w w' → quiet w w'.
Proof.
  intros (A1 & A2 & A3 & A4 & A5 & A6 & A7 & A8 & A9 & A10 & a & Aa & Af).
  repeat split; try done.
  by rewrite Aa, user_bubbles_app, (user_bubbles_added a Af), app_nil_r.
Qed.

(** A change of a field other than the log, the host, the session and
    the requests. *)
Lemma quiet_same (w w' : Widget) :
  hostname w' = hostname w → sessionId w' = sessionId w →
  requests w' = requests w → messages w' = messages w →
  quiet w w'.
Proof. intros H1 H2 H3 H4. repeat split; try done. by rewrite H4. Qed.

Lemma quiet_appendChild (n : Node) (w : Widget) :
  from_bot n = true → quiet w (appendChild n w).
Proof. intros Hn. apply quiet_log_only. by apply (appends_only_appendChild n Hn w). Qed.

Lemma quiet_console_log (e : LogEntry) (w : Widget) : quiet w (console_log e w).
Proof. by apply quiet_same. Qed.

Lemma quiet_showToast (message type : jsstring) (w : Widget) :
  quiet w (_showToast message type w).
Proof. by apply quiet_same. Qed.

Lemma quiet_set_suspended (l : list Suspended) (w : Widget) :
  quiet w (set_suspended l w).
Proof. by apply quiet_same. Qed.

Lemma quiet_set_messageInput_value (t : jsstring) (w : Widget) :
  quiet w (set_messageInput_value t w).
Proof. by apply quiet_same. Qed.

Lemma quiet_hideTyping `{Engine} (w : Widget) : quiet w (_hideTyping w).
Proof.
  repeat split; try done.
  unfold _hideTyping. widget_simpl. apply user_bubbles_remove_typing.
Qed.

Ltac quiet_peel lem := eapply quiet_trans; [|apply lem].

Lemma catch_block_unfold `{Engine} (err : JsError) (w : Widget) :
  catch_block err w =
    _showToast (lit "Network error - Is the backend running?") (lit "error")
      (appendChild
         (Message bot
            (format_replacements
               (escape_replacements
                  ([55357; 56588] ++ lit
                     " Connection error. Please check if the backend server is running on port 5000."))))
         (console_log (LogNetworkError err) (_hideTyping w))).
Proof. unfold catch_block. by rewrite addMessage_string. Qed.

Lemma quiet_catch_block `{Engine} (err : JsError) (w : Widget) :
  quiet w (catch_block err w).
Proof.
  rewrite catch_block_unfold.
  quiet_peel quiet_showToast.
  eapply quiet_trans; [|by apply quiet_appendChild].
  quiet_peel quiet_console_log.
  apply quiet_hideTyping.
Qed.

Lemma quiet_after_fetch `{Engine} (res : completion N) (w : Widget) :
  quiet w (after_fetch res w).
Proof.
  unfold after_fetch. destruct res as [status|err]; [|apply quiet_catch_block].
  destruct (negb (res_ok status));
    (quiet_peel quiet_set_suspended; apply quiet_hideTyping).
Qed.

Lemma after_text_unfold `{Engine} (status : N) (body : completion jsstring)
    (w : Widget) :
  after_text status body w =
    _showToast (lit "Server error: " ++ lit (pretty status)) (lit "error")
      (appendChild
         (Message bot
            (format_replacements
               (escape_replacements
                  ([9888; 65039] ++ lit " Server error (" ++ lit (pretty status)
                   ++ lit "). Please try again."))))
         (console_log
            (LogServerError status
               match body with Normal t => t | Throw _ => [] end) w)).
Proof. unfold after_text. by rewrite addMessage_string. Qed.

Lemma quiet_after_text `{Engine} (status : N) (body : completion jsstring)
    (w : Widget) :
  quiet w (after_text status body w).
Proof.
  rewrite after_text_unfold.
  quiet_peel quiet_showToast.
  eapply quiet_trans; [|by apply quiet_appendChild].
  apply quiet_console_log.
Qed.

Lemma quiet_after_json `{Engine} (data : completion JsValue) (w : Widget) :
  quiet w (after_json data w).
Proof.
  unfold after_json. destruct data as [data|err]; [|apply quiet_catch_block].
  pose proof (quiet_log_only _ _ (appends_only_handleServerResponse data w)) as Hq.
  destruct (_handleServerResponse data w) as [w2 [[]|e]]; cbn [fst] in Hq; [exact Hq|].
  eapply quiet_trans; [exact Hq|apply quiet_catch_block].
Qed.

Lemma quiet_timers `{Engine} (w : Widget) :
  quiet w (after_welcome_delay w)
  ∧ quiet w (after_greeting_delay w)
  ∧ quiet w (after_chips_delay w).
Proof.
  split; [|split].
  - unfold after_welcome_delay.
    quiet_peel quiet_set_suspended. by apply quiet_appendChild.
  - unfold after_greeting_delay. rewrite addMessage_string. cbn [fst].
    quiet_peel quiet_set_suspended. by apply quiet_appendChild.
  - unfold after_chips_delay. apply quiet_log_only, appends_only_renderSuggestions.
Qed.

Lemma quiet_resume `{Engine} (ev : Event) (k : Suspended)
    (task : Widget → Widget) (w : Widget) :
  resume ev k = Some task → quiet w (task w).
Proof.
  destruct (quiet_timers w) as (T1 & T2 & T3).
  destruct ev as [| | |i res|i body|i data|i]; try discriminate;
    destruct k as [|status| | | |]; cbn [resume]; intros Hk;
    try discriminate Hk; injection Hk as <-.
  - apply quiet_after_fetch.
  - apply quiet_after_text.
  - apply quiet_after_json.
  - exact T1.
  - exact T2.
  - exact T3.
Qed.

(** What a [sendMessage] that passes its guard changes. *)
Lemma sendMessage_turn `{Engine} (w : Widget) :
  quiet w (sendMessage w)
  ∨ (sendable (trim (messageInput_value w))
     ∧ hostname (sendMessage w) = hostname w
     ∧ sessionId (sendMessage w) = sessionId w
     ∧ requests (sendMessage w)
       = requests w ++ [post_request (hostname w) (trim (messageInput_value w))
                                     (sessionId w)]
     ∧ user_bubbles (messages (sendMessage w))
       = user_bubbles (messages w) ++ [bubble_of (trim (messageInput_value w))]).
Proof.
  rewrite sendMessage_unfold.
  destruct (bool_decide _) eqn:Hraw; [left; apply quiet_refl|].
  destruct (isTyping w) eqn:Hbusy; [left; apply quiet_refl|].
  right. apply bool_decide_eq_false in Hraw. cbn [orb].
  split; [split; [done|apply trim_idempotent]|].
  repeat split; try done.
  widget_simpl. by rewrite !user_bubbles_app.
Qed.

(** One turn: host and session stay, and a request is issued only by a
    send, for a text let through, which the log then shows as a message
    of the user. *)
Lemma step_turn `{Engine} (ev : Event) (w w' : Widget) :
  step ev w = Some w' →
  hostname w' = hostname w ∧ sessionId w' = sessionId w
  ∧ ((requests w' = requests w
      ∧ user_bubbles (messages w') = user_bubbles (messages w))
     ∨ (is_send ev = true
        ∧ ∃ raw, sendable raw
                 ∧ requests w' = requests w
                                 ++ [post_request (hostname w) raw (sessionId w)]
                 ∧ user_bubbles (messages w')
                   = user_bubbles (messages w) ++ [bubble_of raw])).
Proof.
  intros Hstep.
  assert (Hquiet : ∀ v, quiet w v →
    hostname v = hostname w ∧ sessionId v = sessionId w
    ∧ ((requests v = requests w
        ∧ user_bubbles (messages v) = user_bubbles (messages w))
       ∨ (is_send ev = true
          ∧ ∃ raw, sendable raw
                   ∧ requests v = requests w
                                  ++ [post_request (hostname w) raw (sessionId w)]
                   ∧ user_bubbles (messages v)
                     = user_bubbles (messages w) ++ [bubble_of raw]))).
  { intros v (Q1 & Q2 & Q3 & Q4). repeat split; auto. }
  assert (Hsend : ∀ w0, quiet w w0 → is_send ev = true →
    w' = sendMessage w0 →
    hostname w' = hostname w ∧ sessionId w' = sessionId w
    ∧ ((requests w' = requests w
        ∧ user_bubbles (messages w') = user_bubbles (messages w))
       ∨ (is_send ev = true
          ∧ ∃ raw, sendable raw
                   ∧ requests w' = requests w
                                   ++ [post_request (hostname w) raw (sessionId w)]
                   ∧ user_bubbles (messages w')
                     = user_bubbles (messages w) ++ [bubble_of raw]))).
  { intros w0 Hq0 Hev ->.
    destruct (sendMessage_turn w0) as [Hq|(Hraw & S1 & S2 & S3 & S4)].
    - apply Hquiet. by eapply quiet_trans.
    - destruct Hq0 as (E1 & E2 & E3 & E4).
      split; [congruence|]. split; [congruence|].
      right. split; [done|].
      exists (trim (messageInput_value w0)).
      split; [done|]. by rewrite S3, S4, E1, E2, E3, E4. }
  destruct ev; cbn [step] in Hstep.
  - injection Hstep as <-. apply Hquiet. apply quiet_set_messageInput_value.
  - injection Hstep as <-. by apply (Hsend w (quiet_refl w)).
  - injection Hstep as <-.
    by apply (Hsend (set_messageInput_value (normalize_newlines label) w));
      [apply quiet_set_messageInput_value|..].
  - cbn [resumed mbind option_bind] in Hstep.
    destruct (suspended w !! i) as [k|]; [|discriminate]. cbn [mbind option_bind] in Hstep.
    destruct (resume _ k) as [task|] eqn:Hk; [|discriminate]. injection Hstep as <-.
    apply Hquiet. eapply quiet_trans; [|by eapply quiet_resume]. apply quiet_set_suspended.
  - cbn [resumed mbind option_bind] in Hstep.
    destruct (suspended w !! i) as [k|]; [|discriminate]. cbn [mbind option_bind] in Hstep.
    destruct (resume _ k) as [task|] eqn:Hk; [|discriminate]. injection Hstep as <-.
    apply Hquiet. eapply quiet_trans; [|by eapply quiet_resume]. apply quiet_set_suspended.
  - cbn [resumed mbind option_bind] in Hstep.
    destruct (suspended w !! i) as [k|]; [|discriminate]. cbn [mbind option_bind] in Hstep.
    destruct (resume _ k) as [task|] eqn:Hk; [|discriminate]. injection Hstep as <-.
    apply Hquiet. eapply quiet_trans; [|by eapply quiet_resume]. apply quiet_set_suspended.
  - cbn [resumed mbind option_bind] in Hstep.
    destruct (suspended w !! i) as [k|]; [|discriminate]. cbn [mbind option_bind] in Hstep.
    destruct (resume _ k) as [task|] eqn:Hk; [|discriminate]. injection Hstep as <-.
    apply Hquiet. eapply quiet_trans; [|by eapply quiet_resume]. apply quiet_set_suspended.
Qed.

(** A run of turns: the same, with the texts it sent. *)
Lemma run_trace `{Engine} (evs : list Event) (w w' : Widget) :
  run evs w = Some w' →
  hostname w' = hostname w ∧ sessionId w' = sessionId w
  ∧ ∃ raws, requests w' = requests w
                          ++ map (fun raw => post_request (hostname w) raw (sessionId w)) raws
            ∧ user_bubbles (messages w')
              = user_bubbles (messages w) ++ map bubble_of raws
            ∧ Forall sendable raws
            ∧ (length raws ≤ sends evs)%nat.
Proof.
  revert w. induction evs as [|ev evs IH]; intros w Hrun.
  - injection Hrun as <-. repeat split; try done.
    exists []. cbn [map]. rewrite !app_nil_r.
    repeat split; [constructor|cbn; lia].
  - cbn [run mbind option_bind] in Hrun.
    destruct (step ev w) as [w1|] eqn:Hstep; [|discriminate].
    cbn [mbind option_bind] in Hrun.
    destruct (step_turn ev w w1 Hstep) as (S1 & S2 & Sr).
    destruct (IH w1 Hrun) as (R1 & R2 & raws & Rn & Rb & Rwf & Rlen).
    split; [congruence|]. split; [congruence|].
    rewrite S1, S2 in Rn. unfold sends in *. cbn [List.filter].
    destruct Sr as [[Sr Sb]|(Hev & raw & Hraw & Sr & Sb)].
    + exists raws. rewrite Rn, Rb, Sr, Sb. repeat split; [done|].
      destruct (is_send ev); cbn [length]; lia.
    + exists (raw :: raws). cbn [map].
      rewrite Rn, Rb, Sr, Sb, <- !app_assoc. repeat split.
      * by constructor.
      * rewrite Hev. cbn [length]. lia.
Qed.

(** X9. Every request the widget makes in a page load is a POST to the
    chat endpoint of the page's host with the two JSON headers, and its
    body is the payload of a non-empty text without outer white space
    together with the session identifier the widget was constructed
    with; neither the host nor the identifier changes. *)
Theorem every_request_is_a_well_formed_post `{Engine}
    (host sid : jsstring) (evs : list Event) (w' : Widget) :
  run evs (new_IMOBOTChat host sid) = Some w' →
  hostname w' = host ∧ sessionId w' = sid
  ∧ Forall (well_formed_request host sid) (requests w').
Proof.
  intros Hrun.
  destruct (run_trace evs _ w' Hrun) as (R1 & R2 & raws & Rn & _ & Rwf & _).
  repeat split; [done|done|]. rewrite Rn. cbn [requests new_IMOBOTChat app].
  apply Forall_map. eapply Forall_impl; [exact Rwf|].
  intros raw [Hne Htrim]. by exists raw.
Qed.

Lemma every_request_witness :
  ∃ w', @run example_engine two_exchanges fresh_widget = Some w'
        ∧ length (requests w') = 2%nat
        ∧ Forall (well_formed_request (lit "localhost")
                    (lit "session_1700000000000_k3j9x2ab")) (requests w').
Proof.
  eexists. split; [vm_compute; reflexivity|]. split; [reflexivity|].
  apply (@every_request_is_a_well_formed_post example_engine
           (lit "localhost") (lit "session_1700000000000_k3j9x2ab")
           two_exchanges).
  vm_compute. reflexivity.
Defined.

(** X10. Requests are issued by sends only, one at most for each: over any
    run of turns the requests made before are kept in order, and the
    number added is at most the number of send events.  In particular a
    failed request (rejected fetch, HTTP error, unreadable body) is never
    repeated. *)
Theorem no_request_without_a_send `{Engine}
    (evs : list Event) (w w' : Widget) :
  run evs w = Some w' →
  ∃ new, requests w' = requests w ++ new ∧ (length new ≤ sends evs)%nat.
Proof.
  intros Hrun.
  destruct (run_trace evs w w' Hrun) as (_ & _ & raws & Rn & _ & _ & Rlen).
  eexists. split; [exact Rn|]. by rewrite length_map.
Qed.

Lemma no_request_without_a_send_witness :
  ∃ w', @run example_engine overlapping_sends fresh_widget = Some w'
        ∧ ∃ new, requests w' = requests fresh_widget ++ new
                 ∧ (length new ≤ 3)%nat.
Proof.
  eexists. split; [vm_compute; reflexivity|].
  apply (@no_request_without_a_send example_engine overlapping_sends fresh_widget).
  vm_compute. reflexivity.
Defined.

(** *** The log and the typing indicator *)

Lemma tidy_refl (w : Widget) : tidy w w.
Proof. split; [|done]. exists []. by rewrite app_nil_r. Qed.

Lemma tidy_trans (w1 w2 w3 : Widget) : tidy w1 w2 → tidy w2 w3 → tidy w1 w3.
Proof.
  intros [[a Aa] At] [[b Bb] Bt]. split; [|auto].
  exists (a ++ b). by rewrite Bb, Aa, app_assoc.
Qed.

Lemma grown_refl (w : Widget) : grown w w.
Proof. split; [done|]. exists []. by rewrite app_nil_r. Qed.

Lemma grown_trans (w1 w2 w3 : Widget) : grown w1 w2 → grown w2 w3 → grown w1 w3.
Proof.
  intros [A1 (a & Aa & Af)] [B1 (b & Bb & Bf)]. split; [congruence|].
  exists (a ++ b). split; [by rewrite Bb, Aa, app_assoc|].
  by rewrite forallb_app, Af, Bf.
Qed.

Lemma grown_log_only (w w' : Widget) : log_only w w' → grown w w'.
Proof.
  intros (A1 & A2 & A3 & A4 & A5 & A6 & A7 & A8 & A9 & A10 & a & Aa & Af).
  split; [done|]. by exists a.
Qed.

Lemma grown_same (w w' : Widget) :
  messages w' = messages w → isTyping w' = isTyping w → grown w w'.
Proof. intros H1 H2. split; [done|]. exists []. by rewrite app_nil_r. Qed.

Lemma tidy_grown (w w' : Widget) : grown w w' → tidy w w'.
Proof.
  intros [A1 (a & Aa & Af)]. split.
  - exists (visible a). by rewrite Aa, visible_app.
  - unfold typing_invariant. rewrite Aa, A1, count_typing_app.
    rewrite (count_typing_added a (from_bot_not_typing a Af)). lia.
Qed.

Lemma tidy_same (w w' : Widget) :
  messages w' = messages w → isTyping w' = isTyping w → tidy w w'.
Proof. intros H1 H2. by apply tidy_grown, grown_same. Qed.

Lemma tidy_appendChild (n : Node) (w : Widget) :
  from_bot n = true → tidy w (appendChild n w).
Proof.
  intros Hn. apply tidy_grown, grown_log_only.
  by apply (appends_only_appendChild n Hn w).
Qed.

(** Hiding the indicator on a page that had no injected markup when the
    turn began and has since got nodes of the renderer only. *)
Lemma tidy_hideTyping `{Engine} (w w1 : Widget) :
  untampered w = true → grown w w1 → tidy w (_hideTyping w1).
Proof.
  intros Hw [A1 (a & Aa & Af)].
  destruct (remove_typing_untampered (messages w) a Hw Af) as [[a' Hv] Hc].
  split.
  - exists a'. unfold _hideTyping. widget_simpl. by rewrite Aa.
  - unfold typing_invariant, _hideTyping. widget_simpl. rewrite Aa, Hc.
    intros ->. by destruct (isTyping w).
Qed.

Lemma tidy_catch_block `{Engine} (err : JsError) (w w1 : Widget) :
  untampered w = true → grown w w1 → tidy w (catch_block err w1).
Proof.
  intros Hw Hg. rewrite catch_block_unfold.
  eapply tidy_trans; [|by apply tidy_same].
  eapply tidy_trans; [|by apply tidy_appendChild].
  eapply tidy_trans; [|by apply tidy_same].
  by apply tidy_hideTyping.
Qed.

Lemma tidy_after_fetch `{Engine} (res : completion N) (w w1 : Widget) :
  untampered w = true → grown w w1 → tidy w (after_fetch res w1).
Proof.
  intros Hw Hg. unfold after_fetch.
  destruct res as [status|err]; [|by apply tidy_catch_block].
  destruct (negb (res_ok status));
    (eapply tidy_trans; [by apply tidy_hideTyping|by apply tidy_same]).
Qed.

Lemma tidy_after_text `{Engine} (status : N) (body : completion jsstring)
    (w : Widget) :
  tidy w (after_text status body w).
Proof.
  rewrite after_text_unfold.
  eapply tidy_trans; [|by apply tidy_same].
  eapply tidy_trans; [|by apply tidy_appendChild].
  by apply tidy_same.
Qed.

Lemma tidy_after_json `{Engine} (data : completion JsValue) (w w1 : Widget) :
  untampered w = true → grown w w1 → tidy w (after_json data w1).
Proof.
  intros Hw Hg. unfold after_json.
  destruct data as [data|err]; [|by apply tidy_catch_block].
  pose proof (grown_log_only _ _ (appends_only_handleServerResponse data w1)) as Hg1.
  destruct (_handleServerResponse data w1) as [w2 [[]|e]]; cbn [fst] in Hg1.
  - apply tidy_grown. by eapply grown_trans.
  - apply tidy_catch_block; [done|]. by eapply grown_trans.
Qed.

Lemma tidy_timers `{Engine} (w : Widget) :
  tidy w (after_welcome_delay w)
  ∧ tidy w (after_greeting_delay w)
  ∧ tidy w (after_chips_delay w).
Proof.
  split; [|split].
  - unfold after_welcome_delay.
    eapply tidy_trans; [|by apply tidy_same]. by apply tidy_appendChild.
  - unfold after_greeting_delay. rewrite addMessage_string. cbn [fst].
    eapply tidy_trans; [|by apply tidy_same]. by apply tidy_appendChild.
  - unfold after_chips_delay.
    apply tidy_grown, grown_log_only, appends_only_renderSuggestions.
Qed.

Lemma tidy_resume `{Engine} (ev : Event) (k : Suspended)
    (task : Widget → Widget) (w w1 : Widget) :
  untampered w = true → grown w w1 →
  resume ev k = Some task → tidy w (task w1).
Proof.
  intros Hw Hg.
  destruct (tidy_timers w1) as (T1 & T2 & T3).
  pose proof (tidy_grown w w1 Hg) as Ht.
  destruct ev as [| | |i res|i body|i data|i]; try discriminate;
    destruct k as [|status| | | |]; cbn [resume]; intros Hk;
    try discriminate Hk; injection Hk as <-.
  - by apply tidy_after_fetch.
  - eapply tidy_trans; [exact Ht|apply tidy_after_text].
  - by apply tidy_after_json.
  - eapply tidy_trans; [exact Ht|exact T1].
  - eapply tidy_trans; [exact Ht|exact T2].
  - eapply tidy_trans; [exact Ht|exact T3].
Qed.

Lemma tidy_sendMessage `{Engine} (w : Widget) : tidy w (sendMessage w).
Proof.
  rewrite sendMessage_unfold.
  destruct (bool_decide _); [apply tidy_refl|].
  destruct (isTyping w) eqn:Hbusy; [apply tidy_refl|].
  cbn [orb]. split.
  - eexists. widget_simpl. rewrite !visible_app. reflexivity.
  - unfold typing_invariant. widget_simpl. rewrite Hbusy. intros Hw.
    rewrite !count_typing_app, Hw. reflexivity.
Qed.

Lemma tidy_step `{Engine} (ev : Event) (w w' : Widget) :
  untampered w = true → step ev w = Some w' → tidy w w'.
Proof.
  intros Hw Hstep.
  assert (Hres : ∀ i, (k ← suspended w !! i; task ← resume ev k;
                       Some (task (set_suspended (delete i (suspended w)) w)))
                      = Some w' → tidy w w').
  { intros i Hi.
    destruct (suspended w !! i) as [k|]; [|discriminate]. cbn [mbind option_bind] in Hi.
    destruct (resume ev k) as [task|] eqn:Hk; [|discriminate]. injection Hi as <-.
    eapply tidy_resume; [done| |exact Hk]. by apply grown_same. }
  destruct ev; cbn [step resumed mbind option_bind] in Hstep.
  - injection Hstep as <-. by apply tidy_same.
  - injection Hstep as <-. apply tidy_sendMessage.
  - injection Hstep as <-.
    eapply tidy_trans; [|apply tidy_sendMessage]. by apply tidy_same.
  - by apply (Hres i).
  - by apply (Hres i).
  - by apply (Hres i).
  - by apply (Hres i).
Qed.

Lemma tidy_run `{Engine} (evs : list Event) (w w' : Widget) :
  run evs w = Some w' → untampered_run evs w = true → tidy w w'.
Proof.
  revert w. induction evs as [|ev evs IH]; intros w Hrun Hun.
  - injection Hrun as <-. apply tidy_refl.
  - cbn [run mbind option_bind] in Hrun. cbn [untampered_run] in Hun.
    apply andb_true_iff in Hun as [Hw Hun].
    destruct (step ev w) as [w1|] eqn:Hstep; [|discriminate].
    cbn [mbind option_bind] in Hrun.
    eapply tidy_trans; [by eapply tidy_step|by apply IH].
Qed.

(** X11. As long as no turn of a page load starts with injected markup
    in the log that carries the id of the typing indicator, nothing that
    was shown is removed or reordered: over such a run of turns the log
    without the typing indicator only grows at its end. *)
Theorem visible_log_is_append_only `{Engine}
    (evs : list Event) (w w' : Widget) :
  run evs w = Some w' → untampered_run evs w = true →
  ∃ added, visible (messages w') = visible (messages w) ++ added.
Proof. intros Hrun Hun. by destruct (tidy_run evs w w' Hrun Hun) as [Ha _]. Qed.

Lemma visible_log_witness :
  ∃ w', @run example_engine (drop 5 two_exchanges)
          (default fresh_widget (@run example_engine (take 5 two_exchanges) fresh_widget))
        = Some w'
        ∧ ∃ added,
            visible (messages w')
            = visible (messages (default fresh_widget
                 (@run example_engine (take 5 two_exchanges) fresh_widget))) ++ added.
Proof.
  eexists. split; [vm_compute; reflexivity|].
  apply (@visible_log_is_append_only example_engine (drop 5 two_exchanges)).
  - vm_compute. reflexivity.
  - vm_compute. reflexivity.
Defined.

(** X12. As long as no turn of a page load starts with injected markup
    in the log that carries the id of the typing indicator, the typing
    indicator is in the log exactly once while the busy flag is set and
    not at all while it is clear. *)
Theorem typing_indicator_matches_busy_flag `{Engine}
    (host sid : jsstring) (evs : list Event) (w' : Widget) :
  run evs (new_IMOBOTChat host sid) = Some w' →
  untampered_run evs (new_IMOBOTChat host sid) = true →
  typing_invariant w'.
Proof.
  intros Hrun Hun. destruct (tidy_run evs _ w' Hrun Hun) as [_ Ht].
  apply Ht. reflexivity.
Qed.

Lemma typing_indicator_witness :
  ∃ w', @run example_engine overlapping_sends fresh_widget = Some w'
        ∧ isTyping w' = true ∧ typing_invariant w'.
Proof.
  eexists. split; [vm_compute; reflexivity|]. split; [reflexivity|].
  apply (@typing_indicator_matches_busy_flag example_engine
           (lit "localhost") (lit "session_1700000000000_k3j9x2ab")
           overlapping_sends).
  - vm_compute. reflexivity.
  - vm_compute. reflexivity.
Defined.

(** Without that proviso the indicator can stay.  A chip whose label is
    markup with the id of the typing indicator comes before the indicator
    of the next exchange in the log; when that exchange's response
    arrives, the element of the chip is removed, the indicator stays, and
    the busy flag is clear. *)
Lemma injected_id_keeps_the_indicator :
  @untampered_run example_engine send_after_injected_id fresh_widget = false
  ∧ ((fun w => (isTyping w, count_typing (messages w), last (messages w)))
       <$> @run example_engine send_after_injected_id fresh_widget)
    = Some (false, 1%nat, Some TypingIndicator).
Proof. vm_compute. repeat split. Qed.

(** X13. What the log shows as sent is what was sent: in every state a
    page load can reach, the messages of the user in the log and the
    requests made correspond one to one and in order; the message is the
    escaped and formatted text whose payload the request carries. *)
Theorem user_messages_mirror_requests `{Engine}
    (host sid : jsstring) (evs : list Event) (w' : Widget) :
  run evs (new_IMOBOTChat host sid) = Some w' →
  ∃ raws, Forall sendable raws
          ∧ requests w' = map (fun raw => post_request host raw sid) raws
          ∧ user_bubbles (messages w') = map bubble_of raws.
Proof.
  intros Hrun.
  destruct (run_trace evs _ w' Hrun) as (_ & _ & raws & Rn & Rb & Rwf & _).
  by exists raws.
Qed.

Lemma user_messages_witness :
  ∃ w', @run example_engine two_exchanges fresh_widget = Some w'
        ∧ ∃ raws, Forall sendable raws
                  ∧ requests w' = map (fun raw => post_request (lit "localhost") raw
                                         (lit "session_1700000000000_k3j9x2ab")) raws
                  ∧ user_bubbles (messages w') = map bubble_of raws.
Proof.
  eexists. split; [vm_compute; reflexivity|].
  apply (@user_messages_mirror_requests example_engine
           (lit "localhost") (lit "session_1700000000000_k3j9x2ab")
           two_exchanges).
  vm_compute. reflexivity.
Defined.

(* ===================================================================== *)
(** ** When the renderer throws *)
(* ===================================================================== *)

Lemma bind_throws_m {A B} (m : Action A) (k : A → Action B) (w : Widget) :
  throws (m w).2 = true → throws ((m ≫= k) w).2 = true.
Proof.
  unfold mbind, Action_bind. destruct (m w) as [w1 [a|e]]; [discriminate|done].
Qed.

Lemma bind_throws_k {A B} (m : Action A) (k : A → Action B) (w : Widget) :
  (∀ a w1, throws (k a w1).2 = true) → throws ((m ≫= k) w).2 = true.
Proof.
  intros Hk. unfold mbind, Action_bind. destruct (m w) as [w1 [a|e]]; [apply Hk|done].
Qed.

Lemma bind_eval {A B} (x : A) (k : A → Action B) (w : Widget) :
  (eval (Normal x) ≫= k) w = k x w.
Proof. reflexivity. Qed.

(** A value [String(v)] fails on is an array or an object, hence truthy,
    and [Number(v)] fails on it as well. *)
Lemma not_stringifiable `{Engine} (v : JsValue) :
  stringifiable v = false →
  truthy v = true
  ∧ (∃ e, ToString v = Throw e)
  ∧ (∃ e, ToNumber v = Throw e)
  ∧ (∀ n, strict_equal_number v n = false)
  ∧ (∀ d, or_else v d = v) ∧ (∀ d, default_arg v d = v).
Proof.
  unfold stringifiable. intros Hv.
  destruct (ToString v) as [s|e] eqn:Es; [discriminate|].
  assert (Ht : truthy v = true) by (destruct v as [| |[]| | | |]; done).
  split; [done|]. split; [by exists e|].
  split; [|split; [|split]].
  - destruct v as [| |[]| | | |]; try discriminate;
      unfold ToNumber; rewrite Es; by exists e.
  - intros n. destruct v as [| |[]| | | |]; done.
  - intros d. unfold or_else. by rewrite Ht.
  - intros d. destruct v; done.
Qed.

Lemma escapeHtml_throws `{Engine} (v : JsValue) :
  stringifiable v = false → ∃ e, _escapeHtml v = Throw e.
Proof.
  intros Hv. destruct (not_stringifiable v Hv) as (_ & (e & He) & _ & _ & _ & Hd).
  exists e. unfold _escapeHtml. by rewrite Hd, He.
Qed.

Lemma addMessage_throws `{Engine} (role : Role) (v : JsValue) (w : Widget) :
  stringifiable v = false → ∃ e, _addMessage role v w = (w, Throw e).
Proof.
  intros Hv. destruct (not_stringifiable v Hv) as (_ & _ & _ & _ & Ho & Hd).
  destruct (escapeHtml_throws v Hv) as [e He].
  exists e. unfold _addMessage, _formatMessage.
  rewrite Ho, Hd. unfold mbind at 2. unfold Action_bind, eval.
  by rewrite He.
Qed.

(** The card of a part that is not renderable is never built. *)
Lemma part_view_throws `{Engine} (p : JsValue) :
  renderable_part p = false → throws (part_view p) = true.
Proof.
  intros Hp.
  assert (Hcases : p = JUndefined ∨ p = JNull ∨ (p ≠ JUndefined ∧ p ≠ JNull)).
  { destruct p; auto; right; right; split; discriminate. }
  destruct Hcases as [->|[->|[Hu Hn]]]; [reflexivity|reflexivity|].
  assert (Hf : forallb (fun k => stringifiable (field p k)) part_fields = false)
    by (by destruct p).
  unfold part_fields in Hf. cbn [forallb] in Hf.
  unfold part_view, part_price, part_stock.
  rewrite !(get_field p _ Hu Hn). cbn [mbind completion_bind].
  destruct (stringifiable (field p "sales_price")) eqn:E1.
  2:{ destruct (not_stringifiable _ E1) as (-> & _ & (e & ->) & _). reflexivity. }
  destruct (stringifiable_ToNumber _ E1) as [x ->].
  assert (Hprice : ∃ price,
    (if truthy (field p "sales_price")
     then Normal (toFixed2 x ++ lit " DZD")
     else Normal (lit "Price on request")) = Normal price)
    by (destruct (truthy _); by eexists).
  destruct Hprice as [price Hprice].
  replace (if truthy (field p "sales_price")
           then x0 ← Normal x; Normal (toFixed2 x0 ++ lit " DZD")
           else Normal (lit "Price on request")) with (Normal price : completion jsstring)
    by (rewrite <- Hprice; by destruct (truthy _)).
  cbn [mbind completion_bind].
  destruct (stringifiable (field p "quantity_on_hand")) eqn:E2.
  2:{ destruct (not_stringifiable _ E2) as (_ & _ & (e & He) & Hs & Ho & _).
      rewrite Ho. unfold stockClass_of, less_than_number. by rewrite Hs, He. }
  assert (E2' : stringifiable (or_else (field p "quantity_on_hand")
                                 (JNum (Number_of_Z 0))) = true)
    by (by apply stringifiable_or_else).
  destruct (stringifiable_ToNumber _ E2') as [q Hq].
  destruct (stringifiable_ToString _ E2') as [qs Hqs].
  unfold stockClass_of, stockText_of, less_than_number. rewrite Hq, Hqs.
  cbn [mbind completion_bind].
  destruct (strict_equal_number _ _); cbn [mbind completion_bind].
  all: destruct (stringifiable (field p "product_name")) eqn:E3;
    [|destruct (escapeHtml_throws _ E3) as [e He];
      destruct (not_stringifiable _ E3) as (_ & _ & _ & _ & Ho & _);
      by rewrite Ho, He].
  all: destruct (escapeHtml_completes
                   (or_else (field p "product_name") (JStr (lit "Spare Part"))))
         as (n1 & -> & _); [by apply stringifiable_or_else|].
  all: cbn [mbind completion_bind].
  all: destruct (stringifiable (field p "internal_reference")) eqn:E4;
    [|destruct (escapeHtml_throws _ E4) as [e He];
      destruct (not_stringifiable _ E4) as (_ & _ & _ & _ & Ho & _);
      by rewrite Ho, He].
  all: destruct (escapeHtml_completes
                   (or_else (field p "internal_reference") (JStr [])))
         as (n2 & -> & _); [by apply stringifiable_or_else|].
  all: cbn [mbind completion_bind].
  all: cbn [andb] in Hf; rewrite andb_true_r in Hf.
  all: destruct (escapeHtml_throws _ Hf) as [e He];
    destruct (not_stringifiable _ Hf) as (_ & _ & _ & _ & Ho & _);
    by rewrite Ho, He.
Qed.

Lemma forallb_false_elem {A} (f : A → bool) (l : list A) :
  forallb f l = false → ∃ a, a ∈ l ∧ f a = false.
Proof.
  induction l as [|a l IH]; [discriminate|]. cbn [forallb].
  destruct (f a) eqn:Ea.
  - intros Hl. destruct (IH Hl) as (b & Hb & Hfb). exists b. split; [by right|done].
  - intros _. exists a. split; [by left|done].
Qed.

(** A part among the first three that is not renderable: nothing is
    appended and the call throws. *)
Lemma displayParts_throws `{Engine} (parts : list JsValue) (w : Widget) :
  forallb renderable_part (take 3 parts) = false →
  ∃ e, _displayParts parts w = (w, Throw e).
Proof.
  intros Hparts. destruct (forallb_false_elem _ _ Hparts) as (p & Hp & Hr).
  assert (Ht : throws (mapC (fun p => v ← part_view p;
                                      Normal (PartCard (card_innerHTML v)))
                            (take 3 parts)) = true).
  { apply mapC_throws. exists p. split; [done|].
    pose proof (part_view_throws p Hr) as Hv. by destruct (part_view p). }
  destruct parts as [|p0 parts]; [by apply elem_of_nil in Hp|].
  unfold _displayParts. cbv beta iota.
  destruct (mapC _ (take 3 (p0 :: parts))) as [cards|e] eqn:E; [discriminate|].
  exists e. by apply bind_throw.
Qed.

(** A suggestion that is not a string: nothing is appended and the call
    throws. *)
Lemma renderSuggestions_throws `{Engine} (v : JsValue) (w : Widget) :
  forallb is_string (elements v) = false →
  array_nonempty v = true ∧ ∃ e, _renderSuggestions v w = (w, Throw e).
Proof.
  intros Hv. destruct (forallb_false_elem _ _ Hv) as (x & Hx & Hs).
  destruct v as [| | | | |l|]; try (by apply elem_of_nil in Hx).
  cbn [elements] in *.
  assert (Ht : throws (mapC suggestion_button l) = true).
  { apply mapC_throws. exists x. split; [done|].
    by rewrite (suggestion_button_not_string x Hs). }
  destruct l as [|x0 l]; [by apply elem_of_nil in Hx|].
  split; [reflexivity|].
  unfold _renderSuggestions. cbn [default_arg]. cbv beta iota.
  destruct (mapC suggestion_button (x0 :: l)) as [buttons|e] eqn:E; [discriminate|].
  exists e. by apply bind_throw.
Qed.

Lemma handleServerResponse_throws_on `{Engine} (data : JsValue) (w : Widget) :
  renders data = false → throws (_handleServerResponse data w).2 = true.
Proof.
  intros Hr.
  assert (Hcases : data = JUndefined ∨ data = JNull
                   ∨ (data ≠ JUndefined ∧ data ≠ JNull)).
  { destruct data; auto; right; right; split; discriminate. }
  destruct Hcases as [->|[->|[Hu Hn]]]; [reflexivity|reflexivity|].
  assert (Hr2 : stringifiable (field data "reply")
      && (if strict_equal_string (field data "type") (lit "parts")
          then forallb renderable_part (take 3 (elements (field data "data")))
          else true)
      && forallb is_string (elements (field data "suggestions")) = false)
    by (by destruct data).
  unfold _handleServerResponse.
  rewrite !(get_field data _ Hu Hn). rewrite bind_eval.
  destruct (stringifiable (field data "reply")) eqn:Ereply.
  2:{ apply bind_throws_m.
      destruct (not_stringifiable _ Ereply) as (-> & _).
      destruct (addMessage_throws bot _ w Ereply) as [e He].
      cbn [when]. by rewrite He. }
  apply bind_throws_k. intros _ w1. rewrite bind_eval.
  cbn [andb] in Hr2.
  destruct (strict_equal_string (field data "type") (lit "parts")) eqn:Etype.
  - destruct (forallb renderable_part (take 3 (elements (field data "data"))))
      eqn:Eparts.
    + apply bind_throws_k. intros _ w2. rewrite bind_eval.
      cbn [andb] in Hr2. apply bind_throws_m.
      destruct (renderSuggestions_throws _ w2 Hr2) as (-> & e & He).
      cbn [when]. by rewrite He.
    + apply bind_throws_m. rewrite bind_eval.
      destruct (displayParts_throws _ w1 Eparts) as [e He].
      destruct (field data "data") as [| | | | |l|] eqn:Ed;
        try (cbn [elements take forallb] in Eparts; discriminate).
      cbn [isArray when elements] in *. by rewrite He.
  - apply bind_throws_k. intros _ w2. rewrite bind_eval.
    cbn [andb] in Hr2. apply bind_throws_m.
    destruct (renderSuggestions_throws _ w2 Hr2) as (-> & e & He).
    cbn [when]. by rewrite He.
Qed.

(** X14. [_handleServerResponse] throws exactly on the responses that are
    not renderable: [null] or [undefined], a [reply] that does not convert
    to a string, with [type] equal to [parts] one of the first three
    [data] elements that is [null], [undefined] or has a field that does
    not convert to a string, or a [suggestions] array with an element that
    is not a string.  The state the call is made in plays no part. *)
Theorem handleServerResponse_throws_iff `{Engine} (data : JsValue) (w : Widget) :
  throws (_handleServerResponse data w).2 = negb (renders data).
Proof.
  destruct (renders data) eqn:Hr; cbn [negb].
  - destruct (handleServerResponse_completes_on data Hr w) as [w' ->]. reflexivity.
  - by apply handleServerResponse_throws_on.
Qed.

(* ===================================================================== *)
(** ** How much a response shows *)
(* ===================================================================== *)

Lemma grows_trans (n m : nat) (w w1 w2 : Widget) :
  grows n w w1 → grows m w1 w2 → grows (n + m) w w2.
Proof.
  intros (a & Ha & Hn) (b & Hb & Hm). exists (a ++ b).
  split; [by rewrite Hb, Ha, app_assoc|]. rewrite length_app. lia.
Qed.

Lemma adds_ret : adds 0 (mret tt).
Proof. intros w. exists w. split; [done|]. exists []. by rewrite app_nil_r. Qed.

Lemma adds_appendChild (n : Node) : adds 1 (exec (appendChild n)).
Proof. intros w. eexists. split; [reflexivity|]. by exists [n]. Qed.

Lemma adds_increment : adds 0 (exec increment_messageCount).
Proof.
  intros w. eexists. split; [reflexivity|]. exists []. by rewrite app_nil_r.
Qed.

Lemma adds_bind (n m : nat) (a : Action unit) (k : unit → Action unit) :
  adds n a → adds m (k tt) → adds (n + m) (a ≫= k).
Proof.
  intros Ha Hk w. destruct (Ha w) as (w1 & H1 & G1).
  destruct (Hk w1) as (w2 & H2 & G2). exists w2.
  split; [by rewrite (bind_run _ _ _ _ _ H1)|]. by eapply grows_trans.
Qed.

Lemma adds_eval {A} (n : nat) (v : A) (k : A → Action unit) :
  adds n (k v) → adds n (eval (Normal v) ≫= k).
Proof. intros Hk w. exact (Hk w). Qed.

Lemma adds_addMessage `{Engine} (role : Role) (v : JsValue) :
  stringifiable v = true → adds 1 (_addMessage role v).
Proof.
  intros Hv w. destruct (addMessage_completes role v w Hv) as (html & _ & ->).
  eexists. split; [reflexivity|]. by eexists [_].
Qed.

Lemma adds_displayParts `{Engine} (parts : list JsValue) :
  forallb renderable_part (take 3 parts) = true →
  adds (match parts with [] => 0 | _ => 1 end) (_displayParts parts).
Proof.
  intros Hparts w. destruct (renderable_views _ Hparts) as [views Hviews].
  rewrite (displayParts_run parts views w Hviews).
  eexists. split; [reflexivity|].
  destruct parts; [exists []; by rewrite app_nil_r|by eexists [_]].
Qed.

Lemma adds_renderSuggestions `{Engine} (v : JsValue) :
  forallb is_string (elements v) = true →
  adds (Nat.b2n (array_nonempty v)) (when (array_nonempty v) (_renderSuggestions v)).
Proof.
  intros Hv. destruct v as [| | | | |l|]; try apply adds_ret.
  destruct (all_strings l Hv) as [labels ->].
  destruct labels as [|s labels]; [apply adds_ret|].
  intros w. cbn [array_nonempty map when].
  change (JStr s :: map JStr labels) with (map JStr (s :: labels)).
  rewrite renderSuggestions_strings by done.
  eexists. split; [reflexivity|]. by eexists [_].
Qed.

Lemma handleServerResponse_adds `{Engine} (data : JsValue) :
  renders data = true → adds (response_size data) (_handleServerResponse data).
Proof.
  intros Hr.
  assert (Hu : data ≠ JUndefined) by (intros ->; discriminate).
  assert (Hn : data ≠ JNull) by (intros ->; discriminate).
  assert (Hr2 : stringifiable (field data "reply")
      && (if strict_equal_string (field data "type") (lit "parts")
          then forallb renderable_part (take 3 (elements (field data "data")))
          else true)
      && forallb is_string (elements (field data "suggestions")) = true)
    by (by destruct data).
  apply andb_true_iff in Hr2 as [[Hreply Hparts]%andb_true_iff Hsugg].
  unfold _handleServerResponse, response_size, shows_reply, shows_parts,
    shows_suggestions, shows_fallback.
  rewrite !(get_field data) by done. apply adds_eval.
  rewrite <- !Nat.add_assoc.
  apply adds_bind.
  { destruct (truthy (field data "reply")); cbn [when Nat.b2n];
      [by apply adds_addMessage|apply adds_ret]. }
  apply adds_eval. apply adds_bind.
  { destruct (strict_equal_string _ _); cbn [andb Nat.b2n]; [|apply adds_ret].
    apply adds_eval.
    destruct (field data "data") as [| | | | |l|]; try apply adds_ret.
    cbn [isArray when elements array_nonempty] in *.
    pose proof (adds_displayParts l Hparts) as Hd.
    by destruct l. }
  apply adds_eval. apply adds_bind; [by apply adds_renderSuggestions|].
  apply adds_eval.
  replace (Nat.b2n (negb (truthy (field data "reply"))
                    && negb (truthy (field data "data"))))
    with (Nat.b2n (negb (truthy (field data "reply"))
                   && negb (truthy (field data "data"))) + 0)%nat by lia.
  apply adds_bind; [|apply adds_increment].
  destruct (negb (truthy (field data "reply"))); cbn [andb Nat.b2n];
    [|apply adds_ret].
  apply adds_eval.
  destruct (negb (truthy (field data "data"))); cbn [when Nat.b2n];
    [|apply adds_ret].
  by apply adds_addMessage.
Qed.

(** X15. On a renderable response [_handleServerResponse] appends one node
    for each section that applies and nothing else: the reply when it is
    truthy, the parts list when [type] is [parts] and [data] is a
    non-empty array, the suggestions when they are a non-empty array, the
    fallback when neither [reply] nor [data] is truthy.  So a response
    such as [{type: 'parts', data: []}], with no reply and no suggestions,
    shows nothing at all: [[]] is truthy and keeps the fallback away. *)
Theorem response_shows_one_node_per_section `{Engine} (data : JsValue) (w : Widget) :
  renders data = true →
  ∃ w', _handleServerResponse data w = (w', Normal tt)
        ∧ grows (response_size data) w w'
        ∧ (response_size data = 0%nat → messages w' = messages w).
Proof.
  intros Hr. destruct (handleServerResponse_adds data Hr w) as (w' & Hw' & Hg).
  exists w'. split; [done|]. split; [done|].
  intros Hz. destruct Hg as (added & -> & Hlen). rewrite Hz in Hlen.
  destruct added; [by rewrite app_nil_r|discriminate].
Qed.

Lemma response_shows_witness :
  @renders example_engine empty_result = true
  ∧ response_size empty_result = 0%nat
  ∧ ∃ w', @_handleServerResponse example_engine empty_result fresh_widget
          = (w', Normal tt)
          ∧ grows (response_size empty_result) fresh_widget w'
          ∧ (response_size empty_result = 0%nat
             → messages w' = messages fresh_widget).
Proof.
  split; [reflexivity|]. split; [reflexivity|].
  apply (@response_shows_one_node_per_section example_engine empty_result
           fresh_widget).
  reflexivity.
Defined.

Lemma grows_refl (w : Widget) : grows 0 w w.
Proof. exists []. by rewrite app_nil_r. Qed.

(** X16. When [_handleServerResponse] throws, rendering stops at the
    section at fault and that section shows nothing: a response that is
    [null] or whose reply does not convert to a string shows nothing; a
    part that cannot be rendered leaves the reply and no parts list, not
    even the cards of the parts before it; a suggestion that is not a
    string leaves the reply and the parts list and no chips.  The fallback
    message is never reached. *)
Theorem rendering_stops_at_the_failing_section `{Engine}
    (data : JsValue) (w : Widget) :
  renders data = false →
  ∃ w1 e, _handleServerResponse data w = (w1, Throw e)
          ∧ grows (shown_before_failure data) w w1.
Proof.
  intros Hr.
  assert (Hcases : data = JUndefined ∨ data = JNull
                   ∨ (data ≠ JUndefined ∧ data ≠ JNull)).
  { destruct data; auto; right; right; split; discriminate. }
  destruct Hcases as [->|[->|[Hu Hn]]];
    [exists w, TypeError; split; [reflexivity|apply grows_refl]..|].
  assert (Hr2 : stringifiable (field data "reply")
      && (if strict_equal_string (field data "type") (lit "parts")
          then forallb renderable_part (take 3 (elements (field data "data")))
          else true)
      && forallb is_string (elements (field data "suggestions")) = false)
    by (by destruct data).
  assert (Hn2 : shown_before_failure data
    = if negb (stringifiable (field data "reply")) then 0%nat
      else (Nat.b2n (shows_reply data)
            + (if strict_equal_string (field data "type") (lit "parts")
                  && negb (forallb renderable_part
                             (take 3 (elements (field data "data"))))
               then 0
               else Nat.b2n (shows_parts data)))%nat)
    by (by destruct data).
  rewrite Hn2. clear Hn2.
  unfold _handleServerResponse, shows_reply, shows_parts.
  rewrite !(get_field data _ Hu Hn). rewrite bind_eval.
  destruct (stringifiable (field data "reply")) eqn:Ereply; cbn [negb].
  2:{ destruct (not_stringifiable _ Ereply) as (Ht & _).
      destruct (addMessage_throws bot _ w Ereply) as [e He].
      exists w, e. split; [|apply grows_refl].
      apply bind_throw. rewrite Ht. exact He. }
  assert (H1 : adds (Nat.b2n (truthy (field data "reply")))
                 (when (truthy (field data "reply"))
                    (_addMessage bot (field data "reply")))).
  { destruct (truthy (field data "reply")); cbn [when Nat.b2n];
      [by apply adds_addMessage|apply adds_ret]. }
  destruct (H1 w) as (w1 & Hw1 & G1).
  rewrite (bind_run _ _ _ _ _ Hw1), bind_eval.
  cbn [andb] in Hr2.
  destruct (strict_equal_string (field data "type") (lit "parts")) eqn:Etype;
    cbn [andb].
  - destruct (forallb renderable_part (take 3 (elements (field data "data"))))
      eqn:Eparts; cbn [negb andb] in *.
    + assert (H2 : adds (Nat.b2n (array_nonempty (field data "data")))
                     (eval (get data "data") ≫= fun parts =>
                        when (isArray parts) (_displayParts (elements parts)))).
      { rewrite (get_field data _ Hu Hn). apply adds_eval.
        destruct (field data "data") as [| | | | |l|]; try apply adds_ret.
        cbn [isArray when elements array_nonempty] in *.
        pose proof (adds_displayParts l Eparts) as Hd. by destruct l. }
      rewrite (get_field data _ Hu Hn) in H2.
      destruct (H2 w1) as (w2 & Hw2 & G2).
      rewrite (bind_run _ _ _ _ _ Hw2), bind_eval.
      destruct (renderSuggestions_throws _ w2 Hr2) as (Hne & e & He).
      exists w2, e. split; [|by eapply grows_trans].
      apply bind_throw. rewrite Hne. exact He.
    + destruct (displayParts_throws _ w1 Eparts) as [e He].
      exists w1, e. split; [|by rewrite Nat.add_0_r].
      apply bind_throw. rewrite bind_eval.
      destruct (field data "data") as [| | | | |l|] eqn:Ed;
        try (cbn [elements take forallb] in Eparts; discriminate).
      cbn [isArray when elements] in *. exact He.
  - rewrite (bind_run _ _ w1 w1 tt) by reflexivity. rewrite bind_eval.
    destruct (renderSuggestions_throws _ w1 Hr2) as (Hne & e & He).
    exists w1, e. split; [|by rewrite Nat.add_0_r].
    apply bind_throw. rewrite Hne. exact He.
Qed.

Lemma rendering_stops_witness :
  @renders example_engine response_with_null_part = false
  ∧ @shown_before_failure example_engine response_with_null_part = 1%nat
  ∧ ∃ w1 e, @_handleServerResponse example_engine response_with_null_part
              fresh_widget = (w1, Throw e)
            ∧ grows (@shown_before_failure example_engine response_with_null_part)
                    fresh_widget w1.
Proof.
  split; [reflexivity|]. split; [reflexivity|].
  apply (@rendering_stops_at_the_failing_section example_engine
           response_with_null_part fresh_widget).
  reflexivity.
Defined.

(* ===================================================================== *)
(** ** Chips *)
(* ===================================================================== *)

(** X17. The icon chain tests [no] before [skip], [order], [continue],
    [reference] and [part], on the lower-cased label and anywhere in it.
    A label that contains these two letters, as [Order now] or [Part
    not found] do, gets the icon of an earlier keyword or the cross of
    [no], never the icon of a later one. *)
Theorem no_shadows_later_icons `{Engine} (s : jsstring) :
  includes (toLowerCase s) (lit "no") = true →
  ∃ cls, cls ∈ icons_up_to_no
         ∧ suggestion_button (JStr s)
           = Normal {| btn_innerHTML := icon (lit cls) ++ lit " " ++ s;
                       btn_label := s |}.
Proof.
  intros Hno. rewrite suggestion_button_string.
  exists (first_icon (toLowerCase s) icon_keywords). split; [|reflexivity].
  unfold icon_keywords, icons_up_to_no. cbn [first_icon].
  destruct (includes _ (lit "search")); [set_solver|].
  destruct (includes _ (lit "track")); [set_solver|].
  destruct (includes _ (lit "report")); [set_solver|].
  destruct (includes _ (lit "yes")); [set_solver|].
  rewrite Hno. set_solver.
Qed.

Lemma no_shadows_later_icons_witness :
  includes (@toLowerCase example_engine (lit "Order now")) (lit "no") = true
  ∧ ∃ cls, cls ∈ icons_up_to_no
           ∧ @suggestion_button example_engine (JStr (lit "Order now"))
             = Normal {| btn_innerHTML := icon (lit cls) ++ lit " " ++ lit "Order now";
                         btn_label := lit "Order now" |}.
Proof.
  split; [reflexivity|].
  apply (@no_shadows_later_icons example_engine (lit "Order now")). reflexivity.
Defined.

(** X18. A click on a chip replaces whatever the user had typed by the
    label, which the textarea holds with its newlines normalised (CR LF
    and CR become LF).  When the busy flag is clear and that text is not
    blank, it is sent trimmed and the textarea is emptied; otherwise
    nothing is sent and it stays in the textarea in place of the
    draft. *)
Theorem chip_click_replaces_the_draft `{Engine} (label : jsstring) (w : Widget) :
  ∃ w', step (ClickSuggestion label) w = Some w'
        ∧ if bool_decide (trim (normalize_newlines label) = []) || isTyping w
          then w' = set_messageInput_value (normalize_newlines label) w
          else messageInput_value w' = []
               ∧ isTyping w' = true
               ∧ requests w'
                 = requests w
                   ++ [post_request (hostname w) (trim (normalize_newlines label))
                                    (sessionId w)]
               ∧ user_bubbles (messages w')
                 = user_bubbles (messages w)
                   ++ [bubble_of (trim (normalize_newlines label))].
Proof.
  eexists. split; [reflexivity|].
  rewrite sendMessage_unfold. widget_simpl.
  destruct (bool_decide (trim (normalize_newlines label) = []) || isTyping w);
    [reflexivity|].
  widget_simpl. repeat split.
  rewrite !user_bubbles_app. cbn [user_bubbles omap list_omap].
  by rewrite app_nil_r.
Qed.

(* ===================================================================== *)
(** ** The launcher, the window and its buttons *)
(* ===================================================================== *)

Lemma elem_of_toggle (x : jsstring) (cl : ClassList.t) (c : string) :
  x ∈ ClassList.toggle cl c ↔ (x ∈ cl ↔ x ≠ lit c).
Proof.
  unfold ClassList.toggle, ClassList.contains, ClassList.remove, ClassList.add.
  destruct (bool_decide (lit c ∈ cl)) eqn:Hc;
    [apply bool_decide_eq_true in Hc|apply bool_decide_eq_false in Hc].
  - rewrite elem_of_difference, elem_of_singleton.
    destruct (decide (x = lit c)) as [->|Hx]; tauto.
  - rewrite elem_of_union, elem_of_singleton.
    destruct (decide (x = lit c)) as [->|Hx]; tauto.
Qed.

Lemma elem_of_remove (x : jsstring) (cl : ClassList.t) (c : string) :
  x ∈ ClassList.remove cl c ↔ x ∈ cl ∧ x ≠ lit c.
Proof. unfold ClassList.remove. by rewrite elem_of_difference, elem_of_singleton. Qed.

Lemma contains_toggle (cl : ClassList.t) (c d : string) :
  ClassList.contains (ClassList.toggle cl c) d
  = if bool_decide (lit d = lit c) then negb (ClassList.contains cl d)
    else ClassList.contains cl d.
Proof.
  unfold ClassList.contains.
  destruct (bool_decide (lit d = lit c)) eqn:Hd;
    [apply bool_decide_eq_true in Hd|apply bool_decide_eq_false in Hd].
  - destruct (bool_decide (lit d ∈ cl)) eqn:Hin;
      [apply bool_decide_eq_true in Hin|apply bool_decide_eq_false in Hin];
      cbn [negb];
      [apply bool_decide_eq_false_2|apply bool_decide_eq_true_2];
      rewrite elem_of_toggle; tauto.
  - apply bool_decide_ext. rewrite elem_of_toggle. tauto.
Qed.

Lemma contains_remove_other (cl : ClassList.t) (c d : string) :
  lit d ≠ lit c →
  ClassList.contains (ClassList.remove cl c) d = ClassList.contains cl d.
Proof.
  intros Hne. unfold ClassList.contains. apply bool_decide_ext.
  rewrite elem_of_remove. tauto.
Qed.

Lemma toggle_toggle (cl : ClassList.t) (c : string) :
  ClassList.toggle (ClassList.toggle cl c) c = cl.
Proof.
  apply leibniz_equiv. intros x. rewrite !elem_of_toggle.
  destruct (decide (x ∈ cl)); destruct (decide (x = lit c)); tauto.
Qed.

Lemma toggle_comm (cl : ClassList.t) (a b : string) :
  ClassList.toggle (ClassList.toggle cl a) b
  = ClassList.toggle (ClassList.toggle cl b) a.
Proof.
  apply leibniz_equiv. intros x. rewrite !elem_of_toggle.
  destruct (decide (x ∈ cl)); destruct (decide (x = lit a));
    destruct (decide (x = lit b)); tauto.
Qed.

Lemma icon_matches_size_handle (ev : ControlEvent) (c : Controls) :
  icon_matches_size c = true → icon_matches_size (handle ev c) = true.
Proof.
  unfold icon_matches_size. intros [H1 H2]%andb_true_iff.
  apply bool_decide_eq_true in H1. apply bool_decide_eq_true in H2.
  destruct ev as [| | |key ctrlKey shiftKey]; cbn [handle].
  - unfold btn_click. cbn [resize_classList win_classList].
    rewrite !contains_toggle.
    rewrite (bool_decide_eq_false_2 (lit "maximized" = lit "open")) by discriminate.
    rewrite H1, H2. by rewrite !bool_decide_eq_true_2.
  - unfold close_click. cbn [resize_classList win_classList].
    rewrite contains_remove_other by discriminate.
    rewrite H1, H2. by rewrite !bool_decide_eq_true_2.
  - unfold resize_click. cbn [resize_classList win_classList].
    rewrite !contains_toggle.
    rewrite (bool_decide_eq_true_2 (lit "fa-compress" = lit "fa-compress")) by done.
    rewrite (bool_decide_eq_true_2 (lit "maximized" = lit "maximized")) by done.
    rewrite (bool_decide_eq_true_2 (lit "fa-expand" = lit "fa-expand")) by done.
    rewrite (bool_decide_eq_false_2 (lit "fa-compress" = lit "fa-expand"))
      by discriminate.
    rewrite (bool_decide_eq_false_2 (lit "fa-expand" = lit "fa-compress"))
      by discriminate.
    rewrite H1, H2. rewrite negb_involutive. by rewrite !bool_decide_eq_true_2.
  - assert (Hm : ∀ cl, ClassList.contains (ClassList.remove cl "open") "maximized"
                       = ClassList.contains cl "maximized")
      by (intros cl; by apply contains_remove_other).
    unfold keydown.
    destruct (bool_decide (key = lit "Escape"));
      [destruct (ClassList.contains (win_classList c) "open")|];
      destruct (ctrlKey && shiftKey && bool_decide (key = lit "C"));
      cbn [resize_classList win_classList];
      rewrite ?contains_toggle, ?Hm,
        ?(bool_decide_eq_false_2 (lit "maximized" = lit "open")) by discriminate;
      rewrite H1, H2; by rewrite !bool_decide_eq_true_2.
Qed.

(** X19. The resize icon tracks the size of the window: if the page is
    served with the expand icon on a window of normal size (or the
    compress icon on a maximised one), then after any sequence of clicks
    on the launcher, the close button and the resize button and of key
    presses, the resize button shows the compress icon exactly when the
    window is maximised and the expand icon exactly when it is not. *)
Theorem resize_icon_tracks_window_size (evs : list ControlEvent) (c : Controls) :
  icon_matches_size c = true → icon_matches_size (handle_all evs c) = true.
Proof.
  revert c. induction evs as [|ev evs IH]; intros c Hc; [exact Hc|].
  cbn [handle_all foldl]. apply IH. by apply icon_matches_size_handle.
Qed.

Lemma resize_icon_witness :
  icon_matches_size served_controls = true
  ∧ icon_matches_size (handle_all a_visit served_controls) = true.
Proof.
  split; [vm_compute; reflexivity|].
  apply (resize_icon_tracks_window_size a_visit served_controls).
  vm_compute. reflexivity.
Defined.

(** X20. The two toggles undo themselves: a second click on the resize
    button, and a second Ctrl+Shift+C, bring every class and the
    launcher's transform back to what they were. *)
Theorem toggles_are_involutions (c : Controls) :
  resize_click (resize_click c) = c
  ∧ keydown (lit "C") true true (keydown (lit "C") true true c) = c.
Proof.
  destruct c as [win btn transform resize]. split.
  - unfold resize_click. cbn [win_classList btn_classList btn_transform resize_classList].
    rewrite toggle_toggle.
    rewrite (toggle_comm (ClassList.toggle resize "fa-expand") "fa-compress" "fa-expand").
    by rewrite !toggle_toggle.
  - unfold keydown.
    rewrite (bool_decide_eq_false_2 (lit "C" = lit "Escape")) by discriminate.
    rewrite (bool_decide_eq_true_2 (lit "C" = lit "C")) by done.
    cbn [andb win_classList btn_classList btn_transform resize_classList].
    by rewrite !toggle_toggle.
Qed.

(* ===================================================================== *)
(** ** Formatting works line by line *)
(* ===================================================================== *)

Lemma consuming_nil (m : jsstring → option (jsstring * jsstring)) :
  consuming m → m [] = None.
Proof.
  intros Hc. destruct (m []) as [[g r]|] eqn:E; [|done].
  apply Hc in E. cbn in E. lia.
Qed.

(** A global replacement whose pattern can neither run into the separator
    nor start inside it treats the two sides of the separator apart. *)
Lemma replace_matches_skip (m : jsstring → option (jsstring * jsstring))
    (rep : jsstring → jsstring) (t B : jsstring) :
  consuming m →
  (∀ p t', t = p ++ t' → t' ≠ [] → m (t' ++ B) = None) →
  replace_matches m rep (t ++ B) = t ++ replace_matches m rep B.
Proof.
  intros Hc. induction t as [|c t IH]; intros Hnone; [reflexivity|].
  cbn [app]. rewrite replace_matches_cons by done.
  pose proof (Hnone [] (c :: t) eq_refl ltac:(done)) as Hm.
  cbn [app] in Hm. rewrite Hm.
  f_equal. apply IH. intros p t' -> Ht'. by apply (Hnone (c :: p) t').
Qed.

Lemma replace_matches_sep (m : jsstring → option (jsstring * jsstring))
    (rep : jsstring → jsstring) (sep A B : jsstring) :
  consuming m →
  (∀ s, m (s ++ sep ++ B) = (fun gr => (gr.1, gr.2 ++ sep ++ B)) <$> m s) →
  (∀ p t, sep = p ++ t → p ≠ [] → t ≠ [] → m (t ++ B) = None) →
  replace_matches m rep (A ++ sep ++ B)
  = replace_matches m rep A ++ sep ++ replace_matches m rep B.
Proof.
  intros Hc Hcross Hinside.
  remember (length A) as n eqn:Hn. revert A Hn.
  induction (lt_wf n) as [n _ IH]. intros A ->.
  destruct A as [|c A].
  - cbn [app]. rewrite replace_matches_nil. cbn [app].
    apply replace_matches_skip; [done|].
    intros p t Hsep Ht. destruct p as [|x p].
    + cbn [app] in Hsep. subst t.
      specialize (Hcross []). cbn [app] in Hcross.
      by rewrite Hcross, (consuming_nil m Hc).
    + by apply (Hinside (x :: p) t).
  - cbn [app]. rewrite !replace_matches_cons by done.
    specialize (Hcross (c :: A)) as Hm. cbn [app] in Hm. rewrite Hm.
    destruct (m (c :: A)) as [[g r]|] eqn:E; cbn [fmap option_fmap option_map fst snd].
    + pose proof (Hc _ _ _ E) as Hlen.
      rewrite (IH (length r) Hlen r eq_refl). by rewrite <- app_assoc.
    + cbn [app]. f_equal. apply (IH (length A)); [cbn; lia|done].
Qed.

Lemma strip_prefix_sep (p s : jsstring) (c : N) (B : jsstring) :
  Forall (fun x => x ≠ c) p →
  strip_prefix p (s ++ c :: B) = (fun r => r ++ c :: B) <$> strip_prefix p s.
Proof.
  intros Hp. revert s. induction Hp as [|a p Ha Hp IH]; intros s; [reflexivity|].
  destruct s as [|b s]; cbn [app strip_prefix].
  - apply N.eqb_neq in Ha. by rewrite Ha.
  - destruct (a =? b); [apply IH|reflexivity].
Qed.

Lemma find_close_sep (s B : jsstring) :
  find_close (s ++ Chr.lf :: B)
  = (fun gr => (gr.1, gr.2 ++ Chr.lf :: B)) <$> find_close s.
Proof.
  assert (Hstar : Forall (fun x => x ≠ Chr.lf) [Chr.star; Chr.star])
    by (repeat constructor; discriminate).
  induction s as [|c s IH]; [reflexivity|].
  cbn [app find_close].
  change (c :: s ++ Chr.lf :: B) with ((c :: s) ++ Chr.lf :: B).
  rewrite (strip_prefix_sep _ (c :: s) _ B Hstar).
  destruct (strip_prefix [Chr.star; Chr.star] (c :: s)) as [r|]; [reflexivity|].
  cbn [fmap option_fmap option_map].
  destruct (isLineTerminator c); [reflexivity|].
  rewrite IH. by destruct (find_close s) as [[g r]|].
Qed.

Lemma match_bold_sep (s B : jsstring) :
  match_bold (s ++ [Chr.lf] ++ B)
  = (fun gr => (gr.1, gr.2 ++ [Chr.lf] ++ B)) <$> match_bold s.
Proof.
  assert (Hstar : Forall (fun x => x ≠ Chr.lf) [Chr.star; Chr.star])
    by (repeat constructor; discriminate).
  unfold match_bold. cbn [app].
  rewrite (strip_prefix_sep _ s _ B Hstar).
  destruct (strip_prefix [Chr.star; Chr.star] s) as [[|c s']|];
    cbn [fmap option_fmap option_map app]; [reflexivity| |reflexivity].
  destruct (isLineTerminator c); [reflexivity|].
  rewrite find_close_sep. by destruct (find_close s') as [[g r]|].
Qed.

Lemma replace_bold_lines (A B : jsstring) :
  replace_bold (A ++ [Chr.lf] ++ B)
  = replace_bold A ++ [Chr.lf] ++ replace_bold B.
Proof.
  unfold replace_bold. apply replace_matches_sep.
  - apply match_bold_consuming.
  - intros s. apply match_bold_sep.
  - intros [|x p] t Hsep Hp Ht; [done|].
    injection Hsep as _ Hsep. by destruct p, t.
Qed.

Lemma replace_char_lines (A B : jsstring) :
  replace_char Chr.lf (lit "<br>") (A ++ [Chr.lf] ++ B)
  = replace_char Chr.lf (lit "<br>") A ++ lit "<br>"
    ++ replace_char Chr.lf (lit "<br>") B.
Proof. unfold replace_char. by rewrite !flat_map_app. Qed.

Lemma replace_matches_found (m : jsstring → option (jsstring * jsstring))
    (rep : jsstring → jsstring) (s g r : jsstring) :
  consuming m → m s = Some (g, r) →
  replace_matches m rep s = rep g ++ replace_matches m rep r.
Proof.
  intros Hc Hm. destruct s as [|c s]; [by rewrite (consuming_nil m Hc) in Hm|].
  by rewrite replace_matches_cons, Hm.
Qed.

(** *** Links stop at white space and at a tag *)

Lemma url_stop_not_in (p : jsstring) (c : N) :
  forallb (fun x => negb (url_stop x)) p = true → url_stop c = true →
  Forall (fun x => x ≠ c) p.
Proof.
  intros Hp Hc. apply Forall_forall. intros x Hx ->.
  pose proof (forallb_elem_of _ _ _ Hp Hx) as Hx'. cbv beta in Hx'.
  by rewrite Hc in Hx'.
Qed.

Lemma span_url_stop (s : jsstring) (c : N) (B : jsstring) :
  url_stop c = true →
  span_url (s ++ c :: B) = ((span_url s).1, (span_url s).2 ++ c :: B).
Proof.
  intros Hc. induction s as [|x s IH].
  - cbn [app span_url]. unfold url_stop in Hc. by rewrite Hc.
  - cbn [app span_url]. destruct (isSpace x || (x =? Chr.lt)); [reflexivity|].
    rewrite IH. by destruct (span_url s).
Qed.

Lemma match_url_stop (s : jsstring) (c : N) (B : jsstring) :
  url_stop c = true →
  match_url (s ++ c :: B) = (fun gr => (gr.1, gr.2 ++ c :: B)) <$> match_url s.
Proof.
  intros Hc.
  assert (H1 : Forall (fun x => x ≠ c) (lit "https://"))
    by (apply url_stop_not_in; [by vm_compute|done]).
  assert (H2 : Forall (fun x => x ≠ c) (lit "http://"))
    by (apply url_stop_not_in; [by vm_compute|done]).
  unfold match_url.
  rewrite (strip_prefix_sep _ s _ _ H1), (strip_prefix_sep _ s _ _ H2).
  destruct (strip_prefix (lit "https://") s) as [r|];
    cbn [fmap option_fmap option_map].
  - rewrite span_url_stop by done. by destruct (span_url r) as [[|x u] r'].
  - destruct (strip_prefix (lit "http://") s) as [r|];
      cbn [fmap option_fmap option_map]; [|reflexivity].
    rewrite span_url_stop by done. by destruct (span_url r) as [[|x u] r'].
Qed.

Lemma replace_links_stop (A : jsstring) (c : N) (B : jsstring) :
  url_stop c = true →
  replace_links (A ++ c :: B) = replace_links A ++ c :: replace_links B.
Proof.
  intros Hc. unfold replace_links.
  apply (replace_matches_sep match_url anchor [c] A B).
  - apply match_url_consuming.
  - intros s. apply (match_url_stop s c B Hc).
  - intros [|x p] t Hsep Hp Ht; [done|].
    injection Hsep as _ Hsep. by destruct p, t.
Qed.

Lemma replace_links_stop_head (c : N) (B : jsstring) :
  url_stop c = true → replace_links (c :: B) = c :: replace_links B.
Proof. intros Hc. exact (replace_links_stop [] c B Hc). Qed.

Lemma replace_links_skip (t B : jsstring) :
  Forall (fun x => x ≠ 104) t → replace_links (t ++ B) = t ++ replace_links B.
Proof.
  intros Ht. unfold replace_links.
  apply replace_matches_skip; [apply match_url_consuming|].
  intros p t' -> Hne. apply Forall_app in Ht as [_ Ht].
  destruct t' as [|x t']; [done|]. apply Forall_cons in Ht as [Hx _].
  apply match_url_none. unfold starts_with.
  change (lit "http") with [104; 116; 116; 112]. cbn [app strip_prefix].
  by destruct (N.eqb_spec 104 x) as [<-|].
Qed.

Lemma replace_links_tag (rest A B : jsstring) :
  Forall (fun x => x ≠ 104) rest →
  replace_links (A ++ (Chr.lt :: rest) ++ B)
  = replace_links A ++ (Chr.lt :: rest) ++ replace_links B.
Proof.
  intros Hr. cbn [app]. rewrite replace_links_stop by done.
  by rewrite replace_links_skip.
Qed.

Lemma span_url_found (v B : jsstring) :
  forallb (fun x => negb (url_stop x)) v = true → ends_url B = true →
  span_url (v ++ B) = (v, B).
Proof.
  intros Hv HB. induction v as [|x v IH].
  - cbn [app]. destruct B as [|c B]; [reflexivity|].
    cbn [span_url ends_url] in *. unfold url_stop in HB. by rewrite HB.
  - cbn [forallb] in Hv. apply andb_true_iff in Hv as [Hx Hv].
    apply negb_true_iff in Hx. unfold url_stop in Hx.
    cbn [app span_url]. rewrite Hx. by rewrite (IH Hv).
Qed.

Lemma match_url_found (secure : bool) (v B : jsstring) :
  v ≠ [] → forallb (fun x => negb (url_stop x)) v = true → ends_url B = true →
  match_url (scheme secure ++ v ++ B) = Some (scheme secure ++ v, B).
Proof.
  intros Hne Hv HB. unfold match_url.
  assert (Hs : strip_prefix (lit "https://") (scheme secure ++ v ++ B)
               = if secure then Some (v ++ B) else None).
  { destruct secure; [apply strip_prefix_app|reflexivity]. }
  rewrite Hs. destruct secure; unfold scheme.
  - rewrite (span_url_found v B Hv HB). by destruct v.
  - rewrite strip_prefix_app, (span_url_found v B Hv HB). by destruct v.
Qed.

Lemma replace_links_url (secure : bool) (v B : jsstring) :
  v ≠ [] → forallb (fun x => negb (url_stop x)) v = true → ends_url B = true →
  replace_links (scheme secure ++ v ++ B)
  = anchor (scheme secure ++ v) ++ replace_links B.
Proof.
  intros Hne Hv HB. unfold replace_links.
  apply replace_matches_found; [apply match_url_consuming|].
  by apply match_url_found.
Qed.

(** *** No glyph is found across text below U+26A0 *)

Lemma replace_lit_low (e rep sep A B : jsstring) :
  sep ≠ [] → Forall (fun x => x < 9888) sep → Forall (fun x => 9888 ≤ x) e →
  replace_lit e rep (A ++ sep ++ B)
  = replace_lit e rep A ++ sep ++ replace_lit e rep B.
Proof.
  intros Hne Hsep He. unfold replace_lit. apply replace_matches_sep.
  - apply match_lit_consuming.
  - intros s. destruct sep as [|c sep']; [done|].
    apply Forall_cons in Hsep as [Hc _].
    assert (H1 : Forall (fun x => x ≠ c) e)
      by (eapply Forall_impl; [exact He|]; intros x Hx ->; lia).
    unfold match_lit. destruct e as [|a e]; [reflexivity|].
    cbn [app]. rewrite (strip_prefix_sep _ s _ _ H1).
    by destruct (strip_prefix (a :: e) s).
  - intros p t -> Hp Ht. destruct e as [|a e]; [reflexivity|].
    apply Forall_cons in He as [Ha _]. apply Forall_app in Hsep as [_ Hsep].
    destruct t as [|x t]; [done|]. apply Forall_cons in Hsep as [Hx _].
    unfold match_lit. cbn [app strip_prefix].
    destruct (N.eqb_spec a x) as [->|]; [lia|reflexivity].
Qed.

Lemma emojis_high : Forall (Forall (fun x => 9888 ≤ x)) emojis.
Proof. unfold emojis. repeat constructor; by vm_compute. Qed.

Lemma replace_emojis_low (sep A B : jsstring) :
  sep ≠ [] → Forall (fun x => x < 9888) sep →
  replace_emojis (A ++ sep ++ B) = replace_emojis A ++ sep ++ replace_emojis B.
Proof.
  intros Hne Hsep. unfold replace_emojis. revert A B.
  induction emojis_high as [|e es He Hes IH]; intros A B; [reflexivity|].
  cbn [fold_left]. rewrite (replace_lit_low e _ sep A B Hne Hsep He). apply IH.
Qed.

Lemma forallb_Forall_impl (f : N → bool) (P : N → Prop) (s : jsstring) :
  (∀ c, f c = true → P c) → forallb f s = true → Forall P s.
Proof.
  intros Hf Hs. apply Forall_forall. intros c Hc. apply Hf.
  by eapply forallb_elem_of.
Qed.

Lemma bubble_of_lines (a b : jsstring) :
  bubble_of (a ++ [Chr.lf] ++ b) = bubble_of a ++ lit "<br>" ++ bubble_of b.
Proof.
  unfold bubble_of, format_replacements. cbv zeta.
  rewrite !escape_replacements_flat_map, !flat_map_app.
  change (flat_map escape_char [Chr.lf]) with [Chr.lf].
  rewrite replace_bold_lines, replace_char_lines.
  change (lit "<br>") with (Chr.lt :: lit "br>").
  rewrite replace_links_tag by (repeat constructor; discriminate).
  apply replace_emojis_low; [done|]. repeat constructor; by vm_compute.
Qed.

(** X21. [_formatMessage] works line by line: the markup of a text with a
    line feed in it is the markup of what precedes the line feed, the tag
    [<br>], and the markup of what follows.  No bold span, link or glyph
    wrapper reaches across a line break, and a link ends before it. *)
Theorem formatMessage_line_by_line `{Engine} (a b : jsstring) :
  _formatMessage (JStr a) = Normal (bubble_of a)
  ∧ _formatMessage (JStr (a ++ [Chr.lf] ++ b))
    = Normal (bubble_of a ++ lit "<br>" ++ bubble_of b).
Proof.
  split; [apply formatMessage_string|].
  rewrite formatMessage_string. f_equal. apply bubble_of_lines.
Qed.

(* ===================================================================== *)
(** ** A response that cannot be displayed *)
(* ===================================================================== *)

(** X22. A response the renderer throws on is reported as a failure of the
    network: the call is inside the [try] of [sendMessage], so whatever
    was rendered before the exception stays, the busy flag and the send
    button are released, and the log ends with the connection error
    message while the last notification asks whether the backend is
    running.  No request is made again. *)
Theorem unrenderable_response_is_reported_as_connection_error `{Engine}
    (data : JsValue) (w : Widget) :
  renders data = false →
  isTyping (after_json (Normal data) w) = false
  ∧ sendBtn_disabled (after_json (Normal data) w) = false
  ∧ last (messages (after_json (Normal data) w))
    = Some (Message bot (bubble_of connection_error_text))
  ∧ last (toasts (after_json (Normal data) w)) = Some network_error_toast
  ∧ requests (after_json (Normal data) w) = requests w.
Proof.
  intros Hr. pose proof (handleServerResponse_throws_on data w Hr) as Ht.
  pose proof (appends_only_handleServerResponse data w)
    as (_ & _ & _ & _ & _ & _ & _ & Hreq & _).
  unfold after_json.
  destruct (_handleServerResponse data w) as [w1 [[]|e]]; [discriminate|].
  cbn [fst] in Hreq. rewrite catch_block_unfold. widget_simpl.
  repeat split; try done; apply last_snoc.
Qed.

Lemma unrenderable_response_witness :
  @renders example_engine response_with_null_part = false
  ∧ last (messages (@after_json example_engine (Normal response_with_null_part)
                      fresh_widget))
    = Some (Message bot (bubble_of connection_error_text)).
Proof.
  split; [reflexivity|].
  apply (@unrenderable_response_is_reported_as_connection_error example_engine
           response_with_null_part fresh_widget).
  reflexivity.
Defined.

(* ===================================================================== *)
(** ** Bold spans and links *)
(* ===================================================================== *)

Lemma escape_forallb (f : N → bool) (s : jsstring) :
  forallb f (lit "&amp;") = true → forallb f (lit "&lt;") = true →
  forallb f (lit "&gt;") = true → forallb f (lit "&quot;") = true →
  forallb f (lit "&#039;") = true →
  forallb f s = true → forallb f (escape_replacements s) = true.
Proof.
  intros H1 H2 H3 H4 H5 Hs. rewrite escape_replacements_flat_map.
  induction s as [|c s IH]; [done|].
  cbn [forallb] in Hs. apply andb_true_iff in Hs as [Hc Hs].
  cbn [flat_map]. rewrite forallb_app, (IH Hs), andb_true_r.
  destruct (escape_char_cases c)
    as [[_ ->] | [[_ ->] | [[_ ->] | [[_ ->] | [[_ ->] | [_ ->]]]]]]; try done.
  cbn [forallb]. by rewrite Hc.
Qed.

Lemma escape_nonempty (s : jsstring) : s ≠ [] → escape_replacements s ≠ [].
Proof.
  intros Hs He. pose proof (escape_flat_map_length s) as Hl.
  rewrite <- escape_replacements_flat_map, He in Hl.
  destruct s; [done|]. cbn in Hl. lia.
Qed.

Lemma escape_replacements_app (s t : jsstring) :
  escape_replacements (s ++ t) = escape_replacements s ++ escape_replacements t.
Proof. by rewrite !escape_replacements_flat_map, flat_map_app. Qed.

Lemma find_close_found (X B : jsstring) :
  bold_content X = true → find_close (X ++ lit "**" ++ B) = Some (X, B).
Proof.
  intros HX. induction X as [|c X IH].
  - pose proof (strip_prefix_app [Chr.star; Chr.star] B) as Hs.
    change (find_close ([] ++ lit "**" ++ B))
      with (find_close (Chr.star :: Chr.star :: B)).
    cbn [find_close]. cbn [app] in Hs. by rewrite Hs.
  - unfold bold_content in HX. cbn [forallb] in HX.
    apply andb_true_iff in HX as [[Hc Hlt]%andb_true_iff HX].
    apply negb_true_iff in Hc. apply negb_true_iff in Hlt.
    cbn [app find_close strip_prefix].
    rewrite N.eqb_sym, Hc, Hlt. by rewrite (IH HX).
Qed.

Lemma match_bold_found (X B : jsstring) :
  X ≠ [] → bold_content X = true →
  match_bold (lit "**" ++ X ++ lit "**" ++ B) = Some (X, B).
Proof.
  intros Hne HX. unfold match_bold.
  change (lit "**" ++ X ++ lit "**" ++ B)
    with ([Chr.star; Chr.star] ++ (X ++ lit "**" ++ B)).
  rewrite strip_prefix_app. destruct X as [|x X]; [done|]. cbn [app].
  unfold bold_content in HX. cbn [forallb] in HX.
  apply andb_true_iff in HX as [[Hc Hlt]%andb_true_iff HX].
  apply negb_true_iff in Hlt. rewrite Hlt.
  by rewrite (find_close_found X B HX).
Qed.

Lemma replace_bold_skip (A R : jsstring) :
  star_free A = true → replace_bold (A ++ R) = A ++ replace_bold R.
Proof.
  intros HA. unfold replace_bold.
  apply replace_matches_skip; [apply match_bold_consuming|].
  intros p t' -> Hne. unfold star_free in HA.
  rewrite forallb_app in HA. apply andb_true_iff in HA as [_ HA].
  destruct t' as [|x t']; [done|]. cbn [forallb] in HA.
  apply andb_true_iff in HA as [Hx _]. apply negb_true_iff in Hx.
  apply match_bold_none. unfold starts_with.
  change (lit "**") with [Chr.star; Chr.star]. cbn [app strip_prefix].
  by rewrite N.eqb_sym, Hx.
Qed.

Lemma replace_bold_star_free (A : jsstring) :
  star_free A = true → replace_bold A = A.
Proof.
  intros HA. rewrite <- (app_nil_r A) at 1.
  rewrite (replace_bold_skip A [] HA). apply app_nil_r.
Qed.

Lemma bold_content_star_free (X : jsstring) :
  bold_content X = true → star_free X = true.
Proof.
  unfold bold_content, star_free. induction X as [|c X IH]; [done|].
  cbn [forallb]. intros [[Hc _]%andb_true_iff HX]%andb_true_iff.
  by rewrite Hc, (IH HX).
Qed.

Lemma replace_bold_span (A X B : jsstring) :
  star_free A = true → X ≠ [] → bold_content X = true →
  replace_bold (A ++ lit "**" ++ X ++ lit "**" ++ B)
  = A ++ lit "<strong>" ++ X ++ lit "</strong>" ++ replace_bold B.
Proof.
  intros HA Hne HX. rewrite (replace_bold_skip A _ HA). f_equal.
  unfold replace_bold.
  rewrite (replace_matches_found _ _ _ X B match_bold_consuming
             (match_bold_found X B Hne HX)).
  by rewrite <- !app_assoc.
Qed.

Lemma low_text (s : jsstring) :
  forallb (fun c => c <? 9888) s = true → Forall (fun x => x < 9888) s.
Proof. apply forallb_Forall_impl. intros c. apply N.ltb_lt. Qed.

Lemma bubble_of_star_free (a : jsstring) :
  star_free a = true →
  bubble_of a
  = replace_emojis (replace_links (replace_char Chr.lf (lit "<br>")
                                     (escape_replacements a))).
Proof.
  intros Ha. unfold bubble_of, format_replacements. cbv zeta.
  rewrite replace_bold_star_free; [reflexivity|].
  by apply escape_forallb.
Qed.

Lemma bubble_of_bold (a x b : jsstring) :
  star_free a = true → x ≠ [] → bold_content x = true →
  bubble_of (a ++ lit "**" ++ x ++ lit "**" ++ b)
  = bubble_of a ++ lit "<strong>" ++ bubble_of x ++ lit "</strong>"
    ++ bubble_of b.
Proof.
  intros Ha Hne Hx.
  assert (Ea : star_free (escape_replacements a) = true)
    by (by apply escape_forallb).
  assert (Ex : bold_content (escape_replacements x) = true)
    by (by apply escape_forallb).
  pose proof (escape_nonempty x Hne) as Exne.
  rewrite (bubble_of_star_free a Ha).
  rewrite (bubble_of_star_free x (bold_content_star_free x Hx)).
  unfold bubble_of, format_replacements. cbv zeta.
  rewrite !escape_replacements_app.
  change (escape_replacements (lit "**")) with (lit "**").
  rewrite (replace_bold_span _ _ _ Ea Exne Ex).
  rewrite !replace_char_app.
  change (replace_char Chr.lf (lit "<br>") (lit "<strong>"))
    with (Chr.lt :: lit "strong>").
  change (replace_char Chr.lf (lit "<br>") (lit "</strong>"))
    with (Chr.lt :: lit "/strong>").
  rewrite (replace_links_tag (lit "strong>")) by (repeat constructor; discriminate).
  rewrite (replace_links_tag (lit "/strong>")) by (repeat constructor; discriminate).
  rewrite (replace_emojis_low (Chr.lt :: lit "strong>"));
    [|done|by apply low_text].
  rewrite (replace_emojis_low (Chr.lt :: lit "/strong>"));
    [|done|by apply low_text].
  reflexivity.
Qed.

(** X23. A pair of double asterisks around text on one line makes it bold:
    when no asterisk precedes the pair and the text between the markers
    is not empty and holds neither an asterisk nor a line terminator, the
    markup is that of what precedes, [<strong>], the markup of the text
    between, [</strong>], and the markup of what follows, whatever that
    is. *)
Theorem bold_markers_become_strong `{Engine} (a x b : jsstring) :
  star_free a = true → x ≠ [] → bold_content x = true →
  _formatMessage (JStr (a ++ lit "**" ++ x ++ lit "**" ++ b))
  = Normal (bubble_of a ++ lit "<strong>" ++ bubble_of x ++ lit "</strong>"
            ++ bubble_of b).
Proof.
  intros Ha Hne Hx. rewrite formatMessage_string. f_equal.
  by apply bubble_of_bold.
Qed.

Lemma bold_markers_witness :
  star_free (lit "Found ") = true ∧ lit "4 parts" ≠ []
  ∧ bold_content (lit "4 parts") = true
  ∧ @_formatMessage example_engine (JStr (lit "Found **4 parts** for you"))
    = Normal (lit "Found <strong>4 parts</strong> for you").
Proof.
  split; [reflexivity|]. split; [discriminate|]. split; [reflexivity|].
  pose proof (@bold_markers_become_strong example_engine
                (lit "Found ") (lit "4 parts") (lit " for you")
                eq_refl ltac:(discriminate) eq_refl) as Hb.
  vm_compute in Hb. vm_compute. exact Hb.
Defined.

Lemma anchor_low (u : jsstring) :
  Forall (fun x => x < 9888) u → Forall (fun x => x < 9888) (anchor u).
Proof.
  intros Hu. unfold anchor, quoted, dq.
  repeat (apply Forall_app; split); try done; by apply low_text.
Qed.

Lemma scheme_facts (secure : bool) :
  star_free (scheme secure) = true
  ∧ escape_replacements (scheme secure) = scheme secure
  ∧ replace_char Chr.lf (lit "<br>") (scheme secure) = scheme secure
  ∧ forallb (fun c => c <? 9888) (scheme secure) = true.
Proof. by destruct secure. Qed.

Lemma escape_no_stop (v : jsstring) :
  forallb (fun c => negb (isSpace c)) v = true →
  forallb (fun c => negb (url_stop c)) (escape_replacements v) = true.
Proof.
  intros Hv. rewrite escape_replacements_flat_map.
  induction v as [|c v IH]; [done|].
  cbn [forallb] in Hv. apply andb_true_iff in Hv as [Hc Hv].
  cbn [flat_map]. rewrite forallb_app, (IH Hv), andb_true_r.
  destruct (escape_char_cases c)
    as [[Hn ->] | [[_ ->] | [[_ ->] | [[_ ->] | [[_ ->] | [_ ->]]]]]]; try done.
  cbn [forallb]. rewrite andb_true_r. unfold url_stop.
  apply negb_true_iff in Hc. rewrite Hc. cbn [orb].
  unfold needs_escaping, isHtmlSpecial in Hn.
  apply orb_false_iff in Hn as [_ Hn].
  apply orb_false_iff in Hn as [Hn _]. apply orb_false_iff in Hn as [Hn _].
  apply orb_false_iff in Hn as [Hn _]. by rewrite Hn.
Qed.

Lemma url_text_facts (v : jsstring) :
  url_text v = true →
  star_free v = true
  ∧ forallb (fun c => negb (isSpace c)) v = true
  ∧ forallb (fun c => c <? 9888) v = true.
Proof.
  unfold url_text, star_free. induction v as [|c v IH]; [done|].
  cbn [forallb].
  intros [[[Hs Hstar]%andb_true_iff Hlow]%andb_true_iff Hv]%andb_true_iff.
  destruct (IH Hv) as (I1 & I2 & I3). by rewrite I1, I2, I3, Hs, Hstar, Hlow.
Qed.

Lemma bubble_of_url (a : jsstring) (secure : bool) (v : jsstring)
    (rest : option jsstring) :
  star_free a = true → v ≠ [] → url_text v = true →
  bubble_of (a ++ [32] ++ scheme secure ++ v ++ after_url rest)
  = bubble_of a ++ [32] ++ anchor (scheme secure ++ escape_replacements v)
    ++ after_anchor rest.
Proof.
  intros Ha Hne Hv.
  destruct (scheme_facts secure) as (Sstar & Sesc & Slf & Slow).
  assert (Ea : star_free (escape_replacements a) = true)
    by (by apply escape_forallb).
  destruct (url_text_facts v Hv) as (Vstar & Vspace & Vlow).
  assert (Evstar : star_free (escape_replacements v) = true)
    by (by apply escape_forallb).
  pose proof (escape_no_stop v Vspace) as Evstop.
  assert (Evlf : Forall (fun c => c ≠ Chr.lf) (escape_replacements v)).
  { apply (forallb_Forall_impl (fun c => negb (url_stop c))); [|done].
    intros c Hc ->. discriminate. }
  assert (Evlow : forallb (fun c => c <? 9888) (escape_replacements v) = true)
    by (by apply escape_forallb).
  pose proof (escape_nonempty v Hne) as Evne.
  rewrite (bubble_of_star_free a Ha).
  unfold bubble_of at 1. unfold format_replacements. cbv zeta.
  rewrite !escape_replacements_app, Sesc.
  change (escape_replacements [32]) with [32].
  rewrite (replace_bold_skip _ _ Ea).
  rewrite (replace_bold_skip [32]) by done.
  rewrite (replace_bold_skip _ _ Sstar).
  rewrite (replace_bold_skip _ _ Evstar).
  rewrite !replace_char_app, Slf.
  change (replace_char Chr.lf (lit "<br>") [32]) with [32].
  rewrite (replace_char_absent _ _ _ Evlf).
  cbn [app].
  rewrite replace_links_stop by done.
  set (u := scheme secure ++ escape_replacements v).
  assert (Hu : Forall (fun x => x < 9888) (anchor u)).
  { apply anchor_low. subst u. apply Forall_app. split; by apply low_text. }
  destruct rest as [b|]; cbn [after_url after_anchor].
  - rewrite escape_replacements_app.
    change (escape_replacements [32]) with [32].
    rewrite (replace_bold_skip [32]) by done. rewrite replace_char_app.
    change (replace_char Chr.lf (lit "<br>") [32]) with [32]. cbn [app].
    rewrite (replace_links_url secure _ _ Evne Evstop) by done.
    rewrite (replace_links_stop_head 32) by done. fold u.
    transitivity (replace_emojis
      (replace_links (replace_char Chr.lf (lit "<br>") (escape_replacements a))
       ++ (32 :: anchor u ++ [32])
       ++ replace_links (replace_char Chr.lf (lit "<br>")
                           (replace_bold (escape_replacements b))))).
    { f_equal. f_equal. cbn [app]. by rewrite <- app_assoc. }
    rewrite replace_emojis_low; [|done|].
    + cbn [app]. by rewrite <- app_assoc.
    + apply Forall_cons. split; [done|]. apply Forall_app. split; [done|].
      by apply low_text.
  - change (replace_char Chr.lf (lit "<br>")
              (replace_bold (escape_replacements []))) with (@nil N).
    rewrite (replace_links_url secure _ [] Evne Evstop) by done.
    change (replace_links []) with (@nil N). rewrite !app_nil_r. fold u.
    transitivity (replace_emojis
      (replace_links (replace_char Chr.lf (lit "<br>") (escape_replacements a))
       ++ (32 :: anchor u) ++ [])).
    { by rewrite app_nil_r. }
    rewrite replace_emojis_low; [|done|by apply Forall_cons].
    change (replace_emojis []) with (@nil N). by rewrite app_nil_r.
Qed.

(** X24. A URL set off by spaces becomes a link.  When no asterisk
    precedes it, a text [http://] or [https://] followed by one or more
    characters that are neither white space nor asterisks nor wrapped
    glyphs, and ending at the end of the message or at a space, is shown
    as an anchor whose [href] and whose text are both the escaped URL;
    what precedes and what follows is marked up on its own. *)
Theorem url_becomes_anchor `{Engine} (a : jsstring) (secure : bool)
    (v : jsstring) (rest : option jsstring) :
  star_free a = true → v ≠ [] → url_text v = true →
  _formatMessage (JStr (a ++ [32] ++ scheme secure ++ v ++ after_url rest))
  = Normal (bubble_of a ++ [32]
            ++ anchor (scheme secure ++ escape_replacements v)
            ++ after_anchor rest).
Proof.
  intros Ha Hne Hv. rewrite formatMessage_string. f_equal.
  by apply bubble_of_url.
Qed.

Lemma url_becomes_anchor_witness :
  star_free (lit "Manual:") = true ∧ lit "example.com/pads?id=7&lang=fr" ≠ []
  ∧ url_text (lit "example.com/pads?id=7&lang=fr") = true
  ∧ @_formatMessage example_engine
      (JStr (lit "Manual: https://example.com/pads?id=7&lang=fr (PDF)"))
    = Normal (lit "Manual: "
              ++ anchor (lit "https://example.com/pads?id=7&amp;lang=fr")
              ++ lit " (PDF)").
Proof.
  split; [reflexivity|]. split; [discriminate|]. split; [reflexivity|].
  pose proof (@url_becomes_anchor example_engine
                (lit "Manual:") true (lit "example.com/pads?id=7&lang=fr")
                (Some (lit "(PDF)")) eq_refl ltac:(discriminate) eq_refl) as Hu.
  vm_compute in Hu. vm_compute. exact Hu.
Defined.

(* ===================================================================== *)
(** ** Stock given as anything but a Number *)
(* ===================================================================== *)




(* ===================================================================== *)
(** ** Clearing the chat *)
(* ===================================================================== *)

(** X26. Clearing the chat empties the page but does not start a new
    session.  On a browser whose storage can be read and written, after
    any sequence of turns a confirmed [clearChat] leaves a widget as the
    constructor makes it (empty log, nothing pending, counter at zero)
    with the session identifier the widget had before, at whatever time
    the reload happens; the storage is untouched.  Declining the
    confirmation changes nothing. *)
Theorem clearChat_keeps_the_session `{Engine} (host : jsstring) (now now' : Z)
    (random random' : spec_float) (st : Storage) (evs : list Event)
    (w' : Widget) :
  ls_readable st = true → ls_writable st = true →
  run evs (page_widget (load_page host now random st)) = Some w' →
  clearChat true now' random'
    {| page_storage := page_storage (load_page host now random st);
       page_widget := w' |}
  = {| page_storage := page_storage (load_page host now random st);
       page_widget := new_IMOBOTChat host (sessionId w') |}
  ∧ clearChat false now' random'
      {| page_storage := page_storage (load_page host now random st);
         page_widget := w' |}
    = {| page_storage := page_storage (load_page host now random st);
         page_widget := w' |}.
Proof.
  intros Hr Hw Hrun. split; [|reflexivity].
  destruct (run_trace evs _ w' Hrun) as (Hhost & Hsid & _).
  unfold clearChat, load_page in *. cbn [negb page_storage page_widget] in *.
  cbn [hostname sessionId new_IMOBOTChat] in Hhost, Hsid.
  rewrite (session_reload now now' random random' st Hr Hw).
  cbn [sr_id sr_storage]. by rewrite Hhost, Hsid.
Qed.

Lemma clearChat_witness :
  (ls_readable empty_storage = true ∧ ls_writable empty_storage = true)
  ∧ ∃ w', @run example_engine two_exchanges
            (page_widget (@load_page example_engine (lit "localhost")
                            1700000000000 one_half empty_storage)) = Some w'
          ∧ page_widget
              (@clearChat example_engine true 1700086400000 twelve_and_a_half
                 {| page_storage :=
                      page_storage (@load_page example_engine (lit "localhost")
                                      1700000000000 one_half empty_storage);
                    page_widget := w' |})
            = new_IMOBOTChat (lit "localhost") (lit "session_1700000000000_i").
Proof.
  split; [by split|]. eexists. split; [vm_compute; reflexivity|].
  match goal with
  | |- page_widget (clearChat _ _ _ {| page_storage := _; page_widget := ?w |}) = _ =>
      destruct (@clearChat_keeps_the_session example_engine (lit "localhost")
                  1700000000000 1700086400000 one_half twelve_and_a_half
                  empty_storage two_exchanges w eq_refl eq_refl
                  ltac:(vm_compute; reflexivity)) as [Hclear _]
  end.
  exact (f_equal page_widget Hclear).
Defined.

(* ===================================================================== *)
(** ** The request body loses nothing *)
(* ===================================================================== *)

Lemma unhex_hex_digit (n : N) : n < 16 → unhex (hex_digit n) = n.
Proof.
  intros Hn. unfold unhex, hex_digit.
  destruct (N.ltb_spec n 10) as [Hlt|Hge].
  - destruct (N.ltb_spec (48 + n) 58); lia.
  - destruct (N.ltb_spec (87 + n) 58); lia.
Qed.

Lemma hex_digits_value (c : N) :
  c < 65536 →
  4096 * unhex (hex_digit (c / 4096 mod 16))
  + 256 * unhex (hex_digit (c / 256 mod 16))
  + 16 * unhex (hex_digit (c / 16 mod 16))
  + unhex (hex_digit (c mod 16)) = c.
Proof.
  intros Hc.
  rewrite !unhex_hex_digit by (apply N.mod_lt; discriminate).
  pose proof (N.div_mod c 16 ltac:(discriminate)) as E0.
  pose proof (N.div_mod (c / 16) 16 ltac:(discriminate)) as E1.
  pose proof (N.div_mod (c / 256) 16 ltac:(discriminate)) as E2.
  replace (c / 16 / 16) with (c / 256) in E1
    by (rewrite N.Div0.div_div; reflexivity).
  replace (c / 256 / 16) with (c / 4096) in E2
    by (rewrite N.Div0.div_div; reflexivity).
  assert (H3 : c / 4096 mod 16 = c / 4096).
  { apply N.mod_small. apply N.Div0.div_lt_upper_bound. exact Hc. }
  rewrite H3.
  generalize dependent (c mod 16). generalize dependent (c / 16 mod 16).
  generalize dependent (c / 256 mod 16). generalize dependent (c / 4096).
  generalize dependent (c / 256). generalize dependent (c / 16).
  intros. lia.
Qed.

Lemma unquote_end (r : jsstring) : unquote_json_chars (34 :: r) = Some ([], r).
Proof. reflexivity. Qed.

Lemma unquote_plain (c : N) (r : jsstring) :
  c ≠ 34 → c ≠ 92 →
  unquote_json_chars (c :: r)
  = match unquote_json_chars r with
    | Some (u, rest) => Some (c :: u, rest)
    | None => None
    end.
Proof.
  intros H1 H2. cbn [unquote_json_chars].
  apply N.eqb_neq in H1. apply N.eqb_neq in H2. by rewrite H1, H2.
Qed.

Lemma unquote_short (x : N) (r : jsstring) :
  x ≠ 117 →
  unquote_json_chars (92 :: x :: r)
  = match unquote_json_chars r with
    | Some (u, rest) => Some (unescape x :: u, rest)
    | None => None
    end.
Proof.
  intros Hx. apply N.eqb_neq in Hx. cbn [unquote_json_chars].
  change (92 =? 34) with false. change (92 =? 92) with true. cbv iota.
  by rewrite Hx.
Qed.

Lemma unquote_unicode (c : N) (r : jsstring) :
  c < 65536 →
  unquote_json_chars (UnicodeEscape c ++ r)
  = match unquote_json_chars r with
    | Some (u, rest) => Some (c :: u, rest)
    | None => None
    end.
Proof.
  intros Hc. unfold UnicodeEscape.
  change (lit "\u") with [92; 117]. cbn [app unquote_json_chars].
  change (92 =? 34) with false. change (92 =? 92) with true.
  change (117 =? 117) with true. cbv iota.
  by rewrite (hex_digits_value c Hc).
Qed.

(** Reading back what [quote_json_chars] wrote, up to the closing quote,
    gives the text. *)
Lemma unquote_quote (s X : jsstring) :
  unquote_json_chars (quote_json_chars s ++ 34 :: X) = Some (s, X).
Proof.
  remember (length s) as n eqn:Hn. revert s Hn.
  induction (lt_wf n) as [n _ IH]. intros s ->.
  destruct s as [|c s]; [reflexivity|].
  assert (IH1 : unquote_json_chars (quote_json_chars s ++ 34 :: X) = Some (s, X))
    by (apply (IH (length s)); [cbn; lia|reflexivity]).
  cbn [quote_json_chars].
  destruct (N.eqb_spec c 8) as [->|H8].
  { change (lit "\b") with [92; 98]. cbn [app].
    rewrite unquote_short by discriminate. by rewrite IH1. }
  destruct (N.eqb_spec c 9) as [->|H9].
  { change (lit "\t") with [92; 116]. cbn [app].
    rewrite unquote_short by discriminate. by rewrite IH1. }
  destruct (N.eqb_spec c 10) as [->|H10].
  { change (lit "\n") with [92; 110]. cbn [app].
    rewrite unquote_short by discriminate. by rewrite IH1. }
  destruct (N.eqb_spec c 12) as [->|H12].
  { change (lit "\f") with [92; 102]. cbn [app].
    rewrite unquote_short by discriminate. by rewrite IH1. }
  destruct (N.eqb_spec c 13) as [->|H13].
  { change (lit "\r") with [92; 114]. cbn [app].
    rewrite unquote_short by discriminate. by rewrite IH1. }
  destruct (N.eqb_spec c 34) as [->|H34].
  { change (lit "\") with [92]. unfold dq. cbn [app].
    rewrite unquote_short by discriminate. by rewrite IH1. }
  destruct (N.eqb_spec c 92) as [->|H92].
  { change (lit "\\") with [92; 92]. cbn [app].
    rewrite unquote_short by discriminate. by rewrite IH1. }
  destruct (N.ltb_spec c 32) as [Hctl|Hge].
  { rewrite <- app_assoc, unquote_unicode by lia. by rewrite IH1. }
  unfold isLeadingSurrogate, isTrailingSurrogate.
  destruct (N.leb_spec 55296 c) as [Hl1|Hl1]; cbn [andb].
  - destruct (N.leb_spec c 56319) as [Hl2|Hl2]; cbn [andb].
    + destruct s as [|d s].
      * rewrite unquote_unicode by lia. reflexivity.
      * destruct (N.leb_spec 56320 d) as [Ht1|Ht1]; cbn [andb].
        -- destruct (N.leb_spec d 57343) as [Ht2|Ht2]; cbn [andb].
           ++ cbn [app]. rewrite unquote_plain by lia.
              rewrite unquote_plain by lia.
              rewrite (IH (length s)); [reflexivity|cbn; lia|reflexivity].
           ++ rewrite <- app_assoc, unquote_unicode by lia. by rewrite IH1.
        -- rewrite <- app_assoc, unquote_unicode by lia. by rewrite IH1.
    + destruct (N.leb_spec 56320 c) as [Ht1|Ht1]; cbn [andb].
      * destruct (N.leb_spec c 57343) as [Ht2|Ht2]; cbn [andb].
        -- rewrite <- app_assoc, unquote_unicode by lia. by rewrite IH1.
        -- cbn [app]. rewrite unquote_plain by done. by rewrite IH1.
      * cbn [app]. rewrite unquote_plain by done. by rewrite IH1.
  - destruct (N.leb_spec 56320 c) as [Ht1|Ht1]; cbn [andb]; [lia|].
    cbn [app]. rewrite unquote_plain by done. by rewrite IH1.
Qed.

Lemma quote_json_chars_terminated (s t X Y : jsstring) :
  quote_json_chars s ++ 34 :: X = quote_json_chars t ++ 34 :: Y →
  s = t ∧ X = Y.
Proof.
  intros Heq. pose proof (unquote_quote s X) as Hs.
  rewrite Heq, unquote_quote in Hs. by injection Hs as -> ->.
Qed.

(** X27. The body of a request determines the text and the session
    identifier it was built from: two payloads are equal only if both
    fields are.  Whatever the user types (quotes, backslashes, braces,
    control characters, unpaired surrogates) is carried inside the
    [message] string and cannot pass for another message or alter the
    [sessionId] field. *)
Theorem request_body_determines_message_and_session
    (message sid message' sid' : jsstring) :
  stringify_payload message sid = stringify_payload message' sid'
  ↔ message = message' ∧ sid = sid'.
Proof.
  split; [|by intros [-> ->]].
  assert (Hshape : ∀ m s, stringify_payload m s
    = (lit "{" ++ quoted (lit "message") ++ lit ":" ++ dq)
      ++ quote_json_chars m
      ++ 34 :: (lit "," ++ quoted (lit "sessionId") ++ lit ":" ++ dq)
      ++ quote_json_chars s ++ 34 :: lit "}").
  { intros m s. unfold stringify_payload, QuoteJSONString, quoted, dq.
    rewrite <- !app_assoc. reflexivity. }
  rewrite !Hshape. intros Heq.
  apply app_inv_head in Heq.
  apply quote_json_chars_terminated in Heq as [-> Heq].
  apply app_inv_head in Heq.
  by apply quote_json_chars_terminated in Heq as [-> _].
Qed.
